(** * Job-search pipeline: matching engine, deduplicator, dispatcher,
      orchestrator and result cache

    A shallow embedding of the Python sources
      backend/utils/matching.py
      backend/agents/scraper_agent.py, simple_scraper_agent.py
      backend/agents/autoapply_agent.py
      backend/agents/supervisor_agent.py, simple_supervisor_agent.py
      backend/utils/scraper_helpers.py
    and the properties of the specification that are stated about them.

    Conventions of the embedding.
    - A Python [str] is a [string] of 8-bit characters; the case,
      white-space and character-class functions below are those of Python
      on ASCII text.  [clean_text], whose result depends on the characters
      beyond ASCII, is modelled on Unicode code points instead, with the
      Unicode database as a parameter.
    - A Python [float] that holds a score is a rational ([Q]); equality of
      scores is [Qeq].
    - A function that may raise returns a [result]; a coroutine that awaits a
      collaborator (database, scraper, submission handler) takes the
      collaborator's answer as an argument. *)

From Stdlib Require Import Ascii String DecimalString QArith Qminmax Lqa.
From stdpp Require Import base list strings gmap.

Open Scope string_scope.
Open Scope list_scope.

(** ** Python string primitives *)

Module PyStr.

(** [str.lower] on one character. *)
Definition lower_ascii (c : ascii) : ascii :=
  let n := nat_of_ascii c in
  if (65 <=? n)%nat && (n <=? 90)%nat then ascii_of_nat (n + 32) else c.

(** [s.lower()] *)
Fixpoint lower (s : string) : string :=
  match s with
  | EmptyString => EmptyString
  | String c s' => String (lower_ascii c) (lower s')
  end.

(** [c.isspace()]: TAB, LF, VT, FF, CR, FS, GS, RS, US and SPACE. *)
Definition isspace (c : ascii) : bool :=
  let n := nat_of_ascii c in
  ((9 <=? n)%nat && (n <=? 13)%nat) || ((28 <=? n)%nat && (n <=? 32)%nat).

(** [s.lstrip()] *)
Fixpoint lstrip (s : string) : string :=
  match s with
  | EmptyString => EmptyString
  | String c s' => if isspace c then lstrip s' else s
  end.

(** [s.rstrip()] *)
Fixpoint rstrip (s : string) : string :=
  match s with
  | EmptyString => EmptyString
  | String c s' =>
      match rstrip s' with
      | EmptyString => if isspace c then EmptyString else String c EmptyString
      | t => String c t
      end
  end.

(** [s.strip()] *)
Definition strip (s : string) : string := rstrip (lstrip s).

(** [a in b] for two strings: [a] occurs in [b] as a substring. *)
Fixpoint contains (b a : string) : bool :=
  String.prefix a b ||
  match b with
  | EmptyString => false
  | String _ b' => contains b' a
  end.

(** [x in l] for a string and a list of strings. *)
Definition mem (x : string) (l : list string) : bool :=
  bool_decide (x ∈ l).

(** [d.get(k, [])] for a dict literal written as an association list. *)
Fixpoint dict_get {V} (d : list (string * V)) (k : string) (default : V) : V :=
  match d with
  | [] => default
  | (k', v) :: d' => if String.eqb k' k then v else dict_get d' k default
  end.

(** [sep.join(parts)] *)
Fixpoint join (sep : string) (parts : list string) : string :=
  match parts with
  | [] => ""
  | [p] => p
  | p :: ps => p +:+ sep +:+ join sep ps
  end.

End PyStr.

(** ** backend/utils/matching.py: the matcher *)

Module Matching.
Import PyStr.

(** The hand-curated relationship graph of [find_partial_skill_match]. *)
Definition skill_relationships : list (string * list string) :=
  [ ("javascript", ["js"; "node.js"; "nodejs"; "react"; "angular"; "vue"]);
    ("python", ["django"; "flask"; "fastapi"; "pandas"; "numpy"]);
    ("java", ["spring"; "hibernate"; "maven"; "gradle"]);
    ("react", ["javascript"; "js"; "jsx"; "redux"]);
    ("angular", ["javascript"; "typescript"; "rxjs"]);
    ("vue", ["javascript"; "vuex"; "nuxt"]);
    ("sql", ["mysql"; "postgresql"; "sqlite"; "oracle"]);
    ("aws", ["ec2"; "s3"; "lambda"; "cloudformation"]);
    ("machine learning",
      ["tensorflow"; "pytorch"; "scikit-learn"; "keras"; "pandas"; "numpy"]);
    ("data science",
      ["python"; "r"; "pandas"; "numpy"; "matplotlib"; "jupyter"]) ].

(** The three tests made on one user skill, in the order of the source:
    the two directions of the relationship graph, then substring
    containment when both terms are longer than three characters. *)
Definition related (required_skill user_skill_lower : string) : bool :=
  mem required_skill (dict_get skill_relationships user_skill_lower [])
  || mem user_skill_lower (dict_get skill_relationships required_skill [])
  || ((3 <? String.length required_skill)%nat
      && (3 <? String.length user_skill_lower)%nat
      && (contains user_skill_lower required_skill
          || contains required_skill user_skill_lower)).

(** [find_partial_skill_match(required_skill, user_skills)]: the first user
    skill that is related, as it stands in [user_skills]; [None] if none. *)
Fixpoint find_partial_skill_match
    (required_skill : string) (user_skills : list string) : option string :=
  match user_skills with
  | [] => None
  | user_skill :: rest =>
      if related required_skill (lower user_skill) then Some user_skill
      else find_partial_skill_match required_skill rest
  end.

Record partial_match := PartialMatch {
  required_skill : string;
  user_skill : string;
  confidence : Q
}.

Record skill_match := SkillMatch {
  exact_matches : list string;
  partial_matches : list partial_match;
  missing_skills : list string;
  match_percentage : Q;
  total_required : nat
}.

(** The three lists the loop of [calculate_skill_match] appends to. *)
Record buckets := Buckets {
  b_exact : list string;
  b_partial : list partial_match;
  b_missing : list string
}.

(** One iteration of the loop over [required_skills].  [if partial_match:]
    is Python truthiness: [None] and the empty string both take the else
    branch. *)
Definition classify_step
    (user_skills_lower : list string) (b : buckets) (req_skill : string)
    : buckets :=
  let req_skill_lower := lower req_skill in
  if mem req_skill_lower user_skills_lower then
    Buckets (b_exact b ++ [req_skill]) (b_partial b) (b_missing b)
  else
    match find_partial_skill_match req_skill_lower user_skills_lower with
    | Some (String c s as partial) =>
        Buckets (b_exact b)
                (b_partial b ++ [PartialMatch req_skill partial (7 # 10)])
                (b_missing b)
    | _ =>
        Buckets (b_exact b) (b_partial b) (b_missing b ++ [req_skill])
    end.

Definition classify_loop
    (user_skills_lower required_skills : list string) : buckets :=
  fold_left (classify_step user_skills_lower) required_skills
            (Buckets [] [] []).

Definition Qlen {A} (l : list A) : Q := inject_Z (Z.of_nat (length l)).

(** [calculate_skill_match(user_skills, required_skills)] *)
Definition calculate_skill_match
    (user_skills required_skills : list string) : skill_match :=
  let user_skills_lower := map lower user_skills in
  let b := classify_loop user_skills_lower required_skills in
  let total_required :=
    match required_skills with [] => 1%nat | _ => length required_skills end in
  let exact_weight := 1%Q in
  let partial_weight := (1 # 2)%Q in
  let match_score :=
    ((Qlen (b_exact b) * exact_weight + Qlen (b_partial b) * partial_weight)
     / inject_Z (Z.of_nat total_required))%Q in
  let match_percentage := Qmin 100 (match_score * 100) in
  SkillMatch (b_exact b) (b_partial b) (b_missing b)
             match_percentage total_required.

End Matching.

(** ** Exceptions *)

(** A Python exception: its class and its message. *)
Record exn := PyExn { exn_class : string; exn_msg : string }.

(** The outcome of a call that may raise. *)
Inductive result (A : Type) : Type :=
| Ok (a : A)
| Raise (e : exn).
Arguments Ok {A} a.
Arguments Raise {A} e.

(** Sequencing: an exception of the first call propagates. *)
Definition bind {A B} (r : result A) (f : A -> result B) : result B :=
  match r with
  | Ok a => f a
  | Raise e => Raise e
  end.

Notation "'let*' x ':=' r 'in' k" := (bind r (fun x => k))
  (at level 10, x name, r at level 100, k at level 200).

(** ** The part of Python's [re] that the pattern catalogs use *)

Module Regex.

Inductive cls := CAny | CSpace | CWord | CDigit.

Inductive re :=
| Eps
| Lit (c : ascii)
| Class (f : cls)
| Bound
| Seq (r1 r2 : re)
| Alt (r1 r2 : re)
| Star (r : re)
| NegLook (r : re).

Definition is_digit (c : ascii) : bool :=
  let n := nat_of_ascii c in (48 <=? n)%nat && (n <=? 57)%nat.

Definition is_alpha (c : ascii) : bool :=
  let n := nat_of_ascii c in
  ((65 <=? n)%nat && (n <=? 90)%nat) || ((97 <=? n)%nat && (n <=? 122)%nat).

(** [\w] on ASCII text: letters, digits and the underscore. *)
Definition is_word (c : ascii) : bool :=
  is_alpha c || is_digit c || Ascii.eqb c "_".

Definition in_class (f : cls) (c : ascii) : bool :=
  match f with
  | CAny => negb (Ascii.eqb c "010")
  | CSpace => PyStr.isspace c
  | CWord => is_word c
  | CDigit => is_digit c
  end.

Definition word_at (c : option ascii) : bool :=
  match c with Some c => is_word c | None => false end.

Definition next_char (s : string) : option ascii :=
  match s with String c _ => Some c | EmptyString => None end.

(** Backtracking matcher in continuation-passing style.  A position is the
    character before it ([prev], for [\b]) and the rest of the text.  An
    iteration of a star must consume a character, which bounds the number
    of iterations by the length of the rest. *)
Fixpoint matches (r : re) (prev : option ascii) (s : string)
    (k : option ascii -> string -> bool) {struct r} : bool :=
  match r with
  | Eps => k prev s
  | Lit c =>
      match s with
      | String c' s' => Ascii.eqb c c' && k (Some c') s'
      | EmptyString => false
      end
  | Class f =>
      match s with
      | String c' s' => in_class f c' && k (Some c') s'
      | EmptyString => false
      end
  | Bound => xorb (word_at prev) (word_at (next_char s)) && k prev s
  | Seq r1 r2 => matches r1 prev s (fun p' s' => matches r2 p' s' k)
  | Alt r1 r2 => matches r1 prev s k || matches r2 prev s k
  | Star r1 =>
      (fix loop (n : nat) (prev : option ascii) (s : string) : bool :=
         k prev s ||
         match n with
         | O => false
         | S n' =>
             matches r1 prev s
               (fun p' s' =>
                  (String.length s' <? String.length s)%nat && loop n' p' s')
         end) (String.length s) prev s
  | NegLook r1 => negb (matches r1 prev s (fun _ _ => true)) && k prev s
  end.

(** [re.search]: a match starting at some position of the text. *)
Fixpoint search_from (r : re) (prev : option ascii) (s : string) : bool :=
  matches r prev s (fun _ _ => true) ||
  match s with
  | EmptyString => false
  | String c s' => search_from r (Some c) s'
  end.

Definition search (r : re) (text : string) : bool := search_from r None text.

(** *** Pattern syntax *)

(** What follows a backslash. *)
Definition parse_escape (c : ascii) : option re :=
  if Ascii.eqb c "b" then Some Bound
  else if Ascii.eqb c "s" then Some (Class CSpace)
  else if Ascii.eqb c "w" then Some (Class CWord)
  else if Ascii.eqb c "d" then Some (Class CDigit)
  else if is_alpha c || is_digit c then None
  else Some (Lit c).

(** Characters that are not literals when they stand alone. *)
Definition is_meta (c : ascii) : bool :=
  existsb (Ascii.eqb c)
    ["("; ")"; "["; "]"; "{"; "}"; "^"; "$"; "*"; "+"; "?"; "|"; "\"]%char.

(** An optional postfix quantifier. *)
Definition parse_quant (a : re) (s : list ascii) : re * list ascii :=
  match s with
  | "+"%char :: s' => (Seq a (Star a), s')
  | "*"%char :: s' => (Star a, s')
  | "?"%char :: s' => (Alt a Eps, s')
  | _ => (a, s)
  end.

(** Recursive descent over alternations, sequences and atoms; the fuel
    bounds the depth of the descent. *)
Fixpoint parse_alt (fuel : nat) (s : list ascii) : option (re * list ascii) :=
  match fuel with
  | O => None
  | S f =>
      match parse_seq f s with
      | Some (r1, "|"%char :: s') =>
          match parse_alt f s' with
          | Some (r2, s'') => Some (Alt r1 r2, s'')
          | None => None
          end
      | other => other
      end
  end
with parse_seq (fuel : nat) (s : list ascii) : option (re * list ascii) :=
  match fuel with
  | O => None
  | S f =>
      match s with
      | [] => Some (Eps, [])
      | c :: _ =>
          if Ascii.eqb c "|" || Ascii.eqb c ")" then Some (Eps, s)
          else
            match parse_atom f s with
            | Some (a, s') =>
                let '(a', s'') := parse_quant a s' in
                match parse_seq f s'' with
                | Some (r, s3) => Some (Seq a' r, s3)
                | None => None
                end
            | None => None
            end
      end
  end
with parse_atom (fuel : nat) (s : list ascii) : option (re * list ascii) :=
  match fuel with
  | O => None
  | S f =>
      match s with
      | "\"%char :: c :: s' =>
          match parse_escape c with
          | Some r => Some (r, s')
          | None => None
          end
      | "("%char :: "?"%char :: ":"%char :: s' =>
          match parse_alt f s' with
          | Some (r, ")"%char :: s'') => Some (r, s'')
          | _ => None
          end
      | "("%char :: "?"%char :: "!"%char :: s' =>
          match parse_alt f s' with
          | Some (r, ")"%char :: s'') => Some (NegLook r, s'')
          | _ => None
          end
      | "."%char :: s' => Some (Class CAny, s')
      | c :: s' => if is_meta c then None else Some (Lit c, s')
      | [] => None
      end
  end.

(** [re.compile]: [None] stands for [re.error]. *)
Definition compile (pattern : string) : option re :=
  let s := list_ascii_of_string pattern in
  match parse_alt (2 * length s + 4) s with
  | Some (r, []) => Some r
  | _ => None
  end.

(** [re.search(pattern, text)]: whether there is a match; raises
    [re.error] on a pattern that does not compile. *)
Definition re_search (pattern text : string) : result bool :=
  match compile pattern with
  | Some r => Ok (search r text)
  | None => Raise (PyExn "re.error" pattern)
  end.

End Regex.

(** ** backend/utils/matching.py: feature extraction *)

Module Extract.
Import PyStr Regex.

Definition skill_patterns : list (string * list string) :=
  [
    ("python", ["\bpython\b"; "\bpy\b(?!\s*test)"]);
    ("javascript", ["\bjavascript\b"; "\bjs\b(?!\s*\w)"; "\bnode\.?js\b"]);
    ("java", ["\bjava\b(?!\s*script)"; "\bjdk\b"; "\bjre\b"]);
    ("typescript", ["\btypescript\b"; "\bts\b(?!\s*\w)"]);
    ("c++", ["\bc\+\+\b"; "\bcpp\b"]);
    ("c#", ["\bc#\b"; "\bc sharp\b"; "\b\.net\b"]);
    ("go", ["\bgolang\b"; "\bgo\b(?:\s+language|\s+programming)"]);
    ("rust", ["\brust\b(?:\s+language|\s+programming)"]);
    ("php", ["\bphp\b"]);
    ("ruby", ["\bruby\b(?:\s+on\s+rails|\s+programming)"]);
    ("swift", ["\bswift\b(?:\s+programming|\s+language)"]);
    ("kotlin", ["\bkotlin\b"]);
    ("scala", ["\bscala\b"]);
    ("r", ["\br\s+programming\b"; "\br\s+language\b"]);
    ("html", ["\bhtml\b"; "\bhtml5\b"]);
    ("css", ["\bcss\b"; "\bcss3\b"]);
    ("react", ["\breact\b"; "\breactjs\b"; "\breact\.js\b"]);
    ("angular", ["\bangular\b"; "\bangularjs\b"]);
    ("vue", ["\bvue\b"; "\bvue\.js\b"; "\bvuejs\b"]);
    ("svelte", ["\bsvelte\b"]);
    ("jquery", ["\bjquery\b"]);
    ("bootstrap", ["\bbootstrap\b"]);
    ("tailwind", ["\btailwind\b"; "\btailwindcss\b"]);
    ("django", ["\bdjango\b"]);
    ("flask", ["\bflask\b"]);
    ("fastapi", ["\bfastapi\b"]);
    ("express", ["\bexpress\b"; "\bexpress\.js\b"]);
    ("spring", ["\bspring\b(?:\s+boot|\s+framework)"]);
    ("laravel", ["\blaravel\b"]);
    ("rails", ["\bruby\s+on\s+rails\b"; "\brails\b"]);
    ("sql", ["\bsql\b"; "\bstructured\s+query\s+language\b"]);
    ("mysql", ["\bmysql\b"]);
    ("postgresql", ["\bpostgresql\b"; "\bpostgres\b"]);
    ("mongodb", ["\bmongodb\b"; "\bmongo\b"]);
    ("redis", ["\bredis\b"]);
    ("elasticsearch", ["\belasticsearch\b"]);
    ("sqlite", ["\bsqlite\b"]);
    ("oracle", ["\boracle\b(?:\s+database)"]);
    ("cassandra", ["\bcassandra\b"]);
    ("aws", ["\baws\b"; "\bamazon\s+web\s+services\b"]);
    ("azure", ["\bazure\b"; "\bmicrosoft\s+azure\b"]);
    ("gcp", ["\bgcp\b"; "\bgoogle\s+cloud\b"]);
    ("docker", ["\bdocker\b"]);
    ("kubernetes", ["\bkubernetes\b"; "\bk8s\b"]);
    ("jenkins", ["\bjenkins\b"]);
    ("gitlab", ["\bgitlab\b"]);
    ("github", ["\bgithub\b"]);
    ("git", ["\bgit\b(?!\s*hub)"]);
    ("terraform", ["\bterraform\b"]);
    ("ansible", ["\bansible\b"]);
    ("machine learning", ["\bmachine\s+learning\b"; "\bml\b(?:\s+engineer|\s+models)"]);
    ("deep learning", ["\bdeep\s+learning\b"; "\bdl\b(?:\s+models)"]);
    ("artificial intelligence", ["\bartificial\s+intelligence\b"; "\bai\b(?:\s+engineer|\s+models)"]);
    ("data science", ["\bdata\s+science\b"; "\bdata\s+scientist\b"]);
    ("pandas", ["\bpandas\b"]);
    ("numpy", ["\bnumpy\b"]);
    ("scikit-learn", ["\bscikit.learn\b"; "\bsklearn\b"]);
    ("tensorflow", ["\btensorflow\b"]);
    ("pytorch", ["\bpytorch\b"]);
    ("keras", ["\bkeras\b"]);
    ("matplotlib", ["\bmatplotlib\b"]);
    ("seaborn", ["\bseaborn\b"]);
    ("jupyter", ["\bjupyter\b"]);
    ("pytest", ["\bpytest\b"]);
    ("jest", ["\bjest\b"]);
    ("selenium", ["\bselenium\b"]);
    ("cypress", ["\bcypress\b"]);
    ("unit testing", ["\bunit\s+test\b"; "\bunittest\b"]);
    ("graphql", ["\bgraphql\b"]);
    ("rest api", ["\brest\b"; "\brestful\b"; "\brest\s+api\b"]);
    ("microservices", ["\bmicroservices\b"]);
    ("linux", ["\blinux\b"; "\bunix\b"]);
    ("bash", ["\bbash\b"; "\bshell\s+script\b"]);
    ("agile", ["\bagile\b"; "\bscrum\b"]);
    ("jira", ["\bjira\b"]);
    ("confluence", ["\bconfluence\b"]) ].

Definition benefit_patterns : list (string * list string) :=
  [
    ("health insurance", ["\bhealth\s+insurance\b"; "\bmedical\s+coverage\b"]);
    ("dental insurance", ["\bdental\s+insurance\b"; "\bdental\s+coverage\b"]);
    ("vision insurance", ["\bvision\s+insurance\b"; "\bvision\s+coverage\b"]);
    ("retirement plan", ["\b401k\b"; "\bretirement\s+plan\b"; "\bpension\b"]);
    ("paid time off", ["\bpto\b"; "\bpaid\s+time\s+off\b"; "\bvacation\s+days\b"]);
    ("flexible hours", ["\bflexible\s+hours\b"; "\bflexible\s+schedule\b"]);
    ("remote work", ["\bremote\s+work\b"; "\bwork\s+from\s+home\b"; "\bwfh\b"]);
    ("stock options", ["\bstock\s+options\b"; "\bequity\b"; "\brsus\b"]);
    ("bonus", ["\bbonus\b"; "\bperformance\s+bonus\b"]);
    ("gym membership", ["\bgym\s+membership\b"; "\bfitness\s+center\b"]);
    ("food allowance", ["\bfree\s+food\b"; "\bmeals\s+provided\b"; "\bfood\s+allowance\b"]);
    ("learning budget", ["\blearning\s+budget\b"; "\btraining\s+budget\b"; "\bprofessional\s+development\b"]);
    ("conference attendance", ["\bconference\s+attendance\b"; "\btech\s+conferences\b"]) ].

Definition size_patterns : list (string * list string) :=
  [
    ("startup", ["\bstartup\b"; "\bearly\s+stage\b"; "\b1-10\s+employees\b"]);
    ("small", ["\bsmall\s+company\b"; "\b11-50\s+employees\b"; "\b10-50\s+employees\b"]);
    ("medium", ["\bmedium\s+company\b"; "\b51-200\s+employees\b"; "\b50-200\s+employees\b"]);
    ("large", ["\blarge\s+company\b"; "\b201-1000\s+employees\b"; "\b200-1000\s+employees\b"]);
    ("enterprise", ["\benterprise\b"; "\b1000\+\s+employees\b"; "\bfortune\s+500\b"]) ].

(** The inner loop [for pattern in patterns: if re.search(pattern, text):
    ...; break]: whether some pattern matches, trying them in order and
    stopping at the first match. *)
Fixpoint any_pattern (patterns : list string) (text : string) : result bool :=
  match patterns with
  | [] => Ok false
  | pattern :: rest =>
      let* hit := re_search pattern text in
      if hit then Ok true else any_pattern rest text
  end.

(** The outer loop over a catalog, appending each entry that matches. *)
Fixpoint scan_catalog (catalog : list (string * list string)) (text : string)
    (found : list string) : result (list string) :=
  match catalog with
  | [] => Ok found
  | (name, patterns) :: rest =>
      let* hit := any_pattern patterns text in
      scan_catalog rest text (if hit then found ++ [name] else found)
  end.

(** [not text]: [None] and the empty string are falsy. *)
Definition falsy (text : option string) : bool :=
  match text with
  | None | Some EmptyString => true
  | Some _ => false
  end.

Definition text_of (text : option string) : string :=
  match text with Some t => t | None => "" end.

(** [list(set(found_skills))]; the order is that of the set. *)
Definition list_of_set (l : list string) : list string :=
  elements (list_to_set l : gset string).

(** [extract_skills_from_job_text(text)] *)
Definition extract_skills_from_job_text (text : option string)
    : result (list string) :=
  if falsy text then Ok []
  else
    let text := lower (text_of text) in
    let* found_skills := scan_catalog skill_patterns text [] in
    Ok (list_of_set found_skills).

(** [extract_benefits_from_text(text)] *)
Definition extract_benefits_from_text (text : option string)
    : result (list string) :=
  if falsy text then Ok []
  else
    let text := lower (text_of text) in
    scan_catalog benefit_patterns text [].

(** The loop of [extract_company_size_from_text]: the first size one of
    whose patterns matches. *)
Fixpoint first_size (catalog : list (string * list string)) (text : string)
    : result (option string) :=
  match catalog with
  | [] => Ok None
  | (size, patterns) :: rest =>
      let* hit := any_pattern patterns text in
      if hit then Ok (Some size) else first_size rest text
  end.

(** [extract_company_size_from_text(text)] *)
Definition extract_company_size_from_text (text : option string)
    : result (option string) :=
  if falsy text then Ok None
  else
    let text := lower (text_of text) in
    first_size size_patterns text.

End Extract.

(** ** The deduplicators of the two scrapers *)

Module Dedup.
Import PyStr.

(** The loop shared by both [_remove_duplicates]: [seen] is the set of keys
    met so far, [unique_jobs] the jobs kept so far. *)
Fixpoint dedup_loop {A} (key : A -> string) (jobs : list A)
    (seen : gset string) (unique_jobs : list A) : list A :=
  match jobs with
  | [] => unique_jobs
  | job :: rest =>
      let k := key job in
      if bool_decide (k ∈ seen) then dedup_loop key rest seen unique_jobs
      else dedup_loop key rest ({[k]} ∪ seen) (unique_jobs ++ [job])
  end.

End Dedup.

(** backend/agents/scraper_agent.py: jobs are dicts. *)
Module ScraperAgent.
Import PyStr.

(** [job.get(field, '')] *)
Definition get (job : gmap string string) (field : string) : string :=
  default "" (job !! field).

(** [f"{job.get('title', '').lower()}_{job.get('company', '').lower()}"] *)
Definition job_key (job : gmap string string) : string :=
  lower (get job "title") +:+ "_" +:+ lower (get job "company").

Definition _remove_duplicates (jobs : list (gmap string string))
    : list (gmap string string) :=
  Dedup.dedup_loop job_key jobs ∅ [].

End ScraperAgent.

(** backend/agents/simple_scraper_agent.py: jobs are [JobListing]s. *)
Module SimpleScraperAgent.
Import PyStr.

Record JobListing := {
  title : string;
  company : string;
  location : string;
  description : string;
  url : string;
  salary : option string;
  date_posted : option string;
  job_type : option string;
  experience : option string;
  skills : option (list string)
}.

(** [f"{job.title.lower().strip()}|{job.company.lower().strip()}"] *)
Definition job_key (job : JobListing) : string :=
  strip (lower (title job)) +:+ "|" +:+ strip (lower (company job)).

Definition _remove_duplicates (jobs : list JobListing) : list JobListing :=
  Dedup.dedup_loop job_key jobs ∅ [].

End SimpleScraperAgent.

(** ** backend/agents/autoapply_agent.py: the application dispatcher *)

Module AutoApply.

(** [self.browser]: [None], the marker ["http_session"], or a browser. *)
Inductive browser_state := NoBrowser | HttpSession | PlaywrightBrowser.

Record agent := Agent {
  browser : browser_state;
  applications_today : Z;
  max_applications_per_day : Z
}.

(** A result dict: the two keys the dispatcher reads, and the others. *)
Record application_result := AppResult {
  job_id : Z;
  success : bool;
  fields : list (string * string)
}.

(** What the database and the submission answer for one task:
    [_get_job_details] finds the job or not, and [_apply_to_job] returns a
    result dict or raises. *)
Inductive job_answer :=
| JobNotFound
| JobFound (submission : result application_result).

Definition task : Type := Z * job_answer.

(** What the other awaited collaborators answer during one dispatch:
    [_get_user_profile] returns the profile, [None] for an unknown user, or
    raises what the database raises. *)
Record collaborators := Collab {
  user_profile : result (option string);
  log_start : result unit;
  log_complete : result unit
}.

(** The collaborator calls a dispatch makes, in order. *)
Inductive call :=
| CGetProfile (user_id : Z)
| CLog (action : string)
| CGetJob (job : Z)
| CApply (job : Z)
| CRecord (user_id job : Z)
| CDelay.

(** [_check_existing_application]: a stub that answers [False]. *)
Definition _check_existing_application (user_id job : Z) : bool := false.


(** [str(n)] for an integer. *)
Definition str_of_int (n : Z) : string :=
  DecimalString.NilZero.string_of_int (Z.to_int n).

(** [ValueError(f"User profile not found for user_id: {user_id}")] *)
Definition profile_not_found (user_id : Z) : exn :=
  PyExn "ValueError"
        ("User profile not found for user_id: " +:+ str_of_int user_id).

(** The state the loop over [job_ids] threads. *)
Record loop_state := LoopState {
  ls_today : Z;
  ls_results : list application_result;
  ls_calls : list call
}.

(** The loop [for job_id in job_ids] with its [break] and [continue]. *)
Fixpoint apply_loop (max_per_day user_id : Z) (tasks : list task)
    (st : loop_state) : loop_state :=
  match tasks with
  | [] => st
  | (job, answer) :: rest =>
      if (max_per_day <=? ls_today st)%Z then st
      else
        let calls := ls_calls st ++ [CGetJob job] in
        match answer with
        | JobNotFound =>
            apply_loop max_per_day user_id rest
              (LoopState (ls_today st) (ls_results st) calls)
        | JobFound submission =>
            if _check_existing_application user_id job then
              apply_loop max_per_day user_id rest
                (LoopState (ls_today st) (ls_results st) calls)
            else
              match submission with
              | Ok application_result =>
                  let results := ls_results st ++ [application_result] in
                  if success application_result then
                    apply_loop max_per_day user_id rest
                      (LoopState (ls_today st + 1) results
                         (calls ++ [CApply job; CRecord user_id job; CDelay]))
                  else
                    apply_loop max_per_day user_id rest
                      (LoopState (ls_today st) results
                         (calls ++ [CApply job; CDelay]))
              | Raise e =>
                  apply_loop max_per_day user_id rest
                    (LoopState (ls_today st)
                       (ls_results st ++
                          [AppResult job false
                             [("error", exn_msg e); ("method", "unknown")]])
                       (calls ++ [CApply job]))
              end
        end
  end.

(** What a dispatch leaves behind: the agent, the calls made, and the
    returned list or the exception. *)
Record dispatch := Dispatched {
  d_agent : agent;
  d_calls : list call;
  d_return : result (list application_result)
}.

(** [auto_apply_to_jobs(user_id, job_ids)] *)
Definition auto_apply_to_jobs (a : agent) (user_id : Z) (c : collaborators)
    (tasks : list task) : dispatch :=
  match browser a with
  | NoBrowser =>
      Dispatched a []
        (Ok (map (fun t : task =>
                    AppResult (fst t) false
                      [("status", "failed");
                       ("reason", "Auto-apply not available")]) tasks))
  | _ =>
      if (max_applications_per_day a <=? applications_today a)%Z then
        Dispatched a [] (Ok [])
      else
        match user_profile c with
        | Raise e => Dispatched a [CGetProfile user_id] (Raise e)
        | Ok None =>
            Dispatched a [CGetProfile user_id] (Raise (profile_not_found user_id))
        | Ok (Some _) =>
            let calls := [CGetProfile user_id; CLog "auto_apply_start"] in
            match log_start c with
            | Raise e => Dispatched a calls (Raise e)
            | Ok _ =>
                let st := apply_loop (max_applications_per_day a) user_id
                            tasks (LoopState (applications_today a) [] calls) in
                let a' := Agent (browser a) (ls_today st)
                            (max_applications_per_day a) in
                let calls' := ls_calls st ++ [CLog "auto_apply_complete"] in
                match log_complete c with
                | Raise e => Dispatched a' calls' (Raise e)
                | Ok _ => Dispatched a' calls' (Ok (ls_results st))
                end
            end
        end
  end.


(** *** Dispatches over several days

    The agent keeps no date.  To speak of local days the history below
    carries the calendar beside the agent: [Midnight] is a day boundary,
    and every [_record_application] call is booked on the day it is made,
    which gives the true count of a day. *)
Inductive event :=
| Dispatch (user_id : Z) (c : collaborators) (tasks : list task)
| Midnight.

Record world := World {
  w_agent : agent;
  w_day : nat;
  w_booked : list (nat * Z)
}.

Definition recorded (day : nat) (calls : list call) : list (nat * Z) :=
  omap (fun c => match c with CRecord _ job => Some (day, job) | _ => None end)
       calls.

Definition run_event (w : world) (e : event) : world :=
  match e with
  | Midnight => World (w_agent w) (S (w_day w)) (w_booked w)
  | Dispatch user_id c tasks =>
      let d := auto_apply_to_jobs (w_agent w) user_id c tasks in
      World (d_agent d) (w_day w)
            (w_booked w ++ recorded (w_day w) (d_calls d))
  end.

Definition run_events (w : world) (es : list event) : world :=
  fold_left run_event es w.


End AutoApply.

(** ** backend/agents/supervisor_agent.py: the workflow orchestrator *)

Module Supervisor.

(** A configuration value. *)
Inductive value :=
| VBool (b : bool)
| VInt (z : Z)
| VNum (q : Q)
| VStr (s : string).

(** Python truthiness of a value. *)
Definition truthy (v : value) : bool :=
  match v with
  | VBool b => b
  | VInt z => negb (z =? 0)%Z
  | VNum q => negb (Qeq_bool q 0)
  | VStr s => negb (String.eqb s "")
  end.

Record supervisor := Sup {
  auto_mode_enabled : bool;
  last_scraping_time : option Z;
  workflow_running : bool;
  config : gmap string value
}.

(** [self.config] as [__init__] sets it. *)
Definition default_config : gmap string value :=
  list_to_map
    [ ("scraping_interval_hours", VInt 24);
      ("scoring_threshold", VNum (7 # 10));
      ("max_auto_applications", VInt 5);
      ("auto_apply_enabled", VBool false);
      ("follow_up_interval_days", VInt 7) ].

Definition new_supervisor : supervisor := Sup false None false default_config.

(** *** [update_configuration] *)

Definition valid_keys : gset string :=
  list_to_set
    [ "scraping_interval_hours"; "scoring_threshold"; "max_auto_applications";
      "auto_apply_enabled"; "follow_up_interval_days" ].

Inductive update_response :=
| UpdateOk (message : string) (cfg : gmap string value)
| UpdateInvalidKeys (invalid_keys : gset string)
| UpdateError (e : exn).

(** [{'success': ...}] of a response. *)
Definition update_success (r : update_response) : bool :=
  match r with UpdateOk _ _ => true | _ => false end.

(** [update_configuration(config_updates)]; [log] is the answer of
    [database.log_system_activity].  [dict.update] is the union in which
    the entries of [config_updates] win. *)
Definition update_configuration (s : supervisor)
    (config_updates : gmap string value) (log : result unit)
    : supervisor * update_response :=
  let invalid_keys := dom config_updates ∖ valid_keys in
  if bool_decide (invalid_keys = ∅) then
    let s' := Sup (auto_mode_enabled s) (last_scraping_time s)
                  (workflow_running s) (config_updates ∪ config s) in
    match log with
    | Ok _ => (s', UpdateOk "Configuration updated successfully" (config s'))
    | Raise e => (s', UpdateError e)
    end
  else (s, UpdateInvalidKeys invalid_keys).

(** *** [trigger_job_search] as a machine

    A call of the coroutine runs without interruption from one [await] to
    the next.  The machine keeps the calls that are suspended at an
    [await] inside the [try] block; an event is the arrival of a call or
    the answer that lets a suspended call run on. *)

(** The dict a phase returns; every phase catches its exceptions. *)
Record phase_result := Phase {
  ph_success : bool;
  ph_fields : list (string * Z)
}.

(** Where a suspended call waits. *)
Inductive pc :=
| AtLogStart
| AtScraping
| AtScoring
| AtTracking
| AtLogComplete
| AtLogError (e : exn).

Record run := Run {
  r_id : nat;
  r_pc : pc;
  r_scraping : option phase_result;
  r_scoring : option phase_result;
  r_autoapply : option phase_result;
  r_tracking : option phase_result
}.

Record machine := Machine {
  m_sup : supervisor;
  m_runs : list run
}.

Inductive answer :=
| ALog (r : result unit)
| AScrape (r : result Z) (utcnow : Z)
| APhase (r : phase_result).

Inductive event :=
| Trigger (id : nat)
| Resume (id : nat) (a : answer).

Inductive response :=
| Busy
| Completed (scraping scoring : option phase_result)
            (autoapply tracking : option phase_result)
| Failed (error : string)
| Propagated (e : exn).

(** [_execute_autoapply_phase] with its empty [top_job_ids]: it returns
    before any [await]. *)
Definition autoapply_phase_result : phase_result :=
  Phase true [("applications_sent", 0%Z)].

Definition set_running (s : supervisor) (b : bool) : supervisor :=
  Sup (auto_mode_enabled s) (last_scraping_time s) b (config s).

Definition set_last_scraping (s : supervisor) (t : Z) : supervisor :=
  Sup (auto_mode_enabled s) (Some t) (workflow_running s) (config s).

Definition find_run (id : nat) (runs : list run) : option run :=
  find (fun r => Nat.eqb (r_id r) id) runs.

Definition drop_run (id : nat) (runs : list run) : list run :=
  List.filter (fun r => negb (Nat.eqb (r_id r) id)) runs.

Definition put_run (r : run) (runs : list run) : list run :=
  map (fun r' => if Nat.eqb (r_id r') (r_id r) then r else r') runs.

Definition at_pc (r : run) (p : pc) : run :=
  Run (r_id r) p (r_scraping r) (r_scoring r) (r_autoapply r) (r_tracking r).

(** The call returns or raises: the [finally] clause clears the flag. *)
Definition finish (m : machine) (r : run) (resp : response)
    : machine * option (nat * response) :=
  (Machine (set_running (m_sup m) false) (drop_run (r_id r) (m_runs m)),
   Some (r_id r, resp)).

Definition suspend (m : machine) (s : supervisor) (r : run)
    : machine * option (nat * response) :=
  (Machine s (put_run r (m_runs m)), None).

(** A suspended call runs on with the answer it awaited. *)
Definition resume (m : machine) (r : run) (a : answer)
    : machine * option (nat * response) :=
  let s := m_sup m in
  match r_pc r, a with
  | AtLogStart, ALog (Ok _) => suspend m s (at_pc r AtScraping)
  | AtLogStart, ALog (Raise e) => suspend m s (at_pc r (AtLogError e))
  | AtScraping, AScrape (Ok jobs_found) utcnow =>
      suspend m (set_last_scraping s utcnow)
        (Run (r_id r) AtScoring (Some (Phase true [("jobs_found", jobs_found)]))
             None None None)
  | AtScraping, AScrape (Raise _) _ =>
      suspend m s
        (Run (r_id r) AtScoring (Some (Phase false [("jobs_found", 0%Z)]))
             None None None)
  | AtScoring, APhase scoring =>
      let autoapply :=
        if truthy (default (VBool false) (config s !! "auto_apply_enabled"))
        then Some autoapply_phase_result else None in
      suspend m s
        (Run (r_id r) AtTracking (r_scraping r) (Some scoring) autoapply None)
  | AtTracking, APhase tracking =>
      suspend m s
        (Run (r_id r) AtLogComplete (r_scraping r) (r_scoring r)
             (r_autoapply r) (Some tracking))
  | AtLogComplete, ALog (Ok _) =>
      finish m r
        (Completed (r_scraping r) (r_scoring r) (r_autoapply r) (r_tracking r))
  | AtLogComplete, ALog (Raise e) => suspend m s (at_pc r (AtLogError e))
  | AtLogError e, ALog (Ok _) => finish m r (Failed (exn_msg e))
  | AtLogError _, ALog (Raise e') => finish m r (Propagated e')
  | _, _ => (m, None)
  end.

(** One event.  The test of [workflow_running] and its setting are in one
    uninterrupted stretch of [trigger_job_search]. *)
Definition step (m : machine) (e : event) : machine * option (nat * response) :=
  match e with
  | Trigger id =>
      if workflow_running (m_sup m) then (m, Some (id, Busy))
      else
        (Machine (set_running (m_sup m) true)
                 (m_runs m ++ [Run id AtLogStart None None None None]),
         None)
  | Resume id a =>
      match find_run id (m_runs m) with
      | Some r => resume m r a
      | None => (m, None)
      end
  end.

Definition exec (m : machine) (es : list event) : machine :=
  fold_left (fun m e => fst (step m e)) es m.

(** The calls that are running: suspended inside the [try] block. *)
Definition running (m : machine) : list nat := map r_id (m_runs m).

End Supervisor.

(** ** backend/agents/simple_supervisor_agent.py: the result cache *)

Module SimpleSupervisor.
Import PyStr SimpleScraperAgent.

(** The keys of [search_params] the cache key reads, and the rest. *)
Record search_params := Params {
  sp_keywords : option string;
  sp_location : option string;
  sp_max_results : option Z;
  sp_other : list (string * string)
}.

(** [str(n)] for an int. *)
Definition str_of_int (n : Z) : string :=
  DecimalString.NilZero.string_of_int (Z.to_int n).

(** [_create_cache_key(search_params)] *)
Definition _create_cache_key (p : search_params) : string :=
  let key_parts :=
    [ strip (lower (default "" (sp_keywords p)));
      strip (lower (default "" (sp_location p)));
      str_of_int (default 50%Z (sp_max_results p)) ] in
  join "|" key_parts.

(** The payload of a successful search.  A timestamp is a naive local
    [datetime], counted in microseconds. *)
Record search_result := SearchResult {
  sr_search_params : search_params;
  sr_jobs : list JobListing;
  sr_total_found : nat;
  sr_saved_to_db : nat;
  sr_duration : Z;
  sr_timestamp : Z;
  sr_cache_key : string
}.

Inductive search_response :=
| SearchOk (r : search_result)
| SearchFailed (error : string) (p : search_params) (timestamp : Z).

Record supervisor := Sup {
  search_results_cache : gmap string search_result;
  max_cache_age : Z;
  last_search_time : option Z
}.

(** [timedelta(hours=1)] *)
Definition one_hour : Z := 3600 * 1000000.

Definition new_supervisor : supervisor := Sup ∅ one_hour None.

(** [_is_cache_valid(cache_key)] when [datetime.now()] reads [now]. *)
Definition _is_cache_valid (s : supervisor) (cache_key : string) (now : Z)
    : bool :=
  match search_results_cache s !! cache_key with
  | None => false
  | Some cached_result =>
      let cached_time := sr_timestamp cached_result in
      (now - cached_time <? max_cache_age s)%Z
  end.

(** The successive readings of [datetime.now()] during one call. *)
Record clock := Clock {
  now_check : Z;
  now_start : Z;
  now_end : Z;
  now_stamp : Z;
  now_last : Z;
  now_error : Z
}.

(** A job of the response: [job.skills or []]. *)
Definition response_job (job : JobListing) : JobListing :=
  {| title := title job; company := company job; location := location job;
     description := description job; url := url job; salary := salary job;
     date_posted := date_posted job; job_type := job_type job;
     experience := experience job;
     skills := Some (default [] (skills job)) |}.

(** What a call leaves behind: the supervisor, the response, and the
    number of calls made to [scraper_agent.scrape_jobs]. *)
Record outcome := Outcome {
  o_sup : supervisor;
  o_response : search_response;
  o_scrapes : nat
}.

(** [trigger_job_search(search_params)]; [scrape] is the answer of
    [scraper_agent.scrape_jobs] and [save] that of [database.save_jobs]
    (the number of saved jobs), were they called. *)
Definition trigger_job_search (s : supervisor) (p : search_params)
    (clk : clock) (scrape : result (list JobListing)) (save : result nat)
    : outcome :=
  let cache_key := _create_cache_key p in
  if _is_cache_valid s cache_key (now_check clk) then
    match search_results_cache s !! cache_key with
    | Some cached => Outcome s (SearchOk cached) 0
    | None =>
        Outcome s (SearchFailed "KeyError" p (now_error clk)) 0
    end
  else
    match scrape with
    | Raise e => Outcome s (SearchFailed (exn_msg e) p (now_error clk)) 1
    | Ok jobs =>
        let search_duration := (now_end clk - now_start clk)%Z in
        let saved_jobs :=
          match jobs with
          | [] => 0%nat
          | _ => match save with Ok n => n | Raise _ => 0%nat end
          end in
        let response_jobs := map response_job jobs in
        let result :=
          SearchResult p response_jobs (length response_jobs) saved_jobs
                       search_duration (now_stamp clk) cache_key in
        Outcome (Sup (<[cache_key := result]> (search_results_cache s))
                     (max_cache_age s) (Some (now_last clk)))
                (SearchOk result) 1
    end.

End SimpleSupervisor.

(** * Vocabulary of the properties *)

(** ** The matcher *)

Module MatchingSpec.
Import PyStr Matching.

(** How the loop of [calculate_skill_match] files a required skill. *)
Inductive skill_class := Exact | Partial | Missing.

#[global] Instance skill_class_eq_dec : EqDecision skill_class.
Proof. solve_decision. Defined.

(** The class of [req_skill] against the lower-cased user skills: exact
    membership first, then a non-empty partial match. *)
Definition class_of (user_skills_lower : list string) (req_skill : string)
    : skill_class :=
  if mem (lower req_skill) user_skills_lower then Exact
  else
    match find_partial_skill_match (lower req_skill) user_skills_lower with
    | Some (String _ _) => Partial
    | _ => Missing
    end.

(** The required skill has the given class. *)
Definition of_class (user_skills_lower : list string) (c : skill_class)
    (req_skill : string) : bool :=
  bool_decide (class_of user_skills_lower req_skill = c).

(** The class against the user skills as given. *)
Definition classify (user_skills : list string) (req_skill : string)
    : skill_class :=
  class_of (map lower user_skills) req_skill.

Definition has_class (user_skills : list string) (c : skill_class)
    (req_skill : string) : bool :=
  bool_decide (classify user_skills req_skill = c).

(** The weight of a class in the score. *)
Definition weight (c : skill_class) : Q :=
  match c with
  | Exact => 1
  | Partial => 1 # 2
  | Missing => 0
  end.

(** The sum of the weights of the required skills. *)
Fixpoint weight_sum (user_skills required_skills : list string) : Q :=
  match required_skills with
  | [] => 0
  | x :: rest => weight (classify user_skills x) + weight_sum user_skills rest
  end.

(** The required skills of the partial matches. *)
Definition partial_required (m : skill_match) : list string :=
  map required_skill (partial_matches m).

(** The score the specification speaks of, from the lengths of the lists
    of a result: [(exact * 1.0 + partial * 0.5) / max(required, 1)]. *)
Definition score_of (m : skill_match) (required_count : nat) : Q :=
  (Qlen (exact_matches m) * 1 + Qlen (partial_matches m) * (1 # 2))
  / inject_Z (Z.of_nat (Nat.max required_count 1)).

End MatchingSpec.

(** ** Feature extraction *)

Module ExtractSpec.
Import Regex Extract.

(** The pattern compiles: [re.search] does not raise [re.error] on it. *)
Definition compilable (pattern : string) : bool :=
  match compile pattern with Some _ => true | None => false end.

(** Every pattern of a catalog compiles. *)
Definition catalog_compiles (catalog : list (string * list string)) : bool :=
  forallb (fun entry => forallb compilable (snd entry)) catalog.

End ExtractSpec.

(** ** Deduplication *)

Module DedupSpec.

(** The jobs kept out of [jobs] when [pre] are the jobs before them: a job is
    kept exactly when no job before it has its key. *)
Fixpoint keep_first_from {A} (key : A -> string) (pre jobs : list A) : list A :=
  match jobs with
  | [] => []
  | job :: rest =>
      (if bool_decide (key job ∈ map key pre) then [] else [job])
      ++ keep_first_from key (pre ++ [job]) rest
  end.

(** The first occurrence of each key, in the order of the input. *)
Definition keep_first {A} (key : A -> string) (jobs : list A) : list A :=
  keep_first_from key [] jobs.

(** The identity key of the specification: the lower-cased, trimmed title
    and the lower-cased, trimmed company. *)
Definition identity_key (title company : string) : string * string :=
  (PyStr.strip (PyStr.lower title), PyStr.strip (PyStr.lower company)).

(** A [JobListing] with the given title and company. *)
Definition listing (t c : string) : SimpleScraperAgent.JobListing :=
  {| SimpleScraperAgent.title := t; SimpleScraperAgent.company := c;
     SimpleScraperAgent.location := ""; SimpleScraperAgent.description := "";
     SimpleScraperAgent.url := ""; SimpleScraperAgent.salary := None;
     SimpleScraperAgent.date_posted := None;
     SimpleScraperAgent.job_type := None;
     SimpleScraperAgent.experience := None;
     SimpleScraperAgent.skills := None |}.

(** A job dict with the given title and company. *)
Definition job_dict (t c : string) : gmap string string :=
  {[ "title" := t; "company" := c ]}.

End DedupSpec.

(** ** The dispatcher *)

Module AutoApplySpec.
Import AutoApply.

(** The failed result the loop appends when a submission raises. *)
Definition failure_of (job : Z) (e : exn) : application_result :=
  AppResult job false [("error", exn_msg e); ("method", "unknown")].

(** The result a processed task contributes, from its own answer alone:
    none for a job that is not found, the result of the submission, or a
    failed result when the submission raises. *)
Definition result_of_task (t : task) : option application_result :=
  match snd t with
  | JobNotFound => None
  | JobFound (Ok r) => Some r
  | JobFound (Raise e) => Some (failure_of (fst t) e)
  end.

(** The submission of the task succeeds. *)
Definition task_success (t : task) : bool :=
  match snd t with
  | JobFound (Ok r) => success r
  | _ => false
  end.

(** The number of successful submissions among the tasks. *)
Definition successes (tasks : list task) : Z :=
  Z.of_nat (length (List.filter task_success tasks)).

(** The number of tasks the loop processes before the quota stops it. *)
Fixpoint processed (max_per_day today : Z) (tasks : list task) : nat :=
  match tasks with
  | [] => 0
  | t :: rest =>
      if (max_per_day <=? today)%Z then 0
      else S (processed max_per_day
                (if task_success t then today + 1 else today)%Z rest)
  end.

(** The calls the loop makes for one processed task. *)
Definition calls_of_task (user_id : Z) (t : task) : list call :=
  match snd t with
  | JobNotFound => [CGetJob (fst t)]
  | JobFound (Ok r) =>
      if success r
      then [CGetJob (fst t); CApply (fst t); CRecord user_id (fst t); CDelay]
      else [CGetJob (fst t); CApply (fst t); CDelay]
  | JobFound (Raise _) => [CGetJob (fst t); CApply (fst t)]
  end.

(** The state after one processed task. *)
Definition after_task (user_id : Z) (st : loop_state) (t : task) : loop_state :=
  LoopState (if task_success t then (ls_today st + 1)%Z else ls_today st)
            (ls_results st ++ option_list (result_of_task t))
            (ls_calls st ++ calls_of_task user_id t).

(** The job of a task is found. *)
Definition job_found (t : task) : bool :=
  match snd t with JobNotFound => false | JobFound _ => true end.

(** The number of successful results in a returned list. *)
Definition successful (results : list application_result) : Z :=
  Z.of_nat (length (List.filter success results)).


(** The agent is ready to dispatch: a browser or session, a profile, and a
    database that logs. *)
Definition ready (a : agent) (c : collaborators) : Prop :=
  browser a <> NoBrowser /\ (exists profile, user_profile c = Ok (Some profile))
  /\ log_start c = Ok tt /\ log_complete c = Ok tt.

End AutoApplySpec.

(** ** The orchestrator *)

Module WorkflowSpec.
Import Supervisor.

(** The flag is set exactly while one call is suspended in the [try] block,
    and no second call is. *)
Definition exclusive (m : machine) : Prop :=
  (workflow_running (m_sup m) = true /\ exists r, m_runs m = [r])
  \/ (workflow_running (m_sup m) = false /\ m_runs m = []).

(** What a suspended call [r] may do when it runs on: suspend again, the
    flag still set, or end, the flag cleared; it never answers busy. *)
Definition runs_on (r : run) (res : machine * option (nat * response)) : Prop :=
  (snd res = None /\ workflow_running (m_sup (fst res)) = true
   /\ exists r', m_runs (fst res) = [r'] /\ r_id r' = r_id r)
  \/ (exists resp, snd res = Some (r_id r, resp) /\ resp <> Busy
      /\ workflow_running (m_sup (fst res)) = false
      /\ m_runs (fst res) = []).

(** The answer is of the kind the call awaits at [p]: the database for a
    log entry, the scraper for the scraping phase, a phase for its dict. *)
Definition awaited (p : pc) (a : answer) : bool :=
  match p, a with
  | AtLogStart, ALog _ | AtLogComplete, ALog _ | AtLogError _, ALog _ => true
  | AtScraping, AScrape _ _ => true
  | AtScoring, APhase _ | AtTracking, APhase _ => true
  | _, _ => false
  end.

(** The most [await]s a call suspended at [p] still has before it. *)
Definition awaits_left (p : pc) : nat :=
  match p with
  | AtLogStart => 6
  | AtScraping => 5
  | AtScoring => 4
  | AtTracking => 3
  | AtLogComplete => 2
  | AtLogError _ => 1
  end.

(** The running call runs on as its collaborators answer, [env] giving the
    answer to each [await], until it ends or [fuel] answers are spent. *)
Fixpoint run_on (fuel : nat) (env : pc -> answer) (m : machine)
    : machine * option (nat * response) :=
  match fuel with
  | O => (m, None)
  | S fuel' =>
      match m_runs m with
      | [] => (m, None)
      | r :: _ =>
          match step m (Resume (r_id r) (env (r_pc r))) with
          | (m', None) => run_on fuel' env m'
          | ended => ended
          end
      end
  end.

End WorkflowSpec.

(** ** The result cache *)

Module CacheSpec.
Import PyStr SimpleSupervisor.

(** The normalized query: lower-cased, trimmed keywords and location, and
    the requested result count. *)
Definition normalized_query (p : search_params) : string * string * Z :=
  (strip (lower (default "" (sp_keywords p))),
   strip (lower (default "" (sp_location p))),
   default 50%Z (sp_max_results p)).

(** The age of a cached entry when the clock reads [now]. *)
Definition age (now : Z) (cached : search_result) : Z :=
  (now - sr_timestamp cached)%Z.

End CacheSpec.

(** * More of the code *)

(** ** backend/utils/matching.py: location similarity *)

Module Location.
Import PyStr.

(** [s.split(sep)] for a separator of one character: the pieces between the
    occurrences of [sep], the empty ones included. *)
Fixpoint split_on (sep : ascii) (s : string) : list string :=
  match s with
  | EmptyString => [EmptyString]
  | String c s' =>
      if Ascii.eqb c sep then EmptyString :: split_on sep s'
      else
        match split_on sep s' with
        | p :: ps => String c p :: ps
        | [] => [String c EmptyString]
        end
  end.

(** [sep in s] for a separator of one character. *)
Definition has_char (sep : ascii) (s : string) : bool :=
  contains s (String sep EmptyString).

(** The two nested loops over the stripped parts: some part of [parts1]
    equals some part of [parts2] and is longer than two characters. *)
Definition shared_part (parts1 parts2 : list string) : bool :=
  existsb (fun part1 =>
             existsb (fun part2 =>
                        String.eqb part1 part2
                        && (2 <? String.length part1)%nat) parts2) parts1.

(** The loop over the separators, which returns at the first separator that
    both locations have and that gives a shared part. *)
Fixpoint separator_loop (separators : list ascii) (loc1 loc2 : string)
    : option Q :=
  match separators with
  | [] => None
  | sep :: rest =>
      if has_char sep loc1 && has_char sep loc2
         && shared_part (map strip (split_on sep loc1))
                        (map strip (split_on sep loc2))
      then Some (6 # 10)
      else separator_loop rest loc1 loc2
  end.

Definition separators : list ascii := [","; "-"; "/"; "|"]%char.

(** [calculate_location_similarity(location1, location2)] *)
Definition calculate_location_similarity (location1 location2 : option string)
    : Q :=
  if Extract.falsy location1 || Extract.falsy location2 then 0%Q
  else
    let loc1 := strip (lower (Extract.text_of location1)) in
    let loc2 := strip (lower (Extract.text_of location2)) in
    if String.eqb loc1 loc2 then 1%Q
    else if contains loc2 loc1 || contains loc1 loc2 then (8 # 10)%Q
    else default 0%Q (separator_loop separators loc1 loc2).

End Location.

(** ** backend/agents/autoapply_agent.py: choosing and running a method *)

Module ApplyMethod.
Import PyStr AutoApply.

(** The attributes of a job row the dispatcher reads; [apply_url] may be
    null. *)
Record job := Job {
  id : Z;
  source : string;
  apply_url : option string;
  title : string;
  company : string
}.

(** ['mailto:' in apply_url]; a null URL raises [TypeError]. *)
Definition mailto_in (url : option string) : result bool :=
  match url with
  | Some u => Ok (contains u "mailto:")
  | None =>
      Raise (PyExn "TypeError" "argument of type 'NoneType' is not iterable")
  end.

(** The truth value of [apply_url]. *)
Definition url_given (url : option string) : bool :=
  match url with
  | Some (String _ _) => true
  | _ => false
  end.

(** [_determine_application_method(job)] *)
Definition _determine_application_method (b : browser_state) (j : job)
    : result string :=
  match b with
  | HttpSession =>
      let* is_mail := mailto_in (apply_url j) in
      Ok (if is_mail then "email" else "http_form")
  | _ =>
      if mem (source j) ["linkedin"; "indeed"; "internshala"] then Ok (source j)
      else
        let* is_mail := mailto_in (apply_url j) in
        if is_mail then Ok "email"
        else if url_given (apply_url j) then Ok "form"
        else Ok "manual"
  end.

Definition failed (j : job) (error method : string)
    (more : list (string * string)) : application_result :=
  AppResult (id j) false ([("error", error); ("method", method)] ++ more).

(** [_apply_http_form(user_profile, job, cover_letter)]; [get] is the
    status code [self.session.get(apply_url)] answers, or its exception. *)
Definition _apply_http_form (j : job) (get : result Z) : application_result :=
  match apply_url j with
  | Some (String _ _ as url) =>
      if contains url "mailto:" then
        failed j "No valid application URL found" "http_form" []
      else
        match get with
        | Raise e =>
            failed j ("HTTP request failed: " +:+ exn_msg e) "http_form" []
        | Ok status_code =>
            if negb (status_code =? 200)%Z then
              failed j ("Failed to access application page: "
                        +:+ SimpleSupervisor.str_of_int status_code)
                     "http_form" []
            else if contains url "linkedin.com" then
              failed j
                "LinkedIn applications require manual login - please apply manually"
                "http_linkedin" [("manual_application_required", "True")]
            else if contains url "indeed.com" then
              failed j
                "Indeed applications require browser automation - please apply manually"
                "http_indeed" [("manual_application_required", "True")]
            else
              failed j
                "Generic form applications require manual submission - please apply manually"
                "http_generic"
                [("manual_application_required", "True");
                 ("message",
                  "Please visit the application URL to apply: " +:+ url)]
        end
  | _ => failed j "No valid application URL found" "http_form" []
  end.

(** [s.replace(old, '')]: the occurrences of [old] removed, left to right;
    [skip] counts the characters of an occurrence still to drop. *)
Fixpoint remove_all (old : string) (skip : nat) (s : string) : string :=
  match s with
  | EmptyString => EmptyString
  | String c s' =>
      match skip with
      | S k => remove_all old k s'
      | O =>
          if String.prefix old s then remove_all old (String.length old - 1) s'
          else String c (remove_all old 0 s')
      end
  end.

(** [apply_url.replace('mailto:', '').split('?')[0]] *)
Definition recipient_of (url : string) : string :=
  default "" (head (Location.split_on "?" (remove_all "mailto:" 0 url))).

(** [_apply_via_email(user_profile, job, cover_letter)]; [send] is the
    outcome of [_send_application_email]. *)
Definition _apply_via_email (j : job) (send : result unit) : application_result :=
  match apply_url j with
  | None =>
      failed j "'NoneType' object has no attribute 'startswith'" "email" []
  | Some url =>
      if negb (String.prefix "mailto:" url) then
        failed j "Not a valid email application URL" "email" []
      else
        match send with
        | Raise e => failed j (exn_msg e) "email" []
        | Ok _ =>
            AppResult (id j) true
              [("method", "email");
               ("message",
                "Application sent via email to " +:+ recipient_of url)]
        end
  end.

(** [_apply_internshala] *)
Definition _apply_internshala (j : job) : application_result :=
  failed j "Internshala application not implemented" "internshala" [].

(** [_apply_generic] *)
Definition _apply_generic (j : job) : application_result :=
  AppResult (id j) false
    [("error", "Manual application required"); ("method", "manual");
     ("message", "This job requires manual application")].

(** What the collaborators of one submission answer: the cover-letter
    generator, the HTTP session, the mail server, and, for the handlers that
    drive a browser page ([_apply_linkedin], [_apply_indeed],
    [_apply_via_form], which catch their exceptions), the dict they
    return. *)
Record answers := Answers {
  cover_letter : result string;
  http_get : result Z;
  mail_send : result unit;
  page_result : application_result
}.

(** [self.application_handlers[method](...)], or [_apply_generic] for a
    method without a handler. *)
Definition run_handler (method : string) (j : job) (ans : answers)
    : application_result :=
  if String.eqb method "linkedin" then page_result ans
  else if String.eqb method "indeed" then page_result ans
  else if String.eqb method "internshala" then _apply_internshala j
  else if String.eqb method "email" then _apply_via_email j (mail_send ans)
  else if String.eqb method "form" then page_result ans
  else if String.eqb method "http_form" then _apply_http_form j (http_get ans)
  else _apply_generic j.

(** [_apply_to_job(user_profile, job)]: the method is chosen and the letter
    written before the [try], so their exceptions leave the function. *)
Definition _apply_to_job (b : browser_state) (j : job) (ans : answers)
    : result application_result :=
  let* application_method := _determine_application_method b j in
  let* letter := cover_letter ans in
  let r := run_handler application_method j ans in
  Ok (AppResult (job_id r) (success r) (fields r ++ [("cover_letter", letter)])).

(** The task the loop of [auto_apply_to_jobs] sees for a job that is
    found. *)
Definition task_of (b : browser_state) (j : job) (ans : answers) : task :=
  (id j, JobFound (_apply_to_job b j ans)).

End ApplyMethod.

(** ** backend/agents/simple_supervisor_agent.py: applying to one job *)

Module ManualApply.
Import PyStr AutoApply.

(** The dict [apply_to_job] returns. *)
Record apply_response := ApplyResponse {
  ap_success : bool;
  ap_job_id : Z;
  ap_user_id : Z;
  ap_method : option string;
  ap_message : string;
  ap_error : option string
}.

(** [result.get(key)] on a result dict. *)
Fixpoint field (fields : list (string * string)) (key : string)
    : option string :=
  match fields with
  | [] => None
  | (k, v) :: rest => if String.eqb k key then Some v else field rest key
  end.

(** [apply_to_job(user_id, job_id)]: a dispatch of the one job. *)
Definition apply_to_job (a : agent) (user_id job : Z) (c : collaborators)
    (answer : job_answer) : agent * apply_response :=
  let d := auto_apply_to_jobs a user_id c [(job, answer)] in
  (d_agent d,
   match d_return d with
   | Ok (result :: _) =>
       ApplyResponse (success result) job user_id
         (Some (default "unknown" (field (fields result) "method")))
         (if success result then "Application submitted successfully"
          else "Application failed")
         (field (fields result) "error")
   | Ok [] =>
       ApplyResponse false job user_id None "No application results returned"
                     None
   | Raise e =>
       ApplyResponse false job user_id None "Application failed due to error"
                     (Some (exn_msg e))
   end).

End ManualApply.

(** ** backend/agents/supervisor_agent.py: health, configuration, schedule *)

Module SupervisorMore.
Import PyStr Supervisor.

(** What [is_healthy()] of the four sub-agents answers. *)
Record agents_health := Health {
  scraper_ok : bool;
  scoring_ok : bool;
  autoapply_ok : bool;
  tracker_ok : bool
}.

Definition agents_healthy (h : agents_health) : list bool :=
  [scraper_ok h; scoring_ok h; autoapply_ok h; tracker_ok h].

(** [sum(agents_healthy)] *)
Definition healthy_count (h : agents_health) : nat :=
  length (List.filter (fun b => b) (agents_healthy h)).

(** [_calculate_overall_health()] *)
Definition _calculate_overall_health (h : agents_health) : string :=
  let total_agents := length (agents_healthy h) in
  if Nat.eqb (healthy_count h) total_agents then "healthy"
  else if Qle_bool (inject_Z (Z.of_nat total_agents) * (75 # 100))
                   (inject_Z (Z.of_nat (healthy_count h)))
  then "degraded"
  else "unhealthy".

(** [is_healthy()]: [all([...])] *)
Definition is_healthy (h : agents_health) : bool :=
  forallb (fun b => b) (agents_healthy h).

(** [d.get(key, 0)] on a phase result. *)
Fixpoint count_of (fields : list (string * Z)) (key : string) : Z :=
  match fields with
  | [] => 0
  | (k, v) :: rest => if String.eqb k key then v else count_of rest key
  end.

Record workflow_summary := Summary {
  total_jobs_found : Z;
  jobs_scored : Z;
  high_scoring_jobs : Z;
  applications_sent : Z;
  applications_tracked : Z;
  summary_success : bool
}.

(** [_generate_workflow_summary(scraping, scoring, autoapply, tracking)] *)
Definition _generate_workflow_summary
    (scraping scoring : phase_result) (autoapply : option phase_result)
    (tracking : phase_result) : workflow_summary :=
  Summary (count_of (ph_fields scraping) "jobs_found")
          (count_of (ph_fields scoring) "jobs_scored")
          (count_of (ph_fields scoring) "high_scoring_jobs")
          (match autoapply with
           | Some r => count_of (ph_fields r) "applications_sent"
           | None => 0
           end)
          (count_of (ph_fields tracking) "total_applications")
          (forallb ph_success [scraping; scoring; tracking]).

(** The number a configuration value stands for in a comparison with a
    float; a string raises [TypeError]. *)
Definition number_of (v : value) : result Q :=
  match v with
  | VBool b => Ok (if b then 1 else 0)%Q
  | VInt z => Ok (inject_Z z)
  | VNum q => Ok q
  | VStr _ =>
      Raise (PyExn "TypeError"
               "'>=' not supported between instances of 'float' and 'str'")
  end.

(** [_should_run_scheduled_scraping()] when [datetime.utcnow()] reads
    [utcnow]; times are counted in seconds. *)
Definition _should_run_scheduled_scraping (s : supervisor) (utcnow : Z)
    : result bool :=
  match last_scraping_time s with
  | None => Ok true
  | Some last =>
      let hours_since_last_scraping := (inject_Z (utcnow - last) / 3600)%Q in
      match config s !! "scraping_interval_hours" with
      | None => Raise (PyExn "KeyError" "scraping_interval_hours")
      | Some v =>
          let* interval := number_of v in
          Ok (Qle_bool interval hours_since_last_scraping)
      end
  end.

(** A series of [update_configuration] calls. *)
Definition update_all (s : supervisor)
    (updates : list (gmap string value * result unit)) : supervisor :=
  fold_left (fun s u => fst (update_configuration s (fst u) (snd u))) updates s.

End SupervisorMore.

(** ** backend/utils/scraper_helpers.py: cleaning scraped text *)

Module ScraperHelpers.

(** A Python [str] is a sequence of Unicode code points. *)
Definition char : Type := N.

(** The code point of an ASCII character. *)
Definition ord (c : ascii) : char := N_of_ascii c.

Section Unicode.

(** What the Unicode database of the interpreter answers for a code
    point.  On a [str] the [re] module reads [\w] as [isalnum] or the
    underscore and [\s] as [isspace], and [str.strip] strips the [isspace]
    code points; so [\w] keeps the letters and digits of every script. *)
Variable isalnum : char -> bool.
Variable isspace : char -> bool.

(** [\w] *)
Definition is_word (c : char) : bool := isalnum c || N.eqb c (ord "_").

(** [text.lstrip()] *)
Fixpoint lstrip (text : list char) : list char :=
  match text with
  | [] => []
  | c :: rest => if isspace c then lstrip rest else text
  end.

(** [text.strip()] *)
Definition strip (text : list char) : list char :=
  rev (lstrip (rev (lstrip text))).

(** [re.sub(r'\s+', ' ', text)]: every maximal run of white space becomes
    one space; [in_run] tells that the previous character was white space. *)
Fixpoint collapse (in_run : bool) (text : list char) : list char :=
  match text with
  | [] => []
  | c :: rest =>
      if isspace c then
        if in_run then collapse true rest else ord " " :: collapse true rest
      else c :: collapse false rest
  end.

(** The characters [[^\w\s\-\.,()&]] does not match. *)
Definition kept (c : char) : bool :=
  is_word c || isspace c
  || existsb (N.eqb c) (map ord ["-"; "."; ","; "("; ")"; "&"]%char).

(** [re.sub(r'[^\w\s\-\.,()&]', '', text)] *)
Definition remove_special (text : list char) : list char :=
  List.filter kept text.

(** [clean_text(text)]; [None] and the empty string are falsy. *)
Definition clean_text (text : option (list char)) : list char :=
  match text with
  | None | Some [] => []
  | Some text => remove_special (collapse false (strip text))
  end.

End Unicode.

End ScraperHelpers.

(** ** backend/utils/matching.py: education requirements *)

Module Education.
Import PyStr Regex Extract.

Definition education_patterns : list (string * list string) :=
  [
    ("bachelor's degree", ["\bbachelor'?s?\s+degree\b"; "\bb\.?s\.?\b"; "\bundergraduate\s+degree\b"]);
    ("master's degree", ["\bmaster'?s?\s+degree\b"; "\bm\.?s\.?\b"; "\bgraduate\s+degree\b"]);
    ("phd", ["\bphd\b"; "\bdoctorate\b"; "\bdoctoral\s+degree\b"]);
    ("computer science", ["\bcomputer\s+science\b"; "\bcs\s+degree\b"]);
    ("engineering", ["\bengineering\s+degree\b"; "\bengineering\b"]);
    ("mathematics", ["\bmathematics\b"; "\bmath\s+degree\b"]);
    ("statistics", ["\bstatistics\b"; "\bstats\s+degree\b"]) ].

(** [extract_education_requirements(text)]; nothing here catches what
    [re.search] raises. *)
Definition extract_education_requirements (text : option string)
    : result (list string) :=
  if falsy text then Ok []
  else
    let text := lower (text_of text) in
    scan_catalog education_patterns text [].

End Education.

(** ** backend/agents/simple_scraper_agent.py: keyword skills *)

Module SimpleSkills.
Import PyStr Extract.

Definition skills_keywords : list string :=
  [ "python"; "java"; "javascript"; "react"; "node.js"; "angular"; "vue.js";
    "sql"; "mysql"; "postgresql"; "mongodb"; "redis";
    "aws"; "azure"; "gcp"; "docker"; "kubernetes";
    "git"; "jenkins"; "ci/cd"; "devops";
    "machine learning"; "data science"; "ai"; "tensorflow"; "pytorch";
    "html"; "css"; "bootstrap"; "tailwind";
    "django"; "flask"; "fastapi"; "express.js";
    "php"; "laravel"; "symfony";
    "c++"; "c#"; "go"; "rust"; "scala" ].

(** The loop of [_extract_skills]. *)
Fixpoint found_in (keywords : list string) (text_lower : string)
    (found_skills : list string) : list string :=
  match keywords with
  | [] => found_skills
  | skill :: rest =>
      found_in rest text_lower
        (if contains text_lower (lower skill) then found_skills ++ [skill]
         else found_skills)
  end.

(** [SimpleScraperAgent._extract_skills(text)] *)
Definition _extract_skills (text : string) : list string :=
  let text_lower := lower text in
  list_of_set (found_in skills_keywords text_lower []).

End SimpleSkills.

(** * Vocabulary of the further properties *)

Module SkillMatchSpec.
Import PyStr Matching MatchingSpec.

(** Whether some skill of the list is related to the required skill. *)
Definition some_related (ul : list string) (x : string) : Prop :=
  Exists (fun u => related (lower x) (lower u) = true) ul.

End SkillMatchSpec.

Module ExtractMeaningSpec.
Import PyStr Regex Extract ExtractSpec.

(** The pattern matches somewhere in the text. *)
Definition pattern_matches (text pattern : string) : bool :=
  match compile pattern with
  | Some r => search r text
  | None => false
  end.

(** The names of the catalog entries one of whose patterns matches, in the
    order of the catalog. *)
Definition matching_names (catalog : list (string * list string))
    (text : string) : list string :=
  map fst (List.filter (fun entry => existsb (pattern_matches text) (snd entry))
                       catalog).

End ExtractMeaningSpec.

Module HttpSessionSpec.
Import PyStr AutoApply AutoApplySpec ApplyMethod.

(** [url.startswith('mailto:')] *)
Definition starts_with_mailto (url : option string) : bool :=
  match url with
  | Some u => String.prefix "mailto:" u
  | None => false
  end.

End HttpSessionSpec.

Module WorkflowRunSpec.
Import PyStr Supervisor SupervisorMore.

(** The result of the scraping phase for an answer of the scraper. *)
Definition scraping_result (scrape : result Z) : phase_result :=
  match scrape with
  | Ok jobs_found => Phase true [("jobs_found", jobs_found)]
  | Raise _ => Phase false [("jobs_found", 0%Z)]
  end.

End WorkflowRunSpec.

Module CacheMoreSpec.
Import PyStr SimpleSupervisor CacheSpec.

(** The query with its keywords and location lower-cased and trimmed, its
    result count written out and its other parameters dropped. *)
Definition normal_form (p : search_params) : search_params :=
  Params (Some (strip (lower (default "" (sp_keywords p)))))
         (Some (strip (lower (default "" (sp_location p)))))
         (Some (default 50%Z (sp_max_results p))) [].

(** A series of calls of [trigger_job_search], each with its clock and the
    answers of its collaborators. *)
Definition trigger_all (s : supervisor)
    (calls : list (search_params * clock * result (list SimpleScraperAgent.JobListing)
                   * result nat)) : supervisor :=
  fold_left (fun s '(p, clk, scrape, save) =>
               o_sup (trigger_job_search s p clk scrape save)) calls s.

End CacheMoreSpec.

Module CleanTextSpec.
Import ScraperHelpers.

(** The code points of a text written in ASCII. *)
Definition codes (s : string) : list char :=
  map ord (list_ascii_of_string s).

(** A part of the Unicode database, enough for the texts of the examples:
    the ASCII letters and digits and the letter U+00FC are alphanumeric;
    TAB to CR, FS to US, SPACE and U+00A0 are white space. *)
Definition sample_isalnum (c : char) : bool :=
  ((48 <=? c) && (c <=? 57) || (65 <=? c) && (c <=? 90)
   || (97 <=? c) && (c <=? 122) || (c =? 252))%N.

Definition sample_isspace (c : char) : bool :=
  ((9 <=? c) && (c <=? 13) || (28 <=? c) && (c <=? 32) || (c =? 160))%N.

End CleanTextSpec.

(** * Theorems *)

(** ** The matcher *)

Section MatcherFacts.
Import PyStr Matching MatchingSpec.

Implicit Types (ul user_skills required_skills : list string) (b : buckets).

(** What one iteration appends to each of the three lists. *)
Lemma classify_step_exact ul b x :
  b_exact (classify_step ul b x)
  = b_exact b ++ (if decide (class_of ul x = Exact) then [x] else []).
Proof.
  unfold classify_step, class_of.
  destruct (mem (lower x) ul); simpl; [done|].
  destruct (find_partial_skill_match (lower x) ul) as [[|c s]|];
    simpl; by rewrite app_nil_r.
Qed.

Lemma classify_step_partial ul b x :
  map required_skill (b_partial (classify_step ul b x))
  = map required_skill (b_partial b)
    ++ (if decide (class_of ul x = Partial) then [x] else []).
Proof.
  unfold classify_step, class_of.
  destruct (mem (lower x) ul); simpl; [by rewrite app_nil_r|].
  destruct (find_partial_skill_match (lower x) ul) as [[|c s]|]; simpl;
    rewrite ?map_app, ?app_nil_r; done.
Qed.

Lemma classify_step_missing ul b x :
  b_missing (classify_step ul b x)
  = b_missing b ++ (if decide (class_of ul x = Missing) then [x] else []).
Proof.
  unfold classify_step, class_of.
  destruct (mem (lower x) ul); simpl; [by rewrite app_nil_r|].
  destruct (find_partial_skill_match (lower x) ul) as [[|c s]|]; simpl;
    rewrite ?app_nil_r; done.
Qed.

(** The loop files the required skills by class, in their order. *)
Lemma fold_classify_step ul required_skills b :
  let b' := fold_left (classify_step ul) required_skills b in
  b_exact b' = b_exact b ++ List.filter (of_class ul Exact) required_skills
  /\ map required_skill (b_partial b')
     = map required_skill (b_partial b)
       ++ List.filter (of_class ul Partial) required_skills
  /\ b_missing b'
     = b_missing b ++ List.filter (of_class ul Missing) required_skills.
Proof.
  revert b. induction required_skills as [|x rest IH]; intros b; simpl.
  - by rewrite !app_nil_r.
  - destruct (IH (classify_step ul b x)) as (He & Hp & Hm).
    rewrite He, Hp, Hm.
    rewrite classify_step_exact, classify_step_partial, classify_step_missing.
    unfold of_class.
    rewrite <- !app_assoc.
    repeat split; f_equal;
      destruct (class_of ul x); simpl; done.
Qed.

Lemma classify_loop_lists ul required_skills :
  let b := classify_loop ul required_skills in
  b_exact b = List.filter (of_class ul Exact) required_skills
  /\ map required_skill (b_partial b)
     = List.filter (of_class ul Partial) required_skills
  /\ b_missing b = List.filter (of_class ul Missing) required_skills.
Proof.
  unfold classify_loop.
  destruct (fold_classify_step ul required_skills (Buckets [] [] []))
    as (He & Hp & Hm).
  simpl in *. auto.
Qed.

(** The three lists of a result, by class. *)
Lemma skill_match_lists user_skills required_skills :
  let m := calculate_skill_match user_skills required_skills in
  exact_matches m = List.filter (has_class user_skills Exact) required_skills
  /\ partial_required m
     = List.filter (has_class user_skills Partial) required_skills
  /\ missing_skills m
     = List.filter (has_class user_skills Missing) required_skills.
Proof.
  unfold calculate_skill_match, partial_required; simpl.
  apply (classify_loop_lists (map lower user_skills)).
Qed.

(** The lengths of the three filters add up. *)
Lemma class_filters_length user_skills required_skills :
  (length (List.filter (has_class user_skills Exact) required_skills)
   + length (List.filter (has_class user_skills Partial) required_skills)
   + length (List.filter (has_class user_skills Missing) required_skills)
   = length required_skills)%nat.
Proof.
  induction required_skills as [|x rest IH]; simpl; [done|].
  unfold has_class in *.
  destruct (classify user_skills x);
    repeat (case_bool_decide; try done); simpl; lia.
Qed.

Lemma class_filters_perm user_skills required_skills :
  List.filter (has_class user_skills Exact) required_skills
  ++ List.filter (has_class user_skills Partial) required_skills
  ++ List.filter (has_class user_skills Missing) required_skills
  ≡ₚ required_skills.
Proof.
  induction required_skills as [|x rest IH]; simpl; [done|].
  unfold has_class in *.
  destruct (classify user_skills x);
    repeat (case_bool_decide; try done); simpl.
  - by rewrite IH.
  - rewrite <- Permutation_middle. by rewrite IH.
  - rewrite app_assoc, <- Permutation_middle, <- app_assoc. by rewrite IH.
Qed.

Lemma elem_of_class_filter user_skills c x required_skills :
  x ∈ List.filter (has_class user_skills c) required_skills
  <-> x ∈ required_skills /\ classify user_skills x = c.
Proof.
  rewrite !list_elem_of_In, filter_In. unfold has_class.
  by rewrite bool_decide_eq_true.
Qed.

End MatcherFacts.

Section MatcherScore.
Import PyStr Matching MatchingSpec.
Local Open Scope Q_scope.

Implicit Types (user_skills required_skills : list string).

Lemma Qlen_nonneg {A} (l : list A) : 0 <= Qlen l.
Proof.
  unfold Qlen. change 0 with (inject_Z 0). rewrite <- Zle_Qle. lia.
Qed.

Lemma Qlen_cons {A} (x : A) (l : list A) : Qlen (x :: l) == 1 + Qlen l.
Proof.
  unfold Qlen. simpl length. rewrite Nat2Z.inj_succ, <- Z.add_1_l.
  by rewrite inject_Z_plus.
Qed.

(** The numerator of the score is the sum of the weights. *)
Lemma weighted_lengths user_skills required_skills :
  Qlen (List.filter (has_class user_skills Exact) required_skills) * 1
  + Qlen (List.filter (has_class user_skills Partial) required_skills) * (1 # 2)
  == weight_sum user_skills required_skills.
Proof.
  induction required_skills as [|x rest IH]; simpl; [reflexivity|].
  rewrite <- IH. unfold has_class.
  destruct (classify user_skills x);
    repeat (case_bool_decide; try done); simpl weight;
    rewrite ?Qlen_cons; ring.
Qed.

Lemma Qlen_partial_required (m : skill_match) :
  Qlen (partial_required m) = Qlen (partial_matches m).
Proof. unfold Qlen, partial_required. by rewrite length_map. Qed.

Lemma score_of_weight_sum user_skills required_skills :
  score_of (calculate_skill_match user_skills required_skills)
           (length required_skills)
  == weight_sum user_skills required_skills
     / inject_Z (Z.of_nat (Nat.max (length required_skills) 1)).
Proof.
  unfold score_of.
  destruct (skill_match_lists user_skills required_skills) as (He & Hp & _).
  rewrite <- Qlen_partial_required, He, Hp.
  by rewrite weighted_lengths.
Qed.

Lemma weight_bounds c : 0 <= weight c /\ weight c <= 1.
Proof. destruct c; simpl; split; lra. Qed.

Lemma weight_sum_bounds user_skills required_skills :
  0 <= weight_sum user_skills required_skills
  /\ weight_sum user_skills required_skills <= Qlen required_skills.
Proof.
  induction required_skills as [|x rest [IH0 IH1]]; simpl.
  - split; [lra | apply Qlen_nonneg].
  - rewrite Qlen_cons.
    destruct (weight_bounds (classify user_skills x)). split; lra.
Qed.

Lemma max_one_positive (n : nat) : 0 < inject_Z (Z.of_nat (Nat.max n 1)).
Proof. change 0 with (inject_Z 0). rewrite <- Zlt_Qlt. lia. Qed.

Lemma Qlen_le_max_one {A} (l : list A) :
  Qlen l <= inject_Z (Z.of_nat (Nat.max (length l) 1)).
Proof. unfold Qlen. rewrite <- Zle_Qle. lia. Qed.

(** The score lies in the unit interval. *)
Lemma score_of_unit user_skills required_skills :
  let m := calculate_skill_match user_skills required_skills in
  0 <= score_of m (length required_skills)
  /\ score_of m (length required_skills) <= 1.
Proof.
  intros m. unfold m. rewrite score_of_weight_sum.
  destruct (weight_sum_bounds user_skills required_skills) as [H0 H1].
  pose proof (max_one_positive (length required_skills)) as Hpos.
  pose proof (Qlen_le_max_one required_skills) as Hle.
  split.
  - apply Qle_shift_div_l; [done|]. lra.
  - apply Qle_shift_div_r; [done|]. lra.
Qed.

Lemma total_required_max user_skills required_skills :
  total_required (calculate_skill_match user_skills required_skills)
  = Nat.max (length required_skills) 1%nat.
Proof. destruct required_skills; simpl; lia. Qed.

(** The returned percentage is the score times one hundred; the [min]
    with [100] never cuts. *)
Lemma match_percentage_score user_skills required_skills :
  let m := calculate_skill_match user_skills required_skills in
  match_percentage m == 100 * score_of m (length required_skills).
Proof.
  intros m.
  destruct (score_of_unit user_skills required_skills) as [_ H1].
  fold m in H1.
  assert (Hm : match_percentage m
               == Qmin 100 (score_of m (length required_skills) * 100)).
  { unfold m, score_of.
    rewrite <- (total_required_max user_skills). reflexivity. }
  rewrite Hm. rewrite Q.min_r; lra.
Qed.

End MatcherScore.

Section MatcherClaims.
Import PyStr Matching MatchingSpec.
Local Open Scope Q_scope.

Implicit Types (user_skills required_skills : list string).

(** C10.  The breakdown of [calculate_skill_match] partitions the required
    skills: the three lists are the required skills of class exact,
    partial and missing, so their lengths add up to the number of required
    skills, together they are a permutation of the required skills, every
    required skill is in exactly one of them, and [total_required] is the
    number of required skills when there is one and [1] when there is
    none. *)
Theorem skill_match_partitions_required user_skills required_skills :
  let m := calculate_skill_match user_skills required_skills in
  (length (exact_matches m) + length (partial_matches m)
   + length (missing_skills m) = length required_skills)%nat
  /\ exact_matches m ++ partial_required m ++ missing_skills m
     ≡ₚ required_skills
  /\ (forall x, x ∈ required_skills ->
        ((x ∈ exact_matches m) /\ (x ∉ partial_required m)
         /\ (x ∉ missing_skills m))
        \/ ((x ∉ exact_matches m) /\ (x ∈ partial_required m)
            /\ (x ∉ missing_skills m))
        \/ ((x ∉ exact_matches m) /\ (x ∉ partial_required m)
            /\ (x ∈ missing_skills m)))
  /\ ((0 < length required_skills)%nat ->
      total_required m = length required_skills)
  /\ (required_skills = [] -> total_required m = 1%nat).
Proof.
  intros m.
  destruct (skill_match_lists user_skills required_skills) as (He & Hp & Hm).
  fold m in He, Hp, Hm.
  repeat split.
  - rewrite <- (length_map required_skill (partial_matches m)).
    fold (partial_required m). rewrite He, Hp, Hm.
    apply class_filters_length.
  - rewrite He, Hp, Hm. apply class_filters_perm.
  - intros x Hx. rewrite He, Hp, Hm.
    rewrite !elem_of_class_filter.
    destruct (classify user_skills x) eqn:Hc.
    + left. repeat split; try done; intros [_ ?]; done.
    + right; left. repeat split; try done; intros [_ ?]; done.
    + right; right. repeat split; try done; intros [_ ?]; done.
  - intros Hpos. unfold m. rewrite total_required_max. lia.
  - intros ->. reflexivity.
Qed.

Lemma skill_match_partitions_required_witness :
  let m := calculate_skill_match ["python"; "react"]
             ["python"; "javascript"; "docker"] in
  "javascript" ∈ partial_required m /\ total_required m = 3%nat.
Proof.
  pose proof (skill_match_partitions_required ["python"; "react"]
                ["python"; "javascript"; "docker"]) as (_ & _ & H & Ht & _).
  split.
  - destruct (H "javascript") as [(_ & Hn & _)|[(_ & Hy & _)|(_ & Hn & _)]].
    + set_solver.
    + exfalso. apply Hn. vm_compute. set_solver.
    + exact Hy.
    + exfalso. apply Hn. vm_compute. set_solver.
  - apply Ht. simpl. lia.
Defined.

(** C1 (amended).  [calculate_skill_match] files every required skill as
    exact, partial or missing, and returns as [match_percentage] one
    hundred times the score
    [(exact * 1.0 + partial * 0.5) / max(len(required_skills), 1)]: the
    score lies in [0, 1], so the percentage lies in [0, 100] and the
    [min] with [100] never cuts.  For the profile skills python and react
    against the required skills python, javascript and docker the exact
    matches are python, javascript is matched partially through react,
    docker is missing, the score is 0.5 and the returned percentage is
    50. *)
Theorem skill_match_percentage_formula :
  (forall user_skills required_skills,
     let m := calculate_skill_match user_skills required_skills in
     let score := score_of m (length required_skills) in
     exact_matches m
     = List.filter (has_class user_skills Exact) required_skills
     /\ partial_required m
        = List.filter (has_class user_skills Partial) required_skills
     /\ (0 <= score /\ score <= 1)
     /\ match_percentage m == Qmin 100 (100 * score)
     /\ match_percentage m == 100 * score
     /\ (0 <= match_percentage m /\ match_percentage m <= 100))
  /\ (let e := calculate_skill_match ["python"; "react"]
                 ["python"; "javascript"; "docker"] in
      exact_matches e = ["python"]
      /\ partial_matches e = [PartialMatch "javascript" "react" (7 # 10)]
      /\ missing_skills e = ["docker"]
      /\ score_of e 3 == 1 # 2
      /\ match_percentage e == 50).
Proof.
  split.
  - intros user_skills required_skills m score.
    destruct (skill_match_lists user_skills required_skills) as (He & Hp & _).
    destruct (score_of_unit user_skills required_skills) as [H0 H1].
    pose proof (match_percentage_score user_skills required_skills) as Hs.
    cbv zeta in Hs.
    fold m in He, Hp, H0, H1, Hs. fold score in H0, H1, Hs.
    split; [exact He|]. split; [exact Hp|]. split; [by split|].
    clearbody score. clear He Hp.
    remember (match_percentage m) as p eqn:Ep. clear Ep.
    split; [|split; [exact Hs|split]].
    + rewrite Hs. rewrite Q.min_r; [reflexivity | lra].
    + rewrite Hs. lra.
    + rewrite Hs. lra.
  - vm_compute. repeat split; done.
Qed.

(** C1, as stated, fails: for the profile skills python and react against
    the required skills python, javascript and docker the returned number
    is not 0.5 and does not lie in [0, 1]. *)
Lemma skill_match_returns_a_percentage :
  let e := calculate_skill_match ["python"; "react"]
             ["python"; "javascript"; "docker"] in
  ~ (match_percentage e == 1 # 2) /\ ~ (match_percentage e <= 1).
Proof. vm_compute. split; intros H; discriminate H || (apply H; reflexivity). Qed.

End MatcherClaims.

Section MatcherMonotone.
Import PyStr Matching MatchingSpec.
Local Open Scope Q_scope.

Implicit Types (u r : list string).

(** Two required lists of one length, each position weighing at least as
    much on the right: the sums compare. *)
Lemma weight_sum_pointwise u u' r r' :
  length r = length r' ->
  (forall j y y', r !! j = Some y -> r' !! j = Some y' ->
     weight (classify u y) <= weight (classify u' y')) ->
  weight_sum u r <= weight_sum u' r'.
Proof.
  revert r'. induction r as [|x r IH]; intros [|x' r'] Hlen Hpt;
    simpl in Hlen; try (exfalso; discriminate Hlen); simpl.
  - lra.
  - assert (Hx : weight (classify u x) <= weight (classify u' x'))
      by (apply (Hpt 0%nat); reflexivity).
    assert (Hr : weight_sum u r <= weight_sum u' r').
    { apply IH; [congruence|]. intros j y y' Hy Hy'.
      apply (Hpt (S j)); assumption. }
    lra.
Qed.

Lemma weight_exact_top c : weight c <= weight Exact.
Proof. destruct c; simpl; lra. Qed.

(** The percentage in terms of the sum of weights. *)
Lemma match_percentage_weight_sum u r :
  match_percentage (calculate_skill_match u r)
  == 100 * (weight_sum u r / inject_Z (Z.of_nat (Nat.max (length r) 1))).
Proof.
  pose proof (match_percentage_score u r) as Hs. cbv zeta in Hs.
  rewrite Hs. by rewrite score_of_weight_sum.
Qed.

Lemma match_percentage_pointwise u u' r r' :
  length r = length r' ->
  (forall j y y', r !! j = Some y -> r' !! j = Some y' ->
     weight (classify u y) <= weight (classify u' y')) ->
  match_percentage (calculate_skill_match u r)
  <= match_percentage (calculate_skill_match u' r').
Proof.
  intros Hlen Hpt.
  rewrite !match_percentage_weight_sum, <- Hlen.
  pose proof (weight_sum_pointwise u u' r r' Hlen Hpt) as Hle.
  pose proof (max_one_positive (length r)) as Hpos.
  set (n := inject_Z (Z.of_nat (Nat.max (length r) 1))) in *.
  assert (Hdiv : weight_sum u r / n <= weight_sum u' r' / n).
  { unfold Qdiv. apply Qmult_le_compat_r; [exact Hle|].
    apply Qlt_le_weak, Qinv_lt_0_compat, Hpos. }
  lra.
Qed.

(** C2.  Take two runs of [calculate_skill_match] on required lists of one
    length.  If at one position the first run files the required skill as
    missing or partial and the second files its required skill as exact,
    and at every other position both runs file their required skills
    alike, then the second run's score is not below the first's. *)
Theorem skill_match_monotone_in_exact u u' r r' (i : nat) (x x' : string) :
  length r = length r' ->
  r !! i = Some x ->
  r' !! i = Some x' ->
  classify u x <> Exact ->
  classify u' x' = Exact ->
  (forall j y y', j <> i -> r !! j = Some y -> r' !! j = Some y' ->
     classify u' y' = classify u y) ->
  match_percentage (calculate_skill_match u r)
  <= match_percentage (calculate_skill_match u' r').
Proof.
  intros Hlen Hx Hx' Hbefore Hafter Hothers.
  apply match_percentage_pointwise; [exact Hlen|].
  intros j y y' Hy Hy'.
  destruct (decide (j = i)) as [->|Hne].
  - rewrite Hx in Hy. rewrite Hx' in Hy'.
    injection Hy as <-. injection Hy' as <-.
    rewrite Hafter. apply weight_exact_top.
  - rewrite (Hothers j y y' Hne Hy Hy'). lra.
Qed.

Lemma skill_match_monotone_in_exact_witness :
  match_percentage (calculate_skill_match ["python"; "react"]
                      ["python"; "javascript"; "docker"])
  <= match_percentage (calculate_skill_match ["python"; "react"; "docker"]
                         ["python"; "javascript"; "docker"]).
Proof.
  apply (skill_match_monotone_in_exact _ _ _ _ 2%nat "docker" "docker").
  - reflexivity.
  - reflexivity.
  - reflexivity.
  - vm_compute. discriminate.
  - vm_compute. reflexivity.
  - intros [|[|[|j]]] y y' Hne Hy Hy'; simpl in Hy, Hy';
      try discriminate; try (exfalso; apply Hne; reflexivity);
      injection Hy as <-; injection Hy' as <-; vm_compute; reflexivity.
Defined.

End MatcherMonotone.

(** ** Feature extraction *)

Section ExtractFacts.
Import PyStr Regex Extract ExtractSpec.

Lemma re_search_total pattern text :
  compilable pattern = true -> exists hit, re_search pattern text = Ok hit.
Proof.
  unfold compilable, re_search.
  destruct (compile pattern) as [r|]; [eauto | discriminate].
Qed.

Lemma any_pattern_total patterns text :
  forallb compilable patterns = true ->
  exists hit, any_pattern patterns text = Ok hit.
Proof.
  induction patterns as [|p rest IH]; simpl; [eauto|].
  intros [Hp Hrest]%andb_true_iff.
  destruct (re_search_total p text Hp) as [hit ->]; simpl.
  destruct hit; eauto.
Qed.

Lemma scan_catalog_total catalog text found :
  catalog_compiles catalog = true ->
  exists l, scan_catalog catalog text found = Ok l.
Proof.
  revert found.
  induction catalog as [|[name patterns] rest IH]; simpl; intros found;
    [eauto|].
  intros [Hp Hrest]%andb_true_iff.
  destruct (any_pattern_total patterns text Hp) as [hit ->]; simpl.
  apply IH, Hrest.
Qed.

Lemma first_size_total catalog text :
  catalog_compiles catalog = true ->
  exists size, first_size catalog text = Ok size.
Proof.
  induction catalog as [|[name patterns] rest IH]; simpl; [eauto|].
  intros [Hp Hrest]%andb_true_iff.
  destruct (any_pattern_total patterns text Hp) as [hit ->]; simpl.
  destruct hit; eauto.
Qed.

(** The three catalogs of the source compile. *)
Lemma skill_patterns_compile : catalog_compiles skill_patterns = true.
Proof. vm_compute. reflexivity. Qed.

Lemma benefit_patterns_compile : catalog_compiles benefit_patterns = true.
Proof. vm_compute. reflexivity. Qed.

Lemma size_patterns_compile : catalog_compiles size_patterns = true.
Proof. vm_compute. reflexivity. Qed.

(** The extractors at work on a description. *)
Example extract_skills_sample :
  extract_skills_from_job_text
    (Some "Python and React.js developer; C++ is a plus. Git, not GitHub.")
  = Ok ["github"; "git"; "react"; "python"].
Proof. vm_compute. reflexivity. Qed.

Example extract_skills_lookahead :
  extract_skills_from_job_text (Some "java script, nodejs, JS ")
  = Ok ["javascript"].
Proof. vm_compute. reflexivity. Qed.

Example extract_benefits_sample :
  extract_benefits_from_text (Some "We offer a 401k, PTO and equity.")
  = Ok ["retirement plan"; "paid time off"; "stock options"].
Proof. vm_compute. reflexivity. Qed.

Example extract_company_size_sample :
  extract_company_size_from_text (Some "An early  stage enterprise")
  = Ok (Some "startup").
Proof. vm_compute. reflexivity. Qed.

(** C9.  For every input text, missing and empty included, the three
    extractors return and do not raise: every pattern of the three
    catalogs compiles, so no [re.search] raises.  On a missing or empty
    text they return the empty skill list, the empty benefit list and no
    company size. *)
Theorem extraction_never_raises :
  (forall text : option string,
     (exists found_skills, extract_skills_from_job_text text = Ok found_skills)
     /\ (exists found_benefits,
           extract_benefits_from_text text = Ok found_benefits)
     /\ (exists size, extract_company_size_from_text text = Ok size))
  /\ (extract_skills_from_job_text None = Ok []
      /\ extract_benefits_from_text None = Ok []
      /\ extract_company_size_from_text None = Ok None)
  /\ (extract_skills_from_job_text (Some "") = Ok []
      /\ extract_benefits_from_text (Some "") = Ok []
      /\ extract_company_size_from_text (Some "") = Ok None).
Proof.
  split; [|split; repeat split; reflexivity].
  intros text.
  unfold extract_skills_from_job_text, extract_benefits_from_text,
    extract_company_size_from_text.
  destruct (falsy text); [repeat split; eauto|].
  repeat split.
  - destruct (scan_catalog_total skill_patterns (lower (text_of text)) []
                skill_patterns_compile) as [l ->].
    simpl. eauto.
  - apply scan_catalog_total, benefit_patterns_compile.
  - apply first_size_total, size_patterns_compile.
Qed.

End ExtractFacts.

(** ** Deduplication *)

Section DedupFacts.
Import Dedup DedupSpec.
Context {A : Type} (key : A -> string).

Implicit Types (jobs pre unique_jobs : list A) (seen : gset string).

(** The loop, with [seen] the keys of the jobs already met. *)
Lemma dedup_loop_keep_first jobs pre seen unique_jobs :
  seen = list_to_set (map key pre) ->
  dedup_loop key jobs seen unique_jobs
  = unique_jobs ++ keep_first_from key pre jobs.
Proof.
  revert pre seen unique_jobs.
  induction jobs as [|job rest IH]; intros pre seen unique_jobs Hseen; simpl.
  - by rewrite app_nil_r.
  - assert (Hnext : {[key job]} ∪ seen = list_to_set (map key (pre ++ [job]))).
    { rewrite map_app, list_to_set_app_L, Hseen. simpl. set_solver. }
    assert (Hin : key job ∈ seen <-> key job ∈ map key pre).
    { rewrite Hseen. apply elem_of_list_to_set. }
    destruct (decide (key job ∈ seen)) as [Hs|Hs].
    + rewrite (bool_decide_eq_true_2 _ Hs).
      rewrite (bool_decide_eq_true_2 _ (proj1 Hin Hs)). simpl.
      apply IH. rewrite <- Hnext. set_solver.
    + rewrite (bool_decide_eq_false_2 _ Hs).
      assert (Hp : key job ∉ map key pre) by (intros H; apply Hs, Hin, H).
      rewrite (bool_decide_eq_false_2 _ Hp). simpl.
      rewrite (IH (pre ++ [job]) _ _ Hnext). by rewrite <- app_assoc.
Qed.

(** The keys kept are new with respect to [pre] and pairwise distinct. *)
Lemma keep_first_from_keys pre jobs :
  NoDup (map key (keep_first_from key pre jobs))
  /\ (forall k, k ∈ map key (keep_first_from key pre jobs) ->
        k ∉ map key pre /\ k ∈ map key jobs).
Proof.
  revert pre. induction jobs as [|job rest IH]; intros pre; simpl.
  - split; [constructor | intros k Hk; inversion Hk].
  - destruct (IH (pre ++ [job])) as [Hnd Hnew].
    assert (Hrest : forall k,
      k ∈ map key (keep_first_from key (pre ++ [job]) rest) ->
      k ∉ map key pre /\ k <> key job /\ k ∈ map key rest).
    { intros k Hk. destruct (Hnew k Hk) as [Hn Hi].
      rewrite map_app in Hn. set_solver. }
    case_bool_decide as Hj; simpl.
    + split; [exact Hnd|]. intros k Hk.
      destruct (Hrest k Hk) as (? & ? & ?). set_solver.
    + split.
      * constructor; [|exact Hnd]. intros Hk.
        destruct (Hrest _ Hk) as (_ & Hne & _). by apply Hne.
      * intros k [->|Hk]%elem_of_cons; [set_solver|].
        destruct (Hrest k Hk) as (? & ? & ?). set_solver.
Qed.

(** Every key of the input is kept or was met before. *)
Lemma keep_first_from_covers pre jobs k :
  k ∈ map key jobs ->
  k ∈ map key pre \/ k ∈ map key (keep_first_from key pre jobs).
Proof.
  revert pre. induction jobs as [|job rest IH]; intros pre; simpl.
  - intros Hk; inversion Hk.
  - intros [->|Hk]%elem_of_cons.
    + case_bool_decide as Hj; [by left|]. right. set_solver.
    + destruct (IH (pre ++ [job]) Hk) as [Hpre|Hkept].
      * rewrite map_app in Hpre. apply elem_of_app in Hpre as [?|Hj];
          [by left|].
        assert (k = key job) as -> by set_solver.
        case_bool_decide; [by left|]. right. set_solver.
      * right. rewrite map_app. set_solver.
Qed.

Lemma keep_first_from_sublist pre jobs :
  keep_first_from key pre jobs `sublist_of` jobs.
Proof.
  revert pre. induction jobs as [|job rest IH]; intros pre; simpl; [done|].
  case_bool_decide; simpl.
  - by apply sublist_cons.
  - by apply sublist_skip.
Qed.

(** The loop returns the first occurrence of each key: a subsequence of the
    input with pairwise distinct keys that has every key of the input. *)
Lemma dedup_loop_first_occurrences jobs :
  let unique_jobs := dedup_loop key jobs ∅ [] in
  unique_jobs = keep_first key jobs
  /\ unique_jobs `sublist_of` jobs
  /\ NoDup (map key unique_jobs)
  /\ (forall k, k ∈ map key jobs <-> k ∈ map key unique_jobs).
Proof.
  intros unique_jobs. unfold unique_jobs.
  rewrite (dedup_loop_keep_first jobs [] ∅ []) by done.
  simpl. fold (keep_first key jobs). unfold keep_first.
  split; [done|]. split; [apply keep_first_from_sublist|].
  destruct (keep_first_from_keys [] jobs) as [Hnd Hnew].
  split; [exact Hnd|]. intros k. split.
  - intros Hk. destruct (keep_first_from_covers [] jobs k Hk) as [H|H];
      [inversion H | exact H].
  - intros Hk. by destruct (Hnew k Hk).
Qed.

End DedupFacts.

Section DedupClaims.
Import PyStr DedupSpec.

(** The deduplicator of [SimpleScraperAgent] keeps the first occurrence of
    each key, and its key is made of the lower-cased, trimmed title and the
    lower-cased, trimmed company. *)
Lemma simple_remove_duplicates_first_occurrences
    (jobs : list SimpleScraperAgent.JobListing) :
  let unique_jobs := SimpleScraperAgent._remove_duplicates jobs in
  unique_jobs = keep_first SimpleScraperAgent.job_key jobs
  /\ unique_jobs `sublist_of` jobs
  /\ NoDup (map SimpleScraperAgent.job_key unique_jobs)
  /\ (forall k, k ∈ map SimpleScraperAgent.job_key jobs
                <-> k ∈ map SimpleScraperAgent.job_key unique_jobs).
Proof. apply dedup_loop_first_occurrences. Qed.

Lemma simple_job_key_identity (j1 j2 : SimpleScraperAgent.JobListing) :
  identity_key (SimpleScraperAgent.title j1) (SimpleScraperAgent.company j1)
  = identity_key (SimpleScraperAgent.title j2) (SimpleScraperAgent.company j2)
  -> SimpleScraperAgent.job_key j1 = SimpleScraperAgent.job_key j2.
Proof.
  unfold identity_key, SimpleScraperAgent.job_key. intros [= -> ->]. done.
Qed.

Example simple_remove_duplicates_scenario :
  SimpleScraperAgent._remove_duplicates
    [listing "Backend Engineer" "Acme"; listing "backend engineer" " Acme "]
  = [listing "Backend Engineer" "Acme"].
Proof. vm_compute. reflexivity. Qed.

(** The deduplicator of [ScraperAgent] keeps the first occurrence of each of
    its keys, which are lower-cased and not trimmed. *)
Lemma scraper_remove_duplicates_first_occurrences
    (jobs : list (gmap string string)) :
  let unique_jobs := ScraperAgent._remove_duplicates jobs in
  unique_jobs = keep_first ScraperAgent.job_key jobs
  /\ unique_jobs `sublist_of` jobs
  /\ NoDup (map ScraperAgent.job_key unique_jobs)
  /\ (forall k, k ∈ map ScraperAgent.job_key jobs
                <-> k ∈ map ScraperAgent.job_key unique_jobs).
Proof. apply dedup_loop_first_occurrences. Qed.

(** C3, at the listings of the specification's scenario.  The two listings
    have one identity key (lower-cased, trimmed title and company); the
    deduplicator of [SimpleScraperAgent] returns one entry for them, the
    deduplicator of [ScraperAgent], whose key is not trimmed, returns
    both. *)
Theorem scraper_agent_keeps_untrimmed_duplicate :
  identity_key "Backend Engineer" "Acme"
  = identity_key "backend engineer" " Acme "
  /\ SimpleScraperAgent._remove_duplicates
       [listing "Backend Engineer" "Acme"; listing "backend engineer" " Acme "]
     = [listing "Backend Engineer" "Acme"]
  /\ ScraperAgent._remove_duplicates
       [job_dict "Backend Engineer" "Acme"; job_dict "backend engineer" " Acme "]
     = [job_dict "Backend Engineer" "Acme"; job_dict "backend engineer" " Acme "].
Proof.
  split; [vm_compute; reflexivity|]. split; [vm_compute; reflexivity|].
  vm_compute. reflexivity.
Qed.

End DedupClaims.

(** ** The dispatcher *)

Section DispatchLoop.
Import AutoApply AutoApplySpec.

Implicit Types (tasks : list task) (st : loop_state).

(** One iteration: stop at the quota, else process the task and go on. *)
Lemma apply_loop_cons max_per_day user_id t tasks st :
  apply_loop max_per_day user_id (t :: tasks) st
  = if (max_per_day <=? ls_today st)%Z then st
    else apply_loop max_per_day user_id tasks (after_task user_id st t).
Proof.
  destruct t as [job answer]; simpl.
  destruct (max_per_day <=? ls_today st)%Z; [done|].
  unfold _check_existing_application, after_task, task_success,
    result_of_task, calls_of_task; simpl.
  destruct answer as [|[r|e]]; simpl.
  - by rewrite app_nil_r.
  - destruct (success r); simpl; rewrite <- ?app_assoc; done.
  - rewrite <- app_assoc. done.
Qed.

(** The loop, task by task: it processes a prefix of the tasks, whose length
    the quota decides, and each processed task contributes its own result
    and its own calls. *)
Lemma apply_loop_prefix max_per_day user_id tasks st :
  let n := processed max_per_day (ls_today st) tasks in
  let done_tasks := take n tasks in
  apply_loop max_per_day user_id tasks st
  = LoopState (ls_today st + successes done_tasks)
              (ls_results st ++ omap result_of_task done_tasks)
              (ls_calls st ++ concat (map (calls_of_task user_id) done_tasks)).
Proof.
  revert st. induction tasks as [|t rest IH]; intros st.
  - destruct st; simpl. unfold successes; simpl.
    by rewrite Z.add_0_r, !app_nil_r.
  - rewrite apply_loop_cons. simpl processed.
    destruct (max_per_day <=? ls_today st)%Z eqn:Hq.
    + destruct st; simpl. unfold successes; simpl.
      by rewrite Z.add_0_r, !app_nil_r.
    + rewrite IH. cbv zeta. unfold after_task; simpl.
      unfold successes; simpl.
      destruct (task_success t), (result_of_task t); simpl;
        rewrite <- ?app_assoc; simpl;
        match goal with
        | |- LoopState ?x _ _ = LoopState ?y _ _ => replace x with y by lia
        end; reflexivity.
Qed.

Lemma processed_le max_per_day today tasks :
  (processed max_per_day today tasks <= length tasks)%nat.
Proof.
  revert today. induction tasks as [|t rest IH]; intros today; simpl; [lia|].
  destruct (max_per_day <=? today)%Z; [lia|]. specialize (IH (if task_success t then today + 1 else today)%Z). lia.
Qed.

Lemma successes_cons t tasks :
  successes (t :: tasks)
  = ((if task_success t then 1 else 0) + successes tasks)%Z.
Proof. unfold successes; simpl. destruct (task_success t); simpl; lia. Qed.

Lemma successes_nonneg tasks : (0 <= successes tasks)%Z.
Proof. unfold successes. lia. Qed.

(** The quota bounds the successes of the processed prefix. *)
Lemma processed_successes_bound max_per_day today tasks :
  (today + successes (take (processed max_per_day today tasks) tasks)
   <= Z.max today max_per_day)%Z.
Proof.
  revert today. induction tasks as [|t rest IH]; intros today; simpl.
  - unfold successes; simpl. lia.
  - destruct (max_per_day <=? today)%Z eqn:Hq; simpl.
    + unfold successes; simpl. lia.
    + apply Z.leb_gt in Hq. rewrite successes_cons.
      specialize (IH (if task_success t then today + 1 else today)%Z).
      destruct (task_success t); lia.
Qed.

(** With room for every success the loop processes every task. *)
Lemma processed_all max_per_day today tasks :
  (today + successes tasks < max_per_day)%Z ->
  processed max_per_day today tasks = length tasks.
Proof.
  revert today. induction tasks as [|t rest IH]; intros today; simpl; [done|].
  rewrite successes_cons. intros Hroom.
  pose proof (successes_nonneg rest).
  destruct (max_per_day <=? today)%Z eqn:Hq.
  - apply Z.leb_le in Hq. destruct (task_success t); lia.
  - f_equal. apply IH. destruct (task_success t); lia.
Qed.

End DispatchLoop.

Section DispatchFacts.
Import AutoApply AutoApplySpec.

Implicit Types (a : agent) (c : collaborators) (tasks : list task).

(** A result is successful exactly when its task's submission succeeded. *)
Lemma successful_results tasks :
  successful (omap result_of_task tasks) = successes tasks.
Proof.
  unfold successful, successes. apply (f_equal Z.of_nat).
  induction tasks as [|[job [|[r|e]]] rest IH]; simpl; try assumption;
    [done|].
  unfold task_success in *; simpl.
  destruct (success r); simpl; [apply (f_equal S)|]; exact IH.
Qed.

(** [_record_application] is called once for each successful submission. *)
Lemma recorded_calls day user_id tasks :
  Z.of_nat (length (recorded day (concat (map (calls_of_task user_id) tasks))))
  = successes tasks.
Proof.
  unfold successes, recorded. apply (f_equal Z.of_nat).
  induction tasks as [|[job [|[r|e]]] rest IH]; simpl; try assumption;
    [done|].
  unfold calls_of_task, task_success in *; simpl.
  destruct (success r); simpl; [apply (f_equal S)|]; exact IH.
Qed.

Lemma recorded_app day calls1 calls2 :
  recorded day (calls1 ++ calls2) = recorded day calls1 ++ recorded day calls2.
Proof. unfold recorded. apply omap_app. Qed.

Lemma omap_result_length tasks :
  (length (omap result_of_task tasks) <= length tasks)%nat.
Proof.
  induction tasks as [|t rest IH]; simpl; [done|].
  unfold omap in IH.
  destruct (result_of_task t); simpl; lia.
Qed.

(** A dispatch of a ready agent below its quota, in closed form. *)
Lemma auto_apply_ready a user_id c tasks :
  ready a c ->
  (applications_today a < max_applications_per_day a)%Z ->
  let done_tasks :=
    take (processed (max_applications_per_day a) (applications_today a) tasks)
         tasks in
  auto_apply_to_jobs a user_id c tasks
  = Dispatched
      (Agent (browser a) (applications_today a + successes done_tasks)
             (max_applications_per_day a))
      ([CGetProfile user_id; CLog "auto_apply_start"]
       ++ concat (map (calls_of_task user_id) done_tasks)
       ++ [CLog "auto_apply_complete"])
      (Ok (omap result_of_task done_tasks)).
Proof.
  intros (Hb & [p Hp] & Hs & Hc) Hq done_tasks.
  unfold auto_apply_to_jobs.
  apply Z.leb_gt in Hq. rewrite Hq, Hp, Hs, Hc.
  rewrite apply_loop_prefix; simpl. fold done_tasks.
  destruct (browser a); done.
Qed.

(** A dispatch at or above the quota does nothing. *)
Lemma auto_apply_exhausted a user_id c tasks :
  browser a <> NoBrowser ->
  (max_applications_per_day a <= applications_today a)%Z ->
  auto_apply_to_jobs a user_id c tasks = Dispatched a [] (Ok []).
Proof.
  intros Hb Hq. unfold auto_apply_to_jobs.
  apply Z.leb_le in Hq. rewrite Hq. by destruct (browser a).
Qed.

(** What a dispatch does to the agent, whatever the collaborators answer. *)
Lemma auto_apply_agent a user_id c tasks :
  let d := auto_apply_to_jobs a user_id c tasks in
  browser (d_agent d) = browser a
  /\ max_applications_per_day (d_agent d) = max_applications_per_day a
  /\ applications_today (d_agent d)
     = (applications_today a + Z.of_nat (length (recorded 0 (d_calls d))))%Z
  /\ (applications_today a <= applications_today (d_agent d))%Z
  /\ (applications_today (d_agent d)
      <= Z.max (applications_today a) (max_applications_per_day a))%Z
  /\ (forall results, d_return d = Ok results ->
        applications_today (d_agent d)
        = (applications_today a + successful results)%Z).
Proof.
  unfold auto_apply_to_jobs.
  assert (Hmap : successful
            (map (fun t : task =>
                    AppResult (fst t) false
                      [("status", "failed");
                       ("reason", "Auto-apply not available")]) tasks) = 0%Z).
  { unfold successful. induction tasks; simpl; [done|assumption]. }
  assert (Hidle : forall calls ret,
    recorded 0 calls = [] ->
    (forall results, ret = Ok results -> successful results = 0%Z) ->
    let d := Dispatched a calls ret in
    browser (d_agent d) = browser a
    /\ max_applications_per_day (d_agent d) = max_applications_per_day a
    /\ applications_today (d_agent d)
       = (applications_today a + Z.of_nat (length (recorded 0 (d_calls d))))%Z
    /\ (applications_today a <= applications_today (d_agent d))%Z
    /\ (applications_today (d_agent d)
        <= Z.max (applications_today a) (max_applications_per_day a))%Z
    /\ (forall results, d_return d = Ok results ->
          applications_today (d_agent d)
          = (applications_today a + successful results)%Z)).
  { intros calls ret Hrec Hret; simpl. rewrite Hrec; simpl.
    repeat split; try lia. intros results Hr. rewrite (Hret _ Hr). lia. }
  assert (Hgo :
    let d :=
      if (max_applications_per_day a <=? applications_today a)%Z
      then Dispatched a [] (Ok [])
      else
        match user_profile c with
        | Raise e => Dispatched a [CGetProfile user_id] (Raise e)
        | Ok None =>
            Dispatched a [CGetProfile user_id] (Raise (profile_not_found user_id))
        | Ok (Some _) =>
            let calls := [CGetProfile user_id; CLog "auto_apply_start"] in
            match log_start c with
            | Raise e => Dispatched a calls (Raise e)
            | Ok _ =>
                let st := apply_loop (max_applications_per_day a) user_id
                            tasks (LoopState (applications_today a) [] calls) in
                let a' := Agent (browser a) (ls_today st)
                            (max_applications_per_day a) in
                let calls' := ls_calls st ++ [CLog "auto_apply_complete"] in
                match log_complete c with
                | Raise e => Dispatched a' calls' (Raise e)
                | Ok _ => Dispatched a' calls' (Ok (ls_results st))
                end
            end
        end in
    browser (d_agent d) = browser a
    /\ max_applications_per_day (d_agent d) = max_applications_per_day a
    /\ applications_today (d_agent d)
       = (applications_today a + Z.of_nat (length (recorded 0 (d_calls d))))%Z
    /\ (applications_today a <= applications_today (d_agent d))%Z
    /\ (applications_today (d_agent d)
        <= Z.max (applications_today a) (max_applications_per_day a))%Z
    /\ (forall results, d_return d = Ok results ->
          applications_today (d_agent d)
          = (applications_today a + successful results)%Z)).
  { destruct (max_applications_per_day a <=? applications_today a)%Z eqn:Hq.
    { apply Hidle; [done|]. by intros results [= <-]. }
    destruct (user_profile c) as [[p|]|e0]; [|by apply Hidle|by apply Hidle].
    destruct (log_start c) as [[]|e]; [|by apply Hidle].
    cbv zeta. rewrite apply_loop_prefix. cbv zeta.
    cbn [ls_today ls_results ls_calls].
    set (done_tasks := take _ tasks).
    pose proof (processed_successes_bound (max_applications_per_day a)
                  (applications_today a) tasks) as Hbound.
    fold done_tasks in Hbound.
    pose proof (successes_nonneg done_tasks) as Hnn.
    assert (Hrec : forall tail,
      Z.of_nat (length (recorded 0
        (([CGetProfile user_id; CLog "auto_apply_start"]
          ++ concat (map (calls_of_task user_id) done_tasks)) ++ tail)))
      = (successes done_tasks + Z.of_nat (length (recorded 0 tail)))%Z).
    { intros tail. rewrite !recorded_app, !length_app, !Nat2Z.inj_add.
      rewrite recorded_calls. simpl. lia. }
    destruct (log_complete c) as [[]|e];
      cbn [d_agent d_calls d_return applications_today browser
           max_applications_per_day];
      rewrite Hrec; simpl; repeat split; try lia.
    - intros results [= <-]. by rewrite successful_results.
    - intros results [=]. }
  destruct (browser a) eqn:Hb; [|exact Hgo|exact Hgo].
  apply Hidle; [done|]. intros results [= <-]. exact Hmap.
Qed.

End DispatchFacts.

Section DispatchClaims.
Import AutoApply AutoApplySpec.

Implicit Types (a : agent) (c : collaborators) (tasks : list task).

Lemma omap_found_results tasks :
  forallb job_found tasks = true ->
  length (omap result_of_task tasks) = length tasks
  /\ (forall i t, tasks !! i = Some t ->
        omap result_of_task tasks !! i = result_of_task t).
Proof.
  induction tasks as [|[job answer] rest IH]; simpl; [by split|].
  intros [Hf Hrest]%andb_true_iff. destruct (IH Hrest) as [Hlen Hnth].
  destruct answer as [|[r|e]]; [discriminate| |];
    unfold result_of_task at 1 3; simpl; unfold omap in *;
    (split; [by rewrite Hlen|]); intros [|i] t Ht; simpl in *;
    try (injection Ht as <-; reflexivity); by apply Hnth.
Qed.

(** C5 (amended).  A ready dispatcher (browser or session, profile found,
    database logging) returns the results of a prefix of the tasks, in task
    order, at most one per task and each made from the answer to its own
    task: none for a job that is not found, the submission's result, or a
    failed result when the submission raises, after which the loop goes on.
    The prefix is the whole batch when the quota leaves room for every
    success, and then there is exactly one result per task when every job is
    found.  In particular three found tasks of which the second raises give
    three results, the first and third being those of their own
    submissions. *)
Theorem dispatch_results_per_task a user_id c tasks :
  ready a c ->
  let d := auto_apply_to_jobs a user_id c tasks in
  (exists n, (n <= length tasks)%nat
             /\ d_return d = Ok (omap result_of_task (take n tasks)))
  /\ (forall results, d_return d = Ok results ->
        (length results <= length tasks)%nat)
  /\ ((applications_today a + successes tasks
       < max_applications_per_day a)%Z ->
      d_return d = Ok (omap result_of_task tasks)
      /\ (forallb job_found tasks = true ->
          exists results,
            d_return d = Ok results
            /\ length results = length tasks
            /\ (forall i t, tasks !! i = Some t ->
                  results !! i = result_of_task t)))
  /\ (forall j1 j2 j3 r1 r3 e,
        tasks = [(j1, JobFound (Ok r1)); (j2, JobFound (Raise e));
                 (j3, JobFound (Ok r3))] ->
        (applications_today a + 2 < max_applications_per_day a)%Z ->
        d_return d = Ok [r1; failure_of j2 e; r3]).
Proof.
  intros Hready d.
  assert (Hbrowser : browser a <> NoBrowser) by apply Hready.
  assert (Hprefix : exists n, (n <= length tasks)%nat
            /\ d_return d = Ok (omap result_of_task (take n tasks))).
  { destruct (Z_lt_le_dec (applications_today a) (max_applications_per_day a))
      as [Hq|Hq].
    - exists (processed (max_applications_per_day a) (applications_today a)
                tasks).
      split; [apply processed_le|].
      unfold d. by rewrite auto_apply_ready.
    - exists 0%nat. split; [lia|].
      unfold d. by rewrite auto_apply_exhausted. }
  assert (Hroom : (applications_today a + successes tasks
                   < max_applications_per_day a)%Z ->
                  d_return d = Ok (omap result_of_task tasks)).
  { intros Hq. pose proof (successes_nonneg tasks).
    unfold d. rewrite auto_apply_ready by (done || lia).
    rewrite processed_all by done. by rewrite firstn_all. }
  split; [exact Hprefix|]. split; [|split].
  - destruct Hprefix as (n & Hn & Hret). intros results Hres.
    rewrite Hret in Hres. injection Hres as <-.
    etransitivity; [apply omap_result_length|]. rewrite length_take. lia.
  - intros Hq. split; [by apply Hroom|]. intros Hfound.
    exists (omap result_of_task tasks).
    split; [by apply Hroom|]. by apply omap_found_results.
  - intros j1 j2 j3 r1 r3 e Htasks Hq.
    rewrite Hroom; [by rewrite Htasks|].
    rewrite Htasks. unfold successes, task_success; simpl.
    destruct (success r1), (success r3); simpl; lia.
Qed.

Lemma dispatch_results_per_task_witness :
  d_return
    (auto_apply_to_jobs (Agent HttpSession 0 10) 1
       (Collab (Ok (Some "demo")) (Ok tt) (Ok tt))
       [(11%Z, JobFound (Ok (AppResult 11 true [("method", "email")])));
        (12%Z, JobFound (Raise (PyExn "RuntimeError" "letter failed")));
        (13%Z, JobFound (Ok (AppResult 13 false [("method", "http_form")])))])
  = Ok [AppResult 11 true [("method", "email")];
        failure_of 12 (PyExn "RuntimeError" "letter failed");
        AppResult 13 false [("method", "http_form")]].
Proof.
  assert (Hready : ready (Agent HttpSession 0 10)
                     (Collab (Ok (Some "demo")) (Ok tt) (Ok tt))).
  { repeat split; simpl; [discriminate | eexists; reflexivity]. }
  destruct (dispatch_results_per_task _ 1%Z _
              [(11%Z, JobFound (Ok (AppResult 11 true [("method", "email")])));
               (12%Z, JobFound (Raise (PyExn "RuntimeError" "letter failed")));
               (13%Z, JobFound (Ok (AppResult 13 false
                                      [("method", "http_form")])))] Hready)
    as (_ & _ & _ & Hscenario).
  apply (Hscenario 11%Z 12%Z 13%Z); [reflexivity | simpl; lia].
Defined.

(** C5, as stated, fails: a ready dispatcher returns two results for three
    tasks when the job of the second is not found, and none for three tasks
    when the quota is reached. *)
Lemma dispatch_not_one_result_per_task :
  let c := Collab (Ok (Some "demo")) (Ok tt) (Ok tt) in
  let r1 := AppResult 11 true [("method", "email")] in
  let r3 := AppResult 13 true [("method", "email")] in
  let tasks := [(11%Z, JobFound (Ok r1)); (12%Z, JobNotFound);
                (13%Z, JobFound (Ok r3))] in
  ready (Agent HttpSession 0 10) c
  /\ d_return (auto_apply_to_jobs (Agent HttpSession 0 10) 1 c tasks)
     = Ok [r1; r3]
  /\ d_return (auto_apply_to_jobs (Agent HttpSession 10 10) 1 c tasks) = Ok []
  /\ d_return (auto_apply_to_jobs (Agent HttpSession 9 10) 1 c tasks)
     = Ok [r1].
Proof.
  repeat split; try reflexivity; simpl; [discriminate | eexists; reflexivity].
Qed.

End DispatchClaims.

Section QuotaClaims.
Import AutoApply AutoApplySpec.

Implicit Types (a : agent) (c : collaborators) (tasks : list task) (w : world).

Lemma recorded_length_day day1 day2 calls :
  length (recorded day1 calls) = length (recorded day2 calls).
Proof.
  unfold recorded. induction calls as [|call rest IH]; simpl; [done|].
  unfold omap in IH. destruct call; simpl; by rewrite ?IH.
Qed.

Lemma successful_all_failed (results : list application_result) :
  Forall (fun r => success r = false) results -> successful results = 0%Z.
Proof.
  unfold successful. induction 1 as [|r rest Hr _ IH]; simpl; [done|].
  by rewrite Hr.
Qed.

(** One event: the counter grows by the number of applications booked. *)
Lemma run_event_counter w (e : event) :
  max_applications_per_day (w_agent (run_event w e))
  = max_applications_per_day (w_agent w)
  /\ (applications_today (w_agent (run_event w e))
      - applications_today (w_agent w)
      = Z.of_nat (length (w_booked (run_event w e)))
        - Z.of_nat (length (w_booked w)))%Z.
Proof.
  destruct e as [user_id c tasks|]; simpl; [|split; [done|lia]].
  destruct (auto_apply_agent (w_agent w) user_id c tasks)
    as (_ & Hmax & Hrec & _).
  rewrite Hmax, Hrec, length_app, Nat2Z.inj_add.
  rewrite (recorded_length_day (w_day w) 0). split; [done|lia].
Qed.

(** Over a history the counter grows by the number of applications booked,
    on whatever days; the ceiling stays. *)
Lemma run_events_counter w (es : list event) :
  let w' := run_events w es in
  max_applications_per_day (w_agent w') = max_applications_per_day (w_agent w)
  /\ (applications_today (w_agent w') - applications_today (w_agent w)
      = Z.of_nat (length (w_booked w')) - Z.of_nat (length (w_booked w)))%Z.
Proof.
  unfold run_events. revert w.
  induction es as [|e es IH]; intros w; simpl; [split; [done|lia]|].
  destruct (IH (run_event w e)) as [Hmax Hcount].
  destruct (run_event_counter w e) as [Hmax1 Hcount1].
  split; [congruence|lia].
Qed.

(** Within the life of the counter a dispatch does what a daily quota
    asks: at or above [max_applications_per_day] it calls no collaborator,
    attempts no submission and returns no successful result; it never
    changes the ceiling, and it adds to the counter exactly one for each
    successful submission (each [_record_application] call, each successful
    result of the returned list), so the counter never decreases and, once
    at most the ceiling, never exceeds it. *)
Lemma dispatch_counter a user_id c tasks :
  let d := auto_apply_to_jobs a user_id c tasks in
  max_applications_per_day (d_agent d) = max_applications_per_day a
  /\ ((max_applications_per_day a <= applications_today a)%Z ->
      d_agent d = a /\ d_calls d = []
      /\ (forall results, d_return d = Ok results ->
            successful results = 0%Z))
  /\ (forall results, d_return d = Ok results ->
        applications_today (d_agent d)
        = (applications_today a + successful results)%Z)
  /\ applications_today (d_agent d)
     = (applications_today a
        + Z.of_nat (length (recorded 0 (d_calls d))))%Z
  /\ (applications_today a <= applications_today (d_agent d))%Z
  /\ (applications_today (d_agent d)
      <= Z.max (applications_today a) (max_applications_per_day a))%Z.
Proof.
  intros d.
  destruct (auto_apply_agent a user_id c tasks)
    as (Hb & Hmax & Hrec & Hle & Hbound & Hres).
  fold d in Hb, Hmax, Hrec, Hle, Hbound, Hres.
  split; [exact Hmax|]. split; [|by repeat split].
  intros Hq.
  assert (Hd : d = Dispatched a [] (Ok []) \/ browser a = NoBrowser).
  { destruct (browser a) eqn:Hbr; [by right| |];
      left; apply auto_apply_exhausted; (done || congruence). }
  destruct Hd as [Hd|Hnb].
  - rewrite Hd; simpl. repeat split. by intros results [= <-].
  - unfold d, auto_apply_to_jobs. rewrite Hnb; simpl. repeat split.
    intros results [= <-]. apply successful_all_failed.
    apply Forall_forall. intros r Hr.
    apply list_elem_of_In, in_map_iff in Hr as [t [<- _]]. reflexivity.
Qed.


End QuotaClaims.

(** ** The orchestrator *)

Section WorkflowFacts.
Import Supervisor WorkflowSpec.

Implicit Types (m : machine) (s : supervisor) (r : run) (e : event).

Lemma find_run_single id r r' :
  find_run id [r] = Some r' -> r' = r /\ r_id r = id.
Proof.
  unfold find_run; simpl. destruct (Nat.eqb (r_id r) id) eqn:Hid; [|done].
  intros [= <-]. split; [done|]. by apply Nat.eqb_eq.
Qed.

Lemma put_run_single r r' : r_id r' = r_id r -> put_run r' [r] = [r'].
Proof. intros Hid. unfold put_run; simpl. by rewrite Hid, Nat.eqb_refl. Qed.

Lemma drop_run_single r : drop_run (r_id r) [r] = [].
Proof. unfold drop_run; simpl. by rewrite Nat.eqb_refl. Qed.

Lemma suspend_runs_on s s' r r' :
  workflow_running s' = true -> r_id r' = r_id r ->
  runs_on r (suspend (Machine s [r]) s' r').
Proof.
  intros Hflag Hid. left. unfold suspend. cbn [m_runs fst snd m_sup].
  rewrite (put_run_single r r' Hid). eauto.
Qed.

Lemma finish_runs_on s r resp :
  resp <> Busy -> runs_on r (finish (Machine s [r]) r resp).
Proof.
  intros Hresp. right. exists resp. unfold finish. cbn [m_runs fst snd m_sup].
  rewrite drop_run_single. eauto.
Qed.

Lemma idle_runs_on s r :
  workflow_running s = true -> runs_on r (Machine s [r], None).
Proof. intros Hflag. left; simpl. eauto. Qed.

Lemma resume_single s r a :
  workflow_running s = true -> runs_on r (resume (Machine s [r]) r a).
Proof.
  intros Hflag. unfold resume; simpl.
  destruct (r_pc r) eqn:Hpc, a as [[[]|e']|[n|e'] now|ph];
    first [ by apply idle_runs_on
          | by apply finish_runs_on
          | by apply suspend_runs_on ].
Qed.

(** A suspended call that gets the answer it awaits ends, or suspends again
    with fewer [await]s before it. *)
Lemma resume_progress s r a :
  workflow_running s = true -> awaited (r_pc r) a = true ->
  (exists s' r',
     resume (Machine s [r]) r a = (Machine s' [r'], None)
     /\ workflow_running s' = true /\ r_id r' = r_id r
     /\ (awaits_left (r_pc r') < awaits_left (r_pc r))%nat)
  \/ (exists resp,
        resume (Machine s [r]) r a
        = (Machine (set_running s false) [], Some (r_id r, resp))
        /\ resp <> Busy).
Proof.
  intros Hflag Hfit. unfold resume, suspend, finish, put_run, drop_run.
  cbn [m_sup m_runs map List.filter].
  destruct (r_pc r) eqn:Hpc, a as [[[]|e']|[n|e'] now|ph];
    try discriminate Hfit;
    cbn [at_pc r_id]; rewrite ?Nat.eqb_refl; cbn [negb];
    first [ right; eexists; split; [reflexivity|discriminate]
          | left; eexists; eexists; split; [reflexivity|];
            simpl; repeat split; first [done | lia] ].
Qed.

(** A running call whose collaborators answer comes to its end within the
    [await]s it has before it: it returns or raises, and the flag is
    cleared. *)
Lemma run_on_ends (env : pc -> answer) (fuel : nat) s r :
  (forall p, awaited p (env p) = true) ->
  workflow_running s = true ->
  (awaits_left (r_pc r) <= fuel)%nat ->
  exists s' resp,
    run_on fuel env (Machine s [r])
    = (Machine s' [], Some (r_id r, resp))
    /\ resp <> Busy /\ workflow_running s' = false.
Proof.
  intros Henv. revert s r.
  induction fuel as [|fuel IH]; intros s r Hflag Hleft.
  { destruct (r_pc r); simpl in Hleft; lia. }
  cbn [run_on m_runs step]. unfold find_run. cbn [find].
  rewrite Nat.eqb_refl.
  destruct (resume_progress s r (env (r_pc r)) Hflag (Henv _))
    as [(s' & r' & -> & Hflag' & Hid & Hless)|(resp & -> & Hresp)].
  - destruct (IH s' r' Hflag') as (s'' & resp & Hrun & Hresp & Hclear); [lia|].
    rewrite Hrun, Hid. eauto.
  - eexists; eexists. split; [reflexivity|]. split; [done|].
    by destruct s.
Qed.

Lemma step_exclusive m e : exclusive m -> exclusive (fst (step m e)).
Proof.
  intros [[Hflag [r Hruns]]|[Hflag Hruns]]; destruct e as [id|id a]; simpl.
  - rewrite Hflag; simpl. left. eauto.
  - rewrite Hruns.
    destruct (find_run id [r]) as [r'|] eqn:Hfind; simpl;
      [|left; split; [done|exists r; by rewrite Hruns]].
    apply find_run_single in Hfind as [-> Hid].
    pose proof (resume_single (m_sup m) r a Hflag) as Hres.
    destruct m as [s runs]; simpl in *. subst runs.
    destruct Hres as [(_ & Hf & r' & Hr & _)|(resp & _ & _ & Hf & Hr)].
    + left. eauto.
    + right. eauto.
  - rewrite Hflag; simpl. left. rewrite Hruns. eauto.
  - rewrite Hruns; simpl. right. by rewrite Hruns.
Qed.

Lemma exec_exclusive m (es : list event) : exclusive m -> exclusive (exec m es).
Proof.
  unfold exec. revert m. induction es as [|e es IH]; intros m Hm; simpl;
    [done|]. apply IH, step_exclusive, Hm.
Qed.

End WorkflowFacts.

Section WorkflowClaims.
Import Supervisor WorkflowSpec.

(** A run from start to end: the second trigger is answered busy, the
    answers of the collaborators carry the first call to its return, and the
    flag is clear again. *)
Example workflow_run_sample :
  let es := [Trigger 1; Resume 1 (ALog (Ok tt)); Trigger 2;
             Resume 1 (AScrape (Ok 12%Z) 1000);
             Resume 1 (APhase (Phase true [("jobs_scored", 12%Z)]));
             Resume 1 (APhase (Phase true [("total_applications", 0%Z)]))] in
  let m := exec (Machine new_supervisor []) es in
  running m = [1%nat]
  /\ snd (step (exec (Machine new_supervisor []) [Trigger 1]) (Trigger 2))
     = Some (2%nat, Busy)
  /\ snd (step m (Resume 1 (ALog (Ok tt))))
     = Some (1%nat,
             Completed (Some (Phase true [("jobs_found", 12%Z)]))
                       (Some (Phase true [("jobs_scored", 12%Z)]))
                       None
                       (Some (Phase true [("total_applications", 0%Z)])))
  /\ workflow_running (m_sup (fst (step m (Resume 1 (ALog (Ok tt)))))) = false
  /\ last_scraping_time (m_sup m) = Some 1000%Z.
Proof. vm_compute. repeat split; reflexivity. Qed.

(** C6.  From a supervisor whose flag is clear, after any sequence of
    triggers and collaborator answers: at most one call of
    [trigger_job_search] is running, and the flag is set exactly when one
    is; a trigger that arrives while the flag is set is answered busy and
    leaves the whole state, the running call included, as it was; a trigger
    that arrives while the flag is clear starts the one running call;
    whenever a call ends, with a result, a failure or an exception, it was
    the running call and the flag is clear afterwards; and the running call
    does end: whatever its collaborators answer to its [await]s, results or
    exceptions, after at most six answers it has returned or raised and the
    flag is clear. *)
Theorem workflow_mutual_exclusion (s : supervisor) (es : list event) :
  workflow_running s = false ->
  let m := exec (Machine s []) es in
  (length (running m) <= 1)%nat
  /\ (workflow_running (m_sup m) = true <-> running m <> [])
  /\ (workflow_running (m_sup m) = true ->
      forall id, step m (Trigger id) = (m, Some (id, Busy)))
  /\ (workflow_running (m_sup m) = false ->
      forall id,
        snd (step m (Trigger id)) = None
        /\ running (fst (step m (Trigger id))) = [id]
        /\ workflow_running (m_sup (fst (step m (Trigger id)))) = true)
  /\ (forall id a m' id' resp,
        step m (Resume id a) = (m', Some (id', resp)) ->
        resp <> Busy /\ running m = [id']
        /\ workflow_running (m_sup m') = false /\ running m' = [])
  /\ (forall env : pc -> answer,
        (forall p, awaited p (env p) = true) ->
        workflow_running (m_sup m) = true ->
        exists m' id resp,
          run_on 6 env m = (m', Some (id, resp))
          /\ running m = [id] /\ resp <> Busy
          /\ workflow_running (m_sup m') = false /\ running m' = []).
Proof.
  intros Hclear m.
  assert (Hex : exclusive m).
  { apply exec_exclusive. right. by split. }
  split; [|split; [|split; [|split; [|split]]]].
  - destruct Hex as [[_ [r Hr]]|[_ Hr]]; unfold running; rewrite Hr; simpl; lia.
  - destruct Hex as [[Hf [r Hr]]|[Hf Hr]]; unfold running; rewrite Hr, Hf;
      simpl; split; done.
  - intros Hflag id. simpl. by rewrite Hflag.
  - intros Hflag id. simpl. rewrite Hflag; simpl.
    destruct Hex as [[Hf _]|[_ Hr]]; [congruence|].
    unfold running. rewrite Hr. by simpl.
  - intros id a m' id' resp Hstep. simpl in Hstep.
    destruct Hex as [[Hf [r Hr]]|[Hf Hr]]; rewrite Hr in Hstep;
      [|discriminate].
    destruct (find_run id [r]) as [r'|] eqn:Hfind; [|discriminate].
    apply find_run_single in Hfind as [-> Hid].
    pose proof (resume_single (m_sup m) r a Hf) as Hres.
    destruct m as [s0 runs]; simpl in *. subst runs.
    rewrite Hstep in Hres.
    destruct Hres as [(Hnone & _)|(resp' & Hout & Hnb & Hflag & Hruns)];
      [discriminate|].
    simpl in *. injection Hout as Hid' Hresp. subst id' resp'.
    unfold running. by rewrite Hruns.
  - intros env Henv Hflag.
    destruct Hex as [[_ [r Hr]]|[Hf _]]; [|congruence].
    destruct m as [s0 runs]; cbn [m_sup m_runs] in *. subst runs.
    destruct (run_on_ends env 6 s0 r Henv Hflag)
      as (s' & resp & Hrun & Hresp & Hdone).
    { destruct (r_pc r); simpl; lia. }
    exists (Machine s' []), (r_id r), resp. by rewrite Hrun.
Qed.

Lemma workflow_mutual_exclusion_witness :
  let m := exec (Machine new_supervisor [])
             [Trigger 1; Resume 1 (ALog (Ok tt)); Trigger 2] in
  let env := fun p : pc =>
    match p with
    | AtScraping => AScrape (Raise (PyExn "TimeoutError" "")) 1000
    | AtScoring | AtTracking => APhase (Phase true [])
    | AtLogComplete => ALog (Raise (PyExn "OperationalError" "database is locked"))
    | _ => ALog (Ok tt)
    end in
  step m (Trigger 3) = (m, Some (3%nat, Busy))
  /\ exists m' id resp,
       run_on 6 env m = (m', Some (id, resp))
       /\ running m = [id] /\ resp <> Busy
       /\ workflow_running (m_sup m') = false /\ running m' = [].
Proof.
  intros m env.
  destruct (workflow_mutual_exclusion new_supervisor
              [Trigger 1; Resume 1 (ALog (Ok tt)); Trigger 2] eq_refl)
    as (_ & _ & Hbusy & _ & _ & Hends).
  split; [apply Hbusy; reflexivity|].
  apply (Hends env); [|reflexivity].
  intros p. by destruct p.
Defined.

End WorkflowClaims.

Section ConfigurationClaims.
Import Supervisor.

Implicit Types (s : supervisor) (config_updates : gmap string value).

Lemma no_invalid_keys config_updates :
  dom config_updates ∖ valid_keys = ∅ <-> dom config_updates ⊆ valid_keys.
Proof.
  split.
  - intros Hempty x Hx.
    destruct (decide (x ∈ valid_keys)) as [|Hn]; [done|]. exfalso.
    assert (Hd : x ∈ dom config_updates ∖ valid_keys)
      by (apply elem_of_difference; done).
    rewrite Hempty in Hd. by apply not_elem_of_empty in Hd.
  - intros Hsub. apply set_eq. intros x. rewrite elem_of_difference. split.
    + intros [Hx Hn]. exfalso. apply Hn, Hsub, Hx.
    + intros Hx. by apply not_elem_of_empty in Hx.
Qed.

(** A rejected update: the supervisor is as before. *)
Lemma update_configuration_rejects s config_updates log :
  ~ dom config_updates ⊆ valid_keys ->
  update_configuration s config_updates log
  = (s, UpdateInvalidKeys (dom config_updates ∖ valid_keys)).
Proof.
  intros Hinvalid. unfold update_configuration.
  rewrite bool_decide_eq_false_2; [done|]. by rewrite no_invalid_keys.
Qed.

(** An accepted update: the entries of the update win over the old ones. *)
Lemma update_configuration_accepts s config_updates log :
  dom config_updates ⊆ valid_keys ->
  let s' := Sup (auto_mode_enabled s) (last_scraping_time s)
                (workflow_running s) (config_updates ∪ config s) in
  update_configuration s config_updates log
  = (s', match log with
         | Ok _ => UpdateOk "Configuration updated successfully" (config s')
         | Raise e => UpdateError e
         end).
Proof.
  intros Hvalid. unfold update_configuration.
  rewrite bool_decide_eq_true_2 by by rewrite no_invalid_keys.
  by destruct log.
Qed.

(** C8 (amended).  The recognized keys of [update_configuration] are
    [scraping_interval_hours], [scoring_threshold], [max_auto_applications],
    [auto_apply_enabled] and [follow_up_interval_days].  An update with a
    key outside this set is rejected whole: the supervisor and its
    configuration are left as they were.  An update with recognized keys
    only applies all of its entries and leaves the other entries as they
    were; it reports success unless the activity log raises, in which case
    the entries are applied and the error reported. *)
Theorem update_configuration_wholesale s config_updates log :
  let '(s', response) := update_configuration s config_updates log in
  valid_keys
  = {[ "scraping_interval_hours"; "scoring_threshold"; "max_auto_applications";
       "auto_apply_enabled"; "follow_up_interval_days" ]}
  /\ (~ dom config_updates ⊆ valid_keys ->
      s' = s /\ update_success response = false
      /\ response = UpdateInvalidKeys (dom config_updates ∖ valid_keys))
  /\ (dom config_updates ⊆ valid_keys ->
      (forall k v, config_updates !! k = Some v -> config s' !! k = Some v)
      /\ (forall k, config_updates !! k = None ->
            config s' !! k = config s !! k)
      /\ auto_mode_enabled s' = auto_mode_enabled s
      /\ last_scraping_time s' = last_scraping_time s
      /\ workflow_running s' = workflow_running s
      /\ (log = Ok tt ->
          response = UpdateOk "Configuration updated successfully" (config s')
          /\ update_success response = true)
      /\ (forall e, log = Raise e -> response = UpdateError e)).
Proof.
  destruct (update_configuration s config_updates log) as [s' response] eqn:Hu.
  split; [|split].
  - unfold valid_keys. simpl. set_solver.
  - intros Hinvalid.
    rewrite update_configuration_rejects in Hu by done.
    injection Hu as <- <-. done.
  - intros Hvalid.
    rewrite update_configuration_accepts in Hu by done.
    injection Hu as <- <-. simpl.
    split; [intros k v Hk; by apply lookup_union_Some_l|].
    split; [intros k Hk; by apply lookup_union_r|].
    split; [done|]. split; [done|]. split; [done|]. split.
    + intros ->. by split.
    + by intros e ->.
Qed.

Lemma update_configuration_wholesale_witness :
  let '(s', response) :=
    update_configuration new_supervisor
      {[ "auto_apply_enabled" := VBool true; "max_auto_applications" := VInt 3 ]}
      (Ok tt) in
  config s' !! "auto_apply_enabled" = Some (VBool true)
  /\ config s' !! "max_auto_applications" = Some (VInt 3)
  /\ config s' !! "scoring_threshold" = Some (VNum (7 # 10))
  /\ update_success response = true.
Proof.
  pose proof (update_configuration_wholesale new_supervisor
    {[ "auto_apply_enabled" := VBool true; "max_auto_applications" := VInt 3 ]}
    (Ok tt)) as H.
  destruct (update_configuration new_supervisor
    {[ "auto_apply_enabled" := VBool true; "max_auto_applications" := VInt 3 ]}
    (Ok tt)) as [s' response].
  destruct H as (_ & _ & H).
  destruct H as (Hset & Hkeep & _ & _ & _ & Hok & _).
  - apply (bool_decide_unpack _). vm_compute. exact I.
  - split; [apply Hset; reflexivity|].
    split; [apply Hset; reflexivity|].
    split; [rewrite Hkeep; reflexivity|]. by apply Hok.
Defined.

(** C8, as stated, fails: an update of [max_applications_per_day] alone, a
    key the claim counts as recognized, is rejected and changes nothing. *)
Lemma update_rejects_max_applications_per_day :
  let config_updates : gmap string value :=
    {[ "max_applications_per_day" := VInt 5 ]} in
  let '(s', response) :=
    update_configuration new_supervisor config_updates (Ok tt) in
  s' = new_supervisor
  /\ update_success response = false
  /\ response = UpdateInvalidKeys {[ "max_applications_per_day" ]}
  /\ config s' !! "max_applications_per_day" = None.
Proof.
  cbv zeta. rewrite update_configuration_rejects.
  - repeat split.
  - apply (bool_decide_unpack _). vm_compute. exact I.
Qed.

End ConfigurationClaims.

(** ** The result cache *)

Section CacheClaims.
Import PyStr SimpleSupervisor CacheSpec.

Implicit Types (s : supervisor) (p : search_params) (clk : clock).


Lemma is_cache_valid_age s key now cached :
  search_results_cache s !! key = Some cached ->
  _is_cache_valid s key now = true <-> (age now cached < max_cache_age s)%Z.
Proof.
  intros Hc. unfold _is_cache_valid, age. rewrite Hc. apply Z.ltb_lt.
Qed.

(** A search that raises after the entry has expired: a failure is returned
    and the supervisor, stale entry included, is as before. *)
Lemma trigger_job_search_raises s p clk e save cached :
  search_results_cache s !! _create_cache_key p = Some cached ->
  (max_cache_age s <= age (now_check clk) cached)%Z ->
  trigger_job_search s p clk (Raise e) save
  = Outcome s (SearchFailed (exn_msg e) p (now_error clk)) 1.
Proof.
  intros Hc Hold. unfold trigger_job_search.
  destruct (_is_cache_valid s (_create_cache_key p) (now_check clk)) eqn:Hv;
    [|done].
  apply (is_cache_valid_age _ _ _ _ Hc) in Hv. lia.
Qed.




End CacheClaims.

(** * Further properties of the code *)

(** ** The matcher: partial matches *)

Section PartialMatchFacts.
Import PyStr Matching MatchingSpec.

Implicit Types (user_skills required_skills ul : list string).

Lemma lower_ascii_idempotent (c : ascii) :
  lower_ascii (lower_ascii c) = lower_ascii c.
Proof. destruct c as [[] [] [] [] [] [] [] []]; reflexivity. Qed.

(** [s.lower().lower() == s.lower()] *)
Lemma lower_idempotent (s : string) : lower (lower s) = lower s.
Proof.
  induction s as [|c s IH]; simpl; [done|].
  by rewrite lower_ascii_idempotent, IH.
Qed.

Lemma lower_length (s : string) : String.length (lower s) = String.length s.
Proof. induction s as [|c s IH]; simpl; [done|]. by rewrite IH. Qed.

(** The relation behind a partial match is symmetric: a required skill is
    related to a profile skill exactly when the profile skill, were it
    required, is related to the required skill as a profile skill. *)
Theorem related_symmetric (a b : string) : related a b = related b a.
Proof.
  unfold related.
  destruct (mem a (dict_get skill_relationships b [])),
    (mem b (dict_get skill_relationships a [])),
    (3 <? String.length a)%nat, (3 <? String.length b)%nat,
    (contains b a), (contains a b); reflexivity.
Qed.

(** No list of the relationship graph holds the empty string. *)
Lemma no_empty_relative (k : string) :
  mem "" (dict_get skill_relationships k []) = false.
Proof.
  unfold skill_relationships, dict_get.
  repeat match goal with
         | |- mem _ (if ?b then _ else _) = _ => destruct b; [reflexivity|]
         end.
  reflexivity.
Qed.

Lemma not_related_empty (required_skill : string) :
  related required_skill "" = false.
Proof.
  unfold related. rewrite no_empty_relative. simpl.
  by rewrite orb_false_r, andb_false_r.
Qed.

(** [find_partial_skill_match] returns the first related skill of the
    list, and [None] exactly when no skill of the list is related. *)
Theorem find_partial_skill_match_first required_skill user_skills :
  match find_partial_skill_match required_skill user_skills with
  | Some user_skill =>
      exists before after,
        user_skills = before ++ user_skill :: after
        /\ related required_skill (lower user_skill) = true
        /\ Forall (fun u => related required_skill (lower u) = false) before
  | None =>
      Forall (fun u => related required_skill (lower u) = false) user_skills
  end.
Proof.
  induction user_skills as [|u rest IH]; simpl; [constructor|].
  destruct (related required_skill (lower u)) eqn:Hu.
  - exists [], rest. repeat split; [done|constructor].
  - destruct (find_partial_skill_match required_skill rest) as [found|].
    + destruct IH as (before & after & -> & Hrel & Hbefore).
      exists (u :: before), after. repeat split; [done|].
      by constructor.
    + by constructor.
Qed.

(** A partial match is never the empty string, so the truth test
    [if partial_match:] of [calculate_skill_match] loses no match. *)
Theorem find_partial_skill_match_nonempty required_skill user_skills found :
  find_partial_skill_match required_skill user_skills = Some found ->
  found <> "".
Proof.
  intros Hfound ->.
  pose proof (find_partial_skill_match_first required_skill user_skills) as H.
  rewrite Hfound in H. destruct H as (_ & _ & _ & Hrel & _).
  simpl in Hrel. by rewrite not_related_empty in Hrel.
Qed.

Lemma find_partial_skill_match_nonempty_witness :
  ("react" : string) <> "".
Proof.
  apply (find_partial_skill_match_nonempty "javascript" ["python"; "react"]).
  reflexivity.
Defined.

End PartialMatchFacts.

(** ** The matcher: how the score depends on the skills *)

Section SkillMatchFacts.
Import PyStr Matching MatchingSpec SkillMatchSpec.
Local Open Scope Q_scope.

Implicit Types (user_skills required_skills ul : list string).

(** The class of a required skill, told by membership and relatedness. *)
Lemma class_of_cases ul x :
  (class_of ul x = Exact <-> lower x ∈ ul)
  /\ (class_of ul x = Partial <-> (lower x ∉ ul) /\ some_related ul x)
  /\ (class_of ul x = Missing <-> (lower x ∉ ul) /\ ~ some_related ul x).
Proof.
  unfold class_of, mem, some_related.
  pose proof (find_partial_skill_match_first (lower x) ul) as Hfind.
  destruct (decide (lower x ∈ ul)) as [Hin|Hin].
  - rewrite (bool_decide_eq_true_2 _ Hin).
    repeat split; try done; by intros [? _].
  - rewrite (bool_decide_eq_false_2 _ Hin).
    destruct (find_partial_skill_match (lower x) ul) as [found|] eqn:Hf.
    + pose proof (find_partial_skill_match_nonempty _ _ _ Hf) as Hne.
      destruct Hfind as (before & after & -> & Hrel & _).
      assert (Hex : Exists (fun u => related (lower x) (lower u) = true)
                      (before ++ found :: after)).
      { apply Exists_app. right. by constructor. }
      destruct found as [|c found]; [done|].
      repeat split; try done. by intros [_ Hno].
    + assert (Hno : ~ Exists (fun u => related (lower x) (lower u) = true) ul).
      { intros Hex. apply Exists_exists in Hex as (u & Hu & Hrel).
        rewrite Forall_forall in Hfind. specialize (Hfind u Hu). congruence. }
      repeat split; try done. by intros [_ Hex].
Qed.

(** More user skills never lower the class of a required skill. *)
Lemma class_weight_mono ul1 ul2 x :
  ul1 ⊆ ul2 -> weight (class_of ul1 x) <= weight (class_of ul2 x).
Proof.
  intros Hsub.
  destruct (class_of_cases ul1 x) as (He1 & Hp1 & Hm1).
  destruct (class_of_cases ul2 x) as (He2 & Hp2 & Hm2).
  destruct (class_of ul1 x) eqn:H1.
  - assert (class_of ul2 x = Exact) as ->; [|lra].
    apply He2, Hsub, He1. done.
  - destruct (proj1 Hp1 eq_refl) as [_ Hex].
    destruct (class_of ul2 x) eqn:H2; simpl; try lra.
    destruct (proj1 Hm2 eq_refl) as [_ Hno]. exfalso. apply Hno.
    apply Exists_exists in Hex as (u & Hu & Hrel).
    apply Exists_exists. exists u. split; [by apply Hsub|done].
  - destruct (weight_bounds (class_of ul2 x)). simpl. lra.
Qed.

(** The score grows with the user skills: a profile that lists every skill
    of another profile, in any order and with any repetitions, scores at
    least as high against the same required skills. *)
Theorem skill_match_monotone_in_user_skills
    user_skills user_skills' required_skills :
  user_skills ⊆ user_skills' ->
  match_percentage (calculate_skill_match user_skills required_skills)
  <= match_percentage (calculate_skill_match user_skills' required_skills).
Proof.
  intros Hsub. apply match_percentage_pointwise; [done|].
  intros j y y' Hy Hy'. assert (y' = y) as -> by congruence.
  apply class_weight_mono. intros s Hs.
  apply list_elem_of_fmap in Hs as (u & -> & Hu).
  apply list_elem_of_fmap. exists u. split; [done|]. by apply Hsub.
Qed.

Lemma skill_match_monotone_in_user_skills_witness :
  match_percentage (calculate_skill_match ["react"] ["python"; "javascript"])
  <= match_percentage
       (calculate_skill_match ["python"; "react"] ["python"; "javascript"]).
Proof.
  apply skill_match_monotone_in_user_skills.
  intros s Hs. apply list_elem_of_In in Hs. apply list_elem_of_In.
  simpl in *. destruct Hs as [<-|[]]. right. left. reflexivity.
Defined.

(** The score does not depend on the order of the user skills, nor on
    their case. *)
Theorem skill_match_order_and_case user_skills user_skills' required_skills :
  user_skills ≡ₚ user_skills' ->
  match_percentage (calculate_skill_match user_skills required_skills)
  == match_percentage (calculate_skill_match user_skills' required_skills)
  /\ match_percentage
       (calculate_skill_match (map lower user_skills) required_skills)
     == match_percentage (calculate_skill_match user_skills required_skills).
Proof.
  intros Hperm. split.
  - apply Qle_antisym; apply skill_match_monotone_in_user_skills;
      intros s Hs; [by rewrite <- Hperm | by rewrite Hperm].
  - assert (Hl : map lower (map lower user_skills) = map lower user_skills).
    { rewrite map_map. apply map_ext. intros s. apply lower_idempotent. }
    rewrite !match_percentage_weight_sum.
    assert (Hw : forall r, weight_sum (map lower user_skills) r
                           = weight_sum user_skills r).
    { induction r as [|x r IH]; simpl; [done|].
      unfold classify at 1. rewrite Hl. fold (classify user_skills x).
      by rewrite IH. }
    by rewrite Hw.
Qed.

Lemma skill_match_order_and_case_witness :
  match_percentage (calculate_skill_match ["React"; "Python"] ["python"; "vue"])
  == match_percentage (calculate_skill_match ["Python"; "React"] ["python"; "vue"]).
Proof.
  apply (skill_match_order_and_case ["React"; "Python"] ["Python"; "React"]).
  apply perm_swap.
Defined.

End SkillMatchFacts.

Section SkillMatchExtremes.
Import PyStr Matching MatchingSpec SkillMatchSpec.
Local Open Scope Q_scope.

Implicit Types (user_skills required_skills : list string).

Lemma weight_one c : weight c == 1 -> c = Exact.
Proof. destruct c; simpl; [done| |]; intros H; lra. Qed.

Lemma weight_zero c : weight c == 0 -> c = Missing.
Proof. destruct c; simpl; [| |done]; intros H; lra. Qed.

Lemma weight_sum_full user_skills required_skills :
  weight_sum user_skills required_skills == Qlen required_skills
  <-> Forall (fun x => classify user_skills x = Exact) required_skills.
Proof.
  induction required_skills as [|x rest IH]; simpl.
  - split; [constructor | reflexivity].
  - rewrite Qlen_cons.
    destruct (weight_bounds (classify user_skills x)) as [_ Hw].
    destruct (weight_sum_bounds user_skills rest) as [_ Hs].
    split.
    + intros Heq. constructor.
      * apply weight_one. lra.
      * apply IH. lra.
    + intros Hall. inversion Hall as [|? ? Hx Hrest]; subst.
      rewrite Hx. simpl. apply IH in Hrest. lra.
Qed.

Lemma weight_sum_none user_skills required_skills :
  weight_sum user_skills required_skills == 0
  <-> Forall (fun x => classify user_skills x = Missing) required_skills.
Proof.
  induction required_skills as [|x rest IH]; simpl.
  - split; [constructor | reflexivity].
  - destruct (weight_bounds (classify user_skills x)) as [Hw _].
    destruct (weight_sum_bounds user_skills rest) as [Hs _].
    split.
    + intros Heq. constructor.
      * apply weight_zero. lra.
      * apply IH. lra.
    + intros Hall. inversion Hall as [|? ? Hx Hrest]; subst.
      rewrite Hx. simpl. apply IH in Hrest. lra.
Qed.

Lemma filter_all_iff {A} (f : A -> bool) (l : list A) :
  List.filter f l = l <-> Forall (fun x => f x = true) l.
Proof.
  split.
  - intros Heq. apply Forall_forall. intros x Hx.
    apply list_elem_of_In in Hx. rewrite <- Heq in Hx.
    by apply filter_In in Hx as [_ Hf].
  - induction 1 as [|x rest Hx _ IH]; simpl; [done|]. by rewrite Hx, IH.
Qed.

(** Against a non-empty list of required skills the percentage is 100
    exactly when every required skill is an exact match, which is when its
    lower-case form is among the lower-cased user skills, and it is 0
    exactly when every required skill is missing. *)
Theorem skill_match_extremes user_skills required_skills :
  required_skills <> [] ->
  let m := calculate_skill_match user_skills required_skills in
  (match_percentage m == 100 <-> exact_matches m = required_skills)
  /\ (exact_matches m = required_skills
      <-> Forall (fun x => lower x ∈ map lower user_skills) required_skills)
  /\ (match_percentage m == 0 <-> missing_skills m = required_skills).
Proof.
  intros Hne m.
  destruct (skill_match_lists user_skills required_skills) as (He & _ & Hm).
  fold m in He, Hm. rewrite He, Hm, !filter_all_iff.
  unfold m. rewrite match_percentage_weight_sum.
  assert (Hn : inject_Z (Z.of_nat (Nat.max (length required_skills) 1))
               = Qlen required_skills).
  { unfold Qlen. do 2 f_equal. destruct required_skills; simpl; [done|lia]. }
  rewrite Hn.
  assert (Hpos : 0 < Qlen required_skills).
  { rewrite <- Hn. apply max_one_positive. }
  set (n := Qlen required_skills) in *.
  set (ws := weight_sum user_skills required_skills).
  assert (Hfull : 100 * (ws / n) == 100 <-> ws == n).
  { split; intros H.
    - assert (Hd : ws / n == 1) by lra.
      rewrite <- (Qmult_div_r ws n) by lra. rewrite Hd. ring.
    - rewrite H. field. lra. }
  assert (Hnone : 100 * (ws / n) == 0 <-> ws == 0).
  { split; intros H.
    - assert (Hd : ws / n == 0) by lra.
      rewrite <- (Qmult_div_r ws n) by lra. rewrite Hd. ring.
    - rewrite H. field. lra. }
  split; [|split].
  - rewrite Hfull. unfold ws, n. rewrite weight_sum_full.
    apply Forall_iff. intros x. unfold has_class.
    by rewrite bool_decide_eq_true.
  - apply Forall_iff. intros x. unfold has_class.
    rewrite bool_decide_eq_true. apply class_of_cases.
  - rewrite Hnone. unfold ws. rewrite weight_sum_none.
    apply Forall_iff. intros x. unfold has_class.
    by rewrite bool_decide_eq_true.
Qed.

Lemma skill_match_extremes_witness :
  match_percentage (calculate_skill_match ["Python"; "docker"] ["python"; "Docker"])
  == 100.
Proof.
  destruct (skill_match_extremes ["Python"; "docker"] ["python"; "Docker"])
    as (Hfull & _); [discriminate|].
  apply Hfull. reflexivity.
Defined.

Lemma no_user_skill_no_class c required_skills :
  c <> Missing -> List.filter (has_class [] c) required_skills = [].
Proof.
  intros Hc. induction required_skills as [|x rest IH]; simpl; [done|].
  unfold has_class at 1. rewrite bool_decide_eq_false_2; [exact IH|].
  unfold classify, class_of; simpl. congruence.
Qed.

(** With no required skill the result is the empty breakdown with
    percentage 0 and [total_required] 1; with no user skill every required
    skill is missing. *)
Theorem skill_match_empty_inputs user_skills required_skills :
  (let m := calculate_skill_match user_skills [] in
   exact_matches m = [] /\ partial_matches m = [] /\ missing_skills m = []
   /\ total_required m = 1%nat /\ match_percentage m == 0)
  /\ missing_skills (calculate_skill_match [] required_skills) = required_skills
  /\ exact_matches (calculate_skill_match [] required_skills) = []
  /\ partial_matches (calculate_skill_match [] required_skills) = []
  /\ match_percentage (calculate_skill_match [] required_skills) == 0.
Proof.
  split; [repeat split; reflexivity|].
  destruct (skill_match_lists [] required_skills) as (He & Hp & Hm).
  pose proof (fun c => no_user_skill_no_class c required_skills) as Hall.
  assert (Hmiss : List.filter (has_class [] Missing) required_skills
                  = required_skills).
  { apply filter_all_iff, Forall_forall. intros x _.
    unfold has_class. by apply bool_decide_eq_true. }
  rewrite Hm, He. rewrite (Hall Exact) by done.
  split; [exact Hmiss|]. split; [done|].
  assert (Hpart : partial_matches (calculate_skill_match [] required_skills) = []).
  { unfold partial_required in Hp. rewrite (Hall Partial) in Hp by done.
    by apply map_eq_nil in Hp. }
  split; [exact Hpart|].
  pose proof (match_percentage_score [] required_skills) as Hs.
  cbv zeta in Hs. rewrite Hs. unfold score_of.
  rewrite He, (Hall Exact), Hpart by done.
  unfold Qlen; simpl. unfold Qdiv. ring.
Qed.

End SkillMatchExtremes.

(** ** Location similarity *)

Section LocationFacts.
Import PyStr Location.

Example location_similarity_samples :
  calculate_location_similarity (Some " Berlin ") (Some "berlin") = 1%Q
  /\ calculate_location_similarity (Some "Berlin, Germany") (Some "berlin")
     = (8 # 10)%Q
  /\ calculate_location_similarity (Some "Berlin, Germany")
       (Some "Munich , germany") = (6 # 10)%Q
  /\ calculate_location_similarity (Some "Berlin, DE") (Some "Munich, DE")
     = 0%Q
  /\ calculate_location_similarity (Some "Berlin") None = 0%Q.
Proof. vm_compute. repeat split; reflexivity. Qed.

Lemma existsb_swap {A B} (f : A -> B -> bool) (l1 : list A) (l2 : list B) :
  existsb (fun x => existsb (fun y => f x y) l2) l1
  = existsb (fun y => existsb (fun x => f x y) l1) l2.
Proof.
  apply eq_true_iff_eq. rewrite !existsb_exists. split.
  - intros (x & Hx & (y & Hy & Hf)%existsb_exists).
    exists y. split; [done|]. apply existsb_exists. eauto.
  - intros (y & Hy & (x & Hx & Hf)%existsb_exists).
    exists x. split; [done|]. apply existsb_exists. eauto.
Qed.

Lemma existsb_pointwise {A} (f g : A -> bool) (l : list A) :
  (forall x, f x = g x) -> existsb f l = existsb g l.
Proof. intros Hfg. induction l as [|x l IH]; simpl; [done|]. by rewrite Hfg, IH. Qed.

Lemma shared_part_symmetric parts1 parts2 :
  shared_part parts1 parts2 = shared_part parts2 parts1.
Proof.
  unfold shared_part. rewrite existsb_swap.
  apply existsb_pointwise. intros p2. apply existsb_pointwise. intros p1.
  destruct (String.eqb_spec p1 p2) as [->|Hne].
  - by rewrite String.eqb_refl.
  - destruct (String.eqb_spec p2 p1) as [->|]; done.
Qed.

Lemma separator_loop_symmetric seps loc1 loc2 :
  separator_loop seps loc1 loc2 = separator_loop seps loc2 loc1.
Proof.
  induction seps as [|sep rest IH]; simpl; [done|].
  rewrite (shared_part_symmetric (map strip (split_on sep loc1))).
  rewrite (andb_comm (has_char sep loc1)). by rewrite IH.
Qed.

(** Location similarity is symmetric. *)
Theorem location_similarity_symmetric (location1 location2 : option string) :
  calculate_location_similarity location1 location2
  = calculate_location_similarity location2 location1.
Proof.
  unfold calculate_location_similarity.
  rewrite (orb_comm (Extract.falsy location1)).
  destruct (Extract.falsy location2 || Extract.falsy location1); [done|].
  set (loc1 := strip (lower (Extract.text_of location1))).
  set (loc2 := strip (lower (Extract.text_of location2))).
  rewrite (String.eqb_sym loc1 loc2).
  rewrite (orb_comm (contains loc2 loc1)).
  by rewrite separator_loop_symmetric.
Qed.

End LocationFacts.

Section LocationTiers.
Import PyStr Location.

Lemma separator_loop_value seps loc1 loc2 :
  separator_loop seps loc1 loc2 = None
  \/ separator_loop seps loc1 loc2 = Some (6 # 10)%Q.
Proof.
  induction seps as [|sep rest IH]; simpl; [by left|].
  destruct (_ && _ && _); [by right|exact IH].
Qed.

(** Location similarity takes one of four values; it is 0 when a location
    is missing or empty, and it is 1 exactly when both locations are given
    and agree after lower-casing and trimming. *)
Theorem location_similarity_tiers (location1 location2 : option string) :
  let v := calculate_location_similarity location1 location2 in
  (v = 0%Q \/ v = (6 # 10)%Q \/ v = (8 # 10)%Q \/ v = 1%Q)
  /\ (Extract.falsy location1 = true \/ Extract.falsy location2 = true ->
      v = 0%Q)
  /\ (v = 1%Q
      <-> Extract.falsy location1 = false /\ Extract.falsy location2 = false
          /\ strip (lower (Extract.text_of location1))
             = strip (lower (Extract.text_of location2))).
Proof.
  unfold calculate_location_similarity.
  destruct (Extract.falsy location1), (Extract.falsy location2); cbn [orb];
    try (split; [by left|split; [done|split; [done|by intros (? & ? & ?)]]]).
  set (loc1 := strip (lower (Extract.text_of location1))).
  set (loc2 := strip (lower (Extract.text_of location2))).
  destruct (String.eqb_spec loc1 loc2) as [Heq|Hne].
  { split; [by repeat right|]. split; [by intros [|]|]. by split. }
  destruct (contains loc2 loc1 || contains loc1 loc2).
  { split; [by right; right; left|]. split; [by intros [|]|].
    split; [done|by intros (_ & _ & ?)]. }
  destruct (separator_loop_value separators loc1 loc2) as [->| ->]; simpl.
  - split; [by left|]. split; [by intros [|]|].
    split; [done|by intros (_ & _ & ?)].
  - split; [by right; left|]. split; [by intros [|]|].
    split; [done|by intros (_ & _ & ?)].
Qed.

Lemma location_similarity_tiers_witness :
  calculate_location_similarity (Some "  New York") (Some "new york ") = 1%Q.
Proof.
  destruct (location_similarity_tiers (Some "  New York") (Some "new york "))
    as (_ & _ & Hone).
  apply Hone. repeat split; reflexivity.
Defined.

End LocationTiers.

(** ** Feature extraction: what is found *)

Section ExtractMeaning.
Import PyStr Regex Extract ExtractSpec ExtractMeaningSpec.

Lemma any_pattern_meaning patterns text :
  forallb compilable patterns = true ->
  any_pattern patterns text = Ok (existsb (pattern_matches text) patterns).
Proof.
  induction patterns as [|p rest IH]; simpl; [done|].
  intros [Hp Hrest]%andb_true_iff.
  unfold re_search, pattern_matches, compilable in *.
  destruct (compile p) as [r|]; [|discriminate]. simpl.
  destruct (search r text); simpl; [done|]. by apply IH.
Qed.

Lemma scan_catalog_meaning catalog text found :
  catalog_compiles catalog = true ->
  scan_catalog catalog text found = Ok (found ++ matching_names catalog text).
Proof.
  revert found. induction catalog as [|[name patterns] rest IH];
    intros found; simpl.
  - intros _. unfold matching_names; simpl. by rewrite app_nil_r.
  - intros [Hp Hrest]%andb_true_iff. simpl in Hp.
    rewrite (any_pattern_meaning patterns text Hp); simpl.
    rewrite (IH _ Hrest). unfold matching_names; simpl.
    destruct (existsb (pattern_matches text) patterns); simpl;
      by rewrite <- ?app_assoc.
Qed.

Lemma first_size_meaning catalog text :
  catalog_compiles catalog = true ->
  first_size catalog text = Ok (head (matching_names catalog text)).
Proof.
  induction catalog as [|[name patterns] rest IH]; simpl; [done|].
  intros [Hp Hrest]%andb_true_iff. simpl in Hp.
  rewrite (any_pattern_meaning patterns text Hp); simpl.
  unfold matching_names; simpl.
  destruct (existsb (pattern_matches text) patterns); simpl; [done|].
  by apply IH.
Qed.

Lemma catalog_names_nodup (catalog : list (string * list string)) text :
  NoDup (map fst catalog) -> NoDup (matching_names catalog text).
Proof.
  unfold matching_names. induction catalog as [|[name ps] rest IH]; simpl;
    [constructor|].
  intros Hnd. apply NoDup_cons in Hnd as [Hname Hrest].
  destruct (existsb (pattern_matches text) ps); simpl; [|by apply IH].
  apply NoDup_cons. split; [|by apply IH].
  intros Hin. apply Hname.
  apply list_elem_of_fmap in Hin as ([n ps'] & -> & Hin).
  apply list_elem_of_fmap. exists (n, ps'). split; [done|].
  apply list_elem_of_In in Hin. apply filter_In in Hin as [Hin _].
  by apply list_elem_of_In.
Qed.

Lemma falsy_lower (text : string) :
  falsy (Some (lower text)) = falsy (Some text).
Proof. by destruct text. Qed.

(** The benefits found in a text are the benefits of the catalog one of
    whose patterns matches the lower-cased text, each once and in the order
    of the catalog. *)
Theorem extract_benefits_meaning (text : string) :
  text <> "" ->
  extract_benefits_from_text (Some text)
  = Ok (matching_names benefit_patterns (lower text))
  /\ NoDup (matching_names benefit_patterns (lower text))
  /\ matching_names benefit_patterns (lower text)
     `sublist_of` map fst benefit_patterns.
Proof.
  intros Hne. unfold extract_benefits_from_text.
  destruct text as [|c text]; [done|]. cbn [falsy text_of].
  rewrite (scan_catalog_meaning _ _ _ benefit_patterns_compile).
  split; [done|]. split.
  - apply catalog_names_nodup. apply (bool_decide_unpack _). vm_compute. exact I.
  - unfold matching_names. generalize benefit_patterns. intros l.
    induction l as [|e l IH]; simpl; [done|].
    destruct (existsb _ _); simpl;
      [by apply sublist_skip | by apply sublist_cons].
Qed.

Lemma extract_benefits_meaning_witness :
  extract_benefits_from_text (Some "Equity and a 401k")
  = Ok (matching_names benefit_patterns "equity and a 401k").
Proof.
  apply (extract_benefits_meaning "Equity and a 401k"). discriminate.
Defined.

End ExtractMeaning.

Section ExtractMeaningMore.
Import PyStr Regex Extract ExtractSpec ExtractMeaningSpec.

Lemma elem_of_matching_names (catalog : list (string * list string))
    (text name : string) :
  name ∈ matching_names catalog text
  <-> exists patterns,
        (name, patterns) ∈ catalog
        /\ existsb (pattern_matches text) patterns = true.
Proof.
  unfold matching_names. split.
  - intros ([n patterns] & -> & Hin)%list_elem_of_fmap. exists patterns.
    apply list_elem_of_In, filter_In in Hin as [Hin Hm].
    split; [by apply list_elem_of_In|done].
  - intros (patterns & Hin & Hm). apply list_elem_of_fmap.
    exists (name, patterns).
    split; [done|]. apply list_elem_of_In, filter_In.
    split; [by apply list_elem_of_In|done].
Qed.

(** The skills found in a text are the skills of the catalog one of whose
    patterns matches the lower-cased text, each once; their order is that
    of a set and tells nothing. *)
Theorem extract_skills_meaning (text : string) :
  text <> "" ->
  exists found_skills,
    extract_skills_from_job_text (Some text) = Ok found_skills
    /\ found_skills ≡ₚ matching_names skill_patterns (lower text)
    /\ NoDup found_skills
    /\ (forall skill,
          skill ∈ found_skills
          <-> exists patterns,
                (skill, patterns) ∈ skill_patterns
                /\ existsb (pattern_matches (lower text)) patterns = true).
Proof.
  intros Hne. unfold extract_skills_from_job_text.
  destruct text as [|c text]; [done|]. cbn [falsy text_of].
  set (t := lower (String c text)).
  rewrite (scan_catalog_meaning _ _ _ skill_patterns_compile).
  unfold bind. rewrite app_nil_l.
  assert (Hnd : NoDup (matching_names skill_patterns t)).
  { apply catalog_names_nodup. apply (bool_decide_unpack _). vm_compute.
    exact I. }
  assert (Hperm : list_of_set (matching_names skill_patterns t)
                  ≡ₚ matching_names skill_patterns t).
  { unfold list_of_set. by apply elements_list_to_set. }
  eexists. split; [reflexivity|]. split; [exact Hperm|].
  split; [unfold list_of_set; apply NoDup_elements|].
  intros skill. rewrite Hperm. apply elem_of_matching_names.
Qed.

Lemma extract_skills_meaning_witness :
  exists found_skills,
    extract_skills_from_job_text (Some "Rust and Go") = Ok found_skills
    /\ found_skills ≡ₚ matching_names skill_patterns "rust and go".
Proof.
  destruct (extract_skills_meaning "Rust and Go") as (found & Hf & Hp & _);
    [discriminate|].
  exists found. split; assumption.
Defined.

(** The company size found in a text is the first size of the catalog one
    of whose patterns matches the lower-cased text, and none when no
    pattern of the catalog matches. *)
Theorem extract_company_size_meaning (text : string) :
  text <> "" ->
  extract_company_size_from_text (Some text)
  = Ok (head (matching_names size_patterns (lower text)))
  /\ (extract_company_size_from_text (Some text) = Ok None
      <-> Forall (fun entry =>
                    existsb (pattern_matches (lower text)) (snd entry) = false)
                 size_patterns).
Proof.
  intros Hne. unfold extract_company_size_from_text.
  destruct text as [|c text]; [done|]. cbn [falsy text_of].
  set (t := lower (String c text)).
  rewrite (first_size_meaning _ _ size_patterns_compile).
  split; [done|]. unfold matching_names. generalize size_patterns.
  intros l. induction l as [|[name ps] l IH]; simpl.
  - split; [constructor|done].
  - destruct (existsb (pattern_matches t) ps) eqn:Hm; simpl.
    + split; [discriminate|]. intros Hall.
      apply Forall_cons in Hall as [Hf _]. simpl in Hf. congruence.
    + rewrite IH. split; [by constructor|].
      intros Hall. by apply Forall_cons in Hall as [_ ?].
Qed.

Lemma extract_company_size_meaning_witness :
  extract_company_size_from_text (Some "A small company")
  = Ok (head (matching_names size_patterns "a small company")).
Proof.
  apply (extract_company_size_meaning "A small company"). discriminate.
Defined.

(** The three extractors do not tell upper case from lower case. *)
Theorem extraction_ignores_case (text : string) :
  extract_skills_from_job_text (Some (lower text))
  = extract_skills_from_job_text (Some text)
  /\ extract_benefits_from_text (Some (lower text))
     = extract_benefits_from_text (Some text)
  /\ extract_company_size_from_text (Some (lower text))
     = extract_company_size_from_text (Some text).
Proof.
  unfold extract_skills_from_job_text, extract_benefits_from_text,
    extract_company_size_from_text.
  rewrite !falsy_lower. cbn [text_of]. rewrite !lower_idempotent. done.
Qed.

End ExtractMeaningMore.

(** ** Deduplication: repeated and duplicate-free input *)

Section DedupMore.
Import Dedup DedupSpec.
Context {A : Type} (key : A -> string).

Implicit Types (jobs pre : list A).

(** Jobs with pairwise distinct keys, none met before, are all kept. *)
Lemma keep_first_from_distinct pre jobs :
  NoDup (map key jobs) ->
  (forall k, k ∈ map key jobs -> k ∉ map key pre) ->
  keep_first_from key pre jobs = jobs.
Proof.
  revert pre. induction jobs as [|job rest IH]; intros pre Hnd Hnew; simpl;
    [done|].
  apply NoDup_cons in Hnd as [Hjob Hrest].
  rewrite bool_decide_eq_false_2 by (apply Hnew; simpl; left).
  simpl. f_equal. apply IH; [done|].
  intros k Hk. rewrite map_app. simpl. intros [Hpre|Hj]%elem_of_app.
  - by apply (Hnew k); [simpl; right|].
  - apply list_elem_of_singleton in Hj as ->. by apply Hjob.
Qed.

(** The loop never lengthens the list, keeps a list without duplicate keys
    as it is, and so changes nothing when it is run a second time. *)
Lemma dedup_loop_idempotent jobs :
  let dedup := fun l => dedup_loop key l ∅ [] in
  (length (dedup jobs) <= length jobs)%nat
  /\ (NoDup (map key jobs) -> dedup jobs = jobs)
  /\ dedup (dedup jobs) = dedup jobs.
Proof.
  intros dedup.
  assert (Hfix : forall l, NoDup (map key l) -> dedup l = l).
  { intros l Hnd. unfold dedup.
    rewrite (dedup_loop_keep_first key l [] ∅ []) by done. simpl.
    apply keep_first_from_distinct; [done|]. intros k _ Hk. inversion Hk. }
  destruct (dedup_loop_first_occurrences key jobs) as (_ & Hsub & Hnd & _).
  split; [by apply sublist_length|]. split; [apply Hfix|].
  by apply Hfix.
Qed.

End DedupMore.

Section DedupMoreClaims.
Import Dedup DedupSpec.

(** Both deduplicators are idempotent, never lengthen their input, and
    return a list without duplicate keys as it is. *)
Theorem remove_duplicates_idempotent :
  (forall jobs : list SimpleScraperAgent.JobListing,
     let dedup := SimpleScraperAgent._remove_duplicates in
     (length (dedup jobs) <= length jobs)%nat
     /\ (NoDup (map SimpleScraperAgent.job_key jobs) -> dedup jobs = jobs)
     /\ dedup (dedup jobs) = dedup jobs)
  /\ (forall jobs : list (gmap string string),
        let dedup := ScraperAgent._remove_duplicates in
        (length (dedup jobs) <= length jobs)%nat
        /\ (NoDup (map ScraperAgent.job_key jobs) -> dedup jobs = jobs)
        /\ dedup (dedup jobs) = dedup jobs).
Proof.
  split; intros jobs; apply dedup_loop_idempotent.
Qed.

Lemma remove_duplicates_idempotent_witness :
  SimpleScraperAgent._remove_duplicates
    [listing "Backend Engineer" "Acme"; listing "Data Engineer" "Acme"]
  = [listing "Backend Engineer" "Acme"; listing "Data Engineer" "Acme"].
Proof.
  destruct remove_duplicates_idempotent as [Hsimple _].
  apply Hsimple. apply (bool_decide_unpack _). vm_compute. exact I.
Defined.

End DedupMoreClaims.

(** ** Choosing and running an application method *)

Section ApplyMethodFacts.
Import PyStr AutoApply AutoApplySpec ApplyMethod.

Example apply_to_job_samples :
  let ans := Answers (Ok "Dear Hiring Manager") (Ok 200%Z) (Ok tt)
                     (AppResult 0 true []) in
  _apply_to_job HttpSession
    (Job 7 "remoteok" (Some "mailto:hr@acme.com?subject=Job") "Dev" "Acme") ans
  = Ok (AppResult 7 true
          [("method", "email");
           ("message", "Application sent via email to hr@acme.com");
           ("cover_letter", "Dear Hiring Manager")])
  /\ _apply_to_job HttpSession
       (Job 8 "linkedin" (Some "https://www.linkedin.com/jobs/8") "Dev" "Acme")
       ans
     = Ok (AppResult 8 false
             [("error",
               "LinkedIn applications require manual login - please apply manually");
              ("method", "http_linkedin");
              ("manual_application_required", "True");
              ("cover_letter", "Dear Hiring Manager")])
  /\ _determine_application_method HttpSession
       (Job 9 "x" (Some "https://acme.com/contact?to=mailto:hr@acme.com") "" "")
     = Ok "email"
  /\ _determine_application_method PlaywrightBrowser
       (Job 9 "indeed" (Some "mailto:hr@acme.com") "" "") = Ok "indeed"
  /\ _determine_application_method PlaywrightBrowser (Job 9 "x" (Some "") "" "")
     = Ok "manual".
Proof. vm_compute. repeat split; try reflexivity. Qed.

End ApplyMethodFacts.

Section HttpSessionFacts.
Import PyStr AutoApply AutoApplySpec ApplyMethod HttpSessionSpec.

Implicit Types (j : job) (ans : answers) (a : agent) (c : collaborators).

Lemma prefix_contains (p u : string) :
  String.prefix p u = true -> contains u p = true.
Proof. intros Hp. destruct u; cbn [contains]; by rewrite Hp. Qed.

Lemma http_form_fails j get : success (_apply_http_form j get) = false.
Proof.
  unfold _apply_http_form.
  destruct (apply_url j) as [[|ch url]|]; try reflexivity.
  destruct (contains _ "mailto:"); [reflexivity|].
  destruct get as [status|e]; [|reflexivity].
  destruct (negb _); [reflexivity|].
  destruct (contains _ "linkedin.com"); [reflexivity|].
  destruct (contains _ "indeed.com"); reflexivity.
Qed.

Lemma via_email_success j send :
  success (_apply_via_email j send) = true
  <-> starts_with_mailto (apply_url j) = true /\ send = Ok tt.
Proof.
  unfold _apply_via_email, starts_with_mailto.
  destruct (apply_url j) as [url|]; [|by split; [|intros [? _]]].
  destruct (String.prefix "mailto:" url); simpl;
    [|by split; [|intros [? _]]].
  destruct send as [[]|e]; simpl; split; try done. by intros [_ ?].
Qed.

(** With the HTTP session, which is what [initialize] sets up, a submission
    returns a result for the job unless the URL is null or the letter
    cannot be written, and the result is successful exactly when the URL
    starts with [mailto:] and the e-mail is sent: a web form is never
    submitted. *)
Theorem http_session_success j ans :
  (forall r, _apply_to_job HttpSession j ans = Ok r ->
     job_id r = id j
     /\ (success r = true
         <-> starts_with_mailto (apply_url j) = true
             /\ mail_send ans = Ok tt))
  /\ ((exists r, _apply_to_job HttpSession j ans = Ok r)
      <-> apply_url j <> None /\ exists letter, cover_letter ans = Ok letter).
Proof.
  unfold _apply_to_job, _determine_application_method, mailto_in.
  destruct (apply_url j) as [url|] eqn:Hurl; simpl.
  2:{ split; [done|]. split; [by intros [? ?]|by intros [? _]]. }
  destruct (cover_letter ans) as [letter|e]; simpl.
  2:{ split; [done|]. split; [by intros [? ?]|by intros [_ [? ?]]]. }
  split; [|split; [by split; [|eexists]|by eexists]].
  intros r [= <-]. simpl.
  destruct (contains url "mailto:") eqn:Hc; unfold run_handler; simpl.
  - split.
    + unfold _apply_via_email. rewrite Hurl.
      destruct (negb _); [done|]. by destruct (mail_send ans).
    + rewrite via_email_success. by rewrite Hurl.
  - split.
    + unfold _apply_http_form, failed. rewrite Hurl.
      destruct url as [|ch url]; [done|]. rewrite Hc.
      destruct (http_get ans) as [status|e]; [|done].
      destruct (negb _); [done|].
      destruct (contains _ "linkedin.com"); [done|].
      by destruct (contains _ "indeed.com").
    + rewrite http_form_fails. unfold starts_with_mailto.
      split; [done|]. intros [Hp _].
      apply prefix_contains in Hp. congruence.
Qed.

Lemma http_session_success_witness :
  success (AppResult 7 true
             [("method", "email");
              ("message", "Application sent via email to hr@acme.com");
              ("cover_letter", "Dear Hiring Manager")]) = true
  <-> starts_with_mailto (Some "mailto:hr@acme.com") = true
      /\ (Ok tt : result unit) = Ok tt.
Proof.
  destruct (http_session_success
              (Job 7 "remoteok" (Some "mailto:hr@acme.com") "Dev" "Acme")
              (Answers (Ok "Dear Hiring Manager") (Ok 200%Z) (Ok tt)
                       (AppResult 0 true []))) as [Hres _].
  apply (Hres _ eq_refl).
Defined.

Lemma successes_take_le tasks n :
  (0 <= successes (take n tasks) <= successes tasks)%Z.
Proof.
  split; [apply successes_nonneg|].
  revert n. induction tasks as [|t rest IH]; intros n.
  - rewrite take_nil. lia.
  - destruct n as [|n]; simpl.
    + pose proof (successes_nonneg (t :: rest)). unfold successes at 1.
      simpl. lia.
    + rewrite !successes_cons. specialize (IH n). lia.
Qed.

(** A dispatch with the HTTP session in which no job has a URL that
    starts with [mailto:] leaves the counter where it was and returns no
    successful result. *)
Theorem web_form_jobs_never_counted a user_id c
    (jobs : list (job * answers)) :
  ready a c ->
  browser a = HttpSession ->
  Forall (fun ja => starts_with_mailto (apply_url (fst ja)) = false) jobs ->
  let tasks := map (fun ja => task_of HttpSession (fst ja) (snd ja)) jobs in
  let d := auto_apply_to_jobs a user_id c tasks in
  d_agent d = a
  /\ exists results, d_return d = Ok results /\ successful results = 0%Z.
Proof.
  intros Hready Hb Hjobs tasks d.
  assert (Hnone : successes tasks = 0%Z).
  { unfold tasks, successes. change 0%Z with (Z.of_nat 0).
    apply (f_equal Z.of_nat). clear d tasks.
    induction Hjobs as [|[j ans] rest Hj _ IH]; simpl; [done|].
    assert (Ht : task_success (task_of HttpSession j ans) = false).
    { unfold task_success, task_of; simpl.
      destruct (_apply_to_job HttpSession j ans) as [r|e] eqn:Hr; [|done].
      destruct (http_session_success j ans) as [Hres _].
      destruct (Hres r Hr) as [_ Hs].
      destruct (success r); [|done].
      destruct (proj1 Hs eq_refl) as [Hm _]. simpl in Hj. congruence. }
    rewrite Ht. exact IH. }
  destruct (Z_lt_le_dec (applications_today a) (max_applications_per_day a))
    as [Hq|Hq].
  - unfold d. rewrite auto_apply_ready by done. simpl.
    set (done_tasks := take _ tasks).
    pose proof (successes_take_le tasks
      (processed (max_applications_per_day a) (applications_today a) tasks))
      as Hle.
    fold done_tasks in Hle.
    assert (Hz : successes done_tasks = 0%Z) by lia.
    rewrite Hz, Z.add_0_r. split; [by destruct a; simpl in *; subst|].
    eexists. split; [reflexivity|]. by rewrite successful_results.
  - unfold d. rewrite auto_apply_exhausted by (done || congruence).
    split; [done|]. by exists [].
Qed.

Lemma web_form_jobs_never_counted_witness :
  let a := Agent HttpSession 0 10 in
  let ans := Answers (Ok "Dear Hiring Manager") (Ok 200%Z) (Ok tt)
                     (AppResult 0 true []) in
  let j := Job 8 "remoteok" (Some "https://acme.com/apply") "Dev" "Acme" in
  d_agent (auto_apply_to_jobs a 1 (Collab (Ok (Some "demo")) (Ok tt) (Ok tt))
             [task_of HttpSession j ans]) = a.
Proof.
  intros a ans j.
  apply (web_form_jobs_never_counted a 1%Z
           (Collab (Ok (Some "demo")) (Ok tt) (Ok tt)) [(j, ans)]).
  - repeat split; simpl; [discriminate | eexists; reflexivity].
  - reflexivity.
  - repeat constructor.
Defined.

End HttpSessionFacts.

(** ** The dispatcher: when it cannot run *)

Section DispatchEdges.
Import AutoApply AutoApplySpec.

Implicit Types (a : agent) (c : collaborators) (tasks : list task).

(** Without a browser or session each job gets a failed result, in order,
    and nothing else happens: no call, no change of the agent. *)
Theorem dispatch_unavailable a user_id c tasks :
  browser a = NoBrowser ->
  let d := auto_apply_to_jobs a user_id c tasks in
  d_agent d = a /\ d_calls d = []
  /\ exists results,
       d_return d = Ok results
       /\ map job_id results = map fst tasks
       /\ Forall (fun r => success r = false) results.
Proof.
  intros Hb. unfold auto_apply_to_jobs. rewrite Hb. simpl.
  split; [done|]. split; [done|]. eexists. split; [reflexivity|]. split.
  - rewrite map_map. simpl. done.
  - apply Forall_forall. intros r Hr.
    apply list_elem_of_In, in_map_iff in Hr as [t [<- _]]. done.
Qed.

Lemma dispatch_unavailable_witness :
  d_return (auto_apply_to_jobs (Agent NoBrowser 0 10) 1
              (Collab (Ok None) (Raise (PyExn "" "")) (Raise (PyExn "" "")))
              [(5%Z, JobNotFound)])
  = Ok [AppResult 5 false
          [("status", "failed"); ("reason", "Auto-apply not available")]].
Proof.
  destruct (dispatch_unavailable (Agent NoBrowser 0 10) 1%Z
              (Collab (Ok None) (Raise (PyExn "" "")) (Raise (PyExn "" "")))
              [(5%Z, JobNotFound)] eq_refl) as (_ & _ & Hres).
  reflexivity.
Defined.

(** The exceptions of a dispatch.  Below the quota an exception of the
    profile lookup is raised again, a missing profile raises [ValueError]
    with the user's id in its message, and a failing start log raises its
    exception, all before any job is fetched and without a change of the
    agent; at the quota the empty list is returned before the profile is
    looked up.  A failing end log raises after the loop: the results are
    lost, while the counter has counted the applications made. *)
Theorem dispatch_exceptions a user_id c tasks :
  browser a <> NoBrowser ->
  let d := auto_apply_to_jobs a user_id c tasks in
  ((max_applications_per_day a <= applications_today a)%Z ->
   d = Dispatched a [] (Ok []))
  /\ ((applications_today a < max_applications_per_day a)%Z ->
      (forall e, user_profile c = Raise e ->
         d = Dispatched a [CGetProfile user_id] (Raise e))
      /\ (user_profile c = Ok None ->
          d = Dispatched a [CGetProfile user_id]
                (Raise (PyExn "ValueError"
                          ("User profile not found for user_id: "
                           +:+ str_of_int user_id))))
      /\ (forall e profile,
            user_profile c = Ok (Some profile) -> log_start c = Raise e ->
            d = Dispatched a [CGetProfile user_id; CLog "auto_apply_start"]
                  (Raise e))
      /\ (forall e profile,
            user_profile c = Ok (Some profile) -> log_start c = Ok tt ->
            log_complete c = Raise e ->
            d_return d = Raise e
            /\ applications_today (d_agent d)
               = (applications_today a
                  + successes
                      (take (processed (max_applications_per_day a)
                               (applications_today a) tasks) tasks))%Z)).
Proof.
  intros Hb d. split.
  - intros Hq. by apply auto_apply_exhausted.
  - intros Hq. apply Z.leb_gt in Hq. unfold d, auto_apply_to_jobs.
    rewrite Hq. split; [|split; [|split]].
    + intros e ->. by destruct (browser a).
    + intros ->. by destruct (browser a).
    + intros e p -> ->. by destruct (browser a).
    + intros e p -> -> ->. rewrite apply_loop_prefix. cbv zeta.
      by destruct (browser a).
Qed.

Lemma dispatch_exceptions_witness :
  auto_apply_to_jobs (Agent HttpSession 0 10) 1
    (Collab (Ok None) (Ok tt) (Ok tt)) [(5%Z, JobNotFound)]
  = Dispatched (Agent HttpSession 0 10) [CGetProfile 1]
      (Raise (PyExn "ValueError" "User profile not found for user_id: 1")).
Proof.
  destruct (dispatch_exceptions (Agent HttpSession 0 10) 1%Z
              (Collab (Ok None) (Ok tt) (Ok tt)) [(5%Z, JobNotFound)])
    as (_ & Hbelow); [discriminate|].
  destruct Hbelow as (_ & Hprofile & _); [simpl; lia|].
  apply Hprofile. reflexivity.
Defined.

End DispatchEdges.

(** ** Applying to one job by hand *)

Section ManualApplyFacts.
Import AutoApply AutoApplySpec ManualApply.

Implicit Types (a : agent) (c : collaborators).

(** A manual application reports success exactly when the dispatcher was
    ready and below its quota and the submission of the job succeeded; the
    counter goes up by one exactly when the submission was made and
    succeeded, be the end log written or not. *)
Theorem apply_to_job_success a user_id job c answer :
  let '(a', response) := apply_to_job a user_id job c answer in
  (ap_success response = true
   <-> ready a c
       /\ (applications_today a < max_applications_per_day a)%Z
       /\ exists r, answer = JobFound (Ok r) /\ success r = true)
  /\ (applications_today a' = (applications_today a + 1)%Z
      <-> browser a <> NoBrowser
          /\ (applications_today a < max_applications_per_day a)%Z
          /\ (exists profile, user_profile c = Ok (Some profile))
          /\ log_start c = Ok tt
          /\ exists r, answer = JobFound (Ok r) /\ success r = true)
  /\ (applications_today a' = applications_today a
      \/ applications_today a' = (applications_today a + 1)%Z).
Proof.
  unfold apply_to_job, auto_apply_to_jobs, ready.
  cbn [apply_loop ls_today ls_results ls_calls].
  unfold _check_existing_application.
  destruct (max_applications_per_day a <=? applications_today a)%Z eqn:Hq;
    [ apply Z.leb_le in Hq | apply Z.leb_gt in Hq ];
    destruct (browser a) eqn:Hb, (user_profile c) as [[p|]|e0],
      (log_start c) as [[]|e1], (log_complete c) as [[]|e2],
      answer as [|[r|e3]]; try destruct (success r) eqn:Hs;
    simpl; rewrite ?Hs; simpl;
    (split; [split|split; [split|]]).
  all: try lia.
  all: try discriminate.
  all: try (first [by left | by right]).
  all: try (intros ((? & [? ?] & ? & ?) & ? & r' & Hr & Hs'));
    try discriminate; try lia; try (injection Hr as <-; congruence).
  all: try (intros (? & ? & [? ?] & ? & r' & Hr & Hs'));
    try discriminate; try lia; try (injection Hr as <-; congruence).
  all: try (intros _; repeat split; eauto; discriminate).
  all: try congruence.
Qed.

Lemma apply_to_job_success_witness :
  ap_success
    (snd (apply_to_job (Agent HttpSession 0 10) 1 7
            (Collab (Ok (Some "demo")) (Ok tt) (Ok tt))
            (JobFound (Ok (AppResult 7 true [("method", "email")])))))
  = true.
Proof.
  pose proof (apply_to_job_success (Agent HttpSession 0 10) 1 7
                (Collab (Ok (Some "demo")) (Ok tt) (Ok tt))
                (JobFound (Ok (AppResult 7 true [("method", "email")]))))
    as H.
  destruct (apply_to_job (Agent HttpSession 0 10) 1 7
              (Collab (Ok (Some "demo")) (Ok tt) (Ok tt))
              (JobFound (Ok (AppResult 7 true [("method", "email")]))))
    as [a' response].
  destruct H as (Hs & _). apply Hs.
  repeat split; simpl; try discriminate; try lia; eauto.
Defined.

End ManualApplyFacts.

(** ** The supervisor: health, configuration, runs *)

Section SupervisorMoreFacts.
Import PyStr Supervisor SupervisorMore.

(** The supervisor is healthy exactly when the overall health reads
    healthy; the health reads degraded exactly when three of the four
    agents are healthy, and unhealthy when fewer are. *)
Theorem overall_health_levels (h : agents_health) :
  (is_healthy h = true <-> _calculate_overall_health h = "healthy")
  /\ (_calculate_overall_health h = "healthy" <-> healthy_count h = 4%nat)
  /\ (_calculate_overall_health h = "degraded" <-> healthy_count h = 3%nat)
  /\ (_calculate_overall_health h = "unhealthy" <-> (healthy_count h <= 2)%nat).
Proof.
  destruct h as [[] [] [] []]; vm_compute;
    repeat split; intros; try discriminate; try lia; try reflexivity.
Qed.

(** The keys of the configuration never change: after any series of
    updates, accepted or rejected, the configuration of a new supervisor has
    exactly the five recognized keys. *)
Theorem configuration_keys_invariant
    (updates : list (gmap string value * result unit)) :
  dom (config (update_all new_supervisor updates)) = valid_keys.
Proof.
  unfold update_all.
  assert (Hstart : dom (config new_supervisor) = valid_keys).
  { apply (bool_decide_unpack _). vm_compute. exact I. }
  revert Hstart. generalize new_supervisor.
  induction updates as [|[u log] rest IH]; intros s Hs; simpl; [done|].
  apply IH. unfold update_configuration.
  case_bool_decide as Hvalid; [|done].
  assert (Hsub : dom u ⊆ valid_keys).
  { intros k Hk. destruct (decide (k ∈ valid_keys)) as [|Hn]; [done|].
    assert (Hd : k ∈ dom u ∖ valid_keys) by (apply elem_of_difference; done).
    rewrite Hvalid in Hd. by apply not_elem_of_empty in Hd. }
  destruct log; simpl; rewrite dom_union_L, Hs;
    apply set_eq; intros k; rewrite elem_of_union; split;
    try (intros [Hk|Hk]; [by apply Hsub|done]); by right.
Qed.

End SupervisorMoreFacts.

Section WorkflowRunFacts.
Import PyStr Supervisor SupervisorMore WorkflowRunSpec.

(** No phase failure aborts a run.  Started on a clear flag, a call whose
    two activity-log calls succeed goes through scraping, scoring and
    tracking whatever they answer and returns the completed result with the
    result of every phase, the auto-apply phase being run exactly when
    [auto_apply_enabled] is true; the flag is clear afterwards, the time of
    the last scraping is set exactly when the scraper answered, and the
    summary reports success exactly when scraping, scoring and tracking all
    succeeded. *)
Theorem workflow_run_completes (s : supervisor) (id : nat)
    (scrape : result Z) (utcnow : Z) (scoring tracking : phase_result) :
  workflow_running s = false ->
  let m := exec (Machine s [])
             [Trigger id; Resume id (ALog (Ok tt));
              Resume id (AScrape scrape utcnow); Resume id (APhase scoring);
              Resume id (APhase tracking)] in
  let autoapply :=
    if truthy (default (VBool false) (config s !! "auto_apply_enabled"))
    then Some autoapply_phase_result else None in
  step m (Resume id (ALog (Ok tt)))
  = (Machine (Sup (auto_mode_enabled s)
                  (match scrape with
                   | Ok _ => Some utcnow
                   | Raise _ => last_scraping_time s
                   end) false (config s)) [],
     Some (id, Completed (Some (scraping_result scrape)) (Some scoring)
                         autoapply (Some tracking)))
  /\ (summary_success
        (_generate_workflow_summary (scraping_result scrape) scoring autoapply
           tracking) = true
      <-> (exists jobs_found, scrape = Ok jobs_found)
          /\ ph_success scoring = true /\ ph_success tracking = true).
Proof.
  intros Hclear m autoapply. split.
  - unfold m, exec. destruct s as [auto last running cfg].
    simpl in Hclear. subst running.
    unfold autoapply. clear m autoapply.
    destruct scrape as [n|e];
      repeat (progress (cbn -[truthy lookup]; rewrite ?Nat.eqb_refl));
      unfold finish, drop_run, set_last_scraping, set_running;
      repeat (progress (cbn -[truthy lookup]; rewrite ?Nat.eqb_refl));
      reflexivity.
  - unfold _generate_workflow_summary; simpl.
    destruct scrape as [n|e]; simpl.
    + rewrite andb_true_r, andb_true_iff. split; [intros [? ?]|intros (_ & ? & ?)];
        eauto.
    + split; [done|]. by intros [[? ?] _].
Qed.

Lemma workflow_run_completes_witness :
  snd (step (exec (Machine new_supervisor [])
               [Trigger 1; Resume 1 (ALog (Ok tt));
                Resume 1 (AScrape (Raise (PyExn "TimeoutError" "")) 50%Z);
                Resume 1 (APhase (Phase false []));
                Resume 1 (APhase (Phase true []))])
            (Resume 1 (ALog (Ok tt))))
  = Some (1%nat, Completed (Some (Phase false [("jobs_found", 0%Z)]))
                           (Some (Phase false [])) None
                           (Some (Phase true []))).
Proof.
  destruct (workflow_run_completes new_supervisor 1
              (Raise (PyExn "TimeoutError" "")) 50%Z (Phase false [])
              (Phase true []) eq_refl) as [Hstep _].
  cbv zeta in Hstep. rewrite Hstep. reflexivity.
Defined.

(** Scheduled scraping is due when nothing was scraped yet, and otherwise
    exactly when the configured number of hours has passed since the last
    scraping. *)
Theorem scheduled_scraping_due (s : supervisor) (utcnow : Z) :
  (last_scraping_time s = None ->
   _should_run_scheduled_scraping s utcnow = Ok true)
  /\ (forall last hours,
        last_scraping_time s = Some last ->
        config s !! "scraping_interval_hours" = Some (VInt hours) ->
        _should_run_scheduled_scraping s utcnow
        = Ok (bool_decide (3600 * hours <= utcnow - last)%Z)).
Proof.
  unfold _should_run_scheduled_scraping. split; [by intros ->|].
  intros last hours -> ->. simpl. f_equal.
  apply eq_true_iff_eq. rewrite Qle_bool_iff, bool_decide_eq_true.
  unfold Qle, Qdiv, Qmult, Qinv, inject_Z; simpl. lia.
Qed.

Lemma scheduled_scraping_due_witness :
  _should_run_scheduled_scraping (Sup true (Some 1000%Z) false default_config)
    (1000 + 86399)%Z = Ok false.
Proof.
  destruct (scheduled_scraping_due (Sup true (Some 1000%Z) false default_config)
              (1000 + 86399)%Z) as [_ Hdue].
  rewrite (Hdue 1000%Z 24%Z); reflexivity.
Defined.

End WorkflowRunFacts.

(** ** Trimming and lower-casing *)

Section StripFacts.
Import PyStr.

Lemma isspace_lower (c : ascii) : isspace (lower_ascii c) = isspace c.
Proof. destruct c as [[] [] [] [] [] [] [] []]; reflexivity. Qed.

Lemma lstrip_lower (s : string) : lstrip (lower s) = lower (lstrip s).
Proof.
  induction s as [|c s IH]; simpl; [done|].
  rewrite isspace_lower. by destruct (isspace c).
Qed.

Lemma rstrip_lower (s : string) : rstrip (lower s) = lower (rstrip s).
Proof.
  induction s as [|c s IH]; simpl; [done|].
  rewrite IH, isspace_lower.
  destruct (rstrip s); simpl; [by destruct (isspace c)|done].
Qed.

Lemma strip_lower (s : string) : strip (lower s) = lower (strip s).
Proof. unfold strip. by rewrite lstrip_lower, rstrip_lower. Qed.

Lemma lstrip_idempotent (s : string) : lstrip (lstrip s) = lstrip s.
Proof.
  induction s as [|c s IH]; simpl; [done|].
  destruct (isspace c) eqn:Hc; [done|]. simpl. by rewrite Hc.
Qed.

Lemma rstrip_idempotent (s : string) : rstrip (rstrip s) = rstrip s.
Proof.
  induction s as [|c s IH]; simpl; [done|].
  destruct (rstrip s) as [|d t] eqn:Ht.
  - destruct (isspace c) eqn:Hc; simpl; [done|]. by rewrite Hc.
  - change (rstrip (String c (String d t))) with
      (match rstrip (String d t) with
       | EmptyString => if isspace c then EmptyString else String c EmptyString
       | t' => String c t'
       end).
    by rewrite IH.
Qed.

Lemma lstrip_rstrip (s : string) : lstrip (rstrip s) = rstrip (lstrip s).
Proof.
  induction s as [|c s IH]; simpl; [done|].
  destruct (isspace c) eqn:Hc.
  - rewrite <- IH. destruct (rstrip s) as [|d t]; simpl; [done|].
    by rewrite Hc.
  - simpl. destruct (rstrip s); simpl; by rewrite Hc.
Qed.

(** [s.strip().strip() == s.strip()] *)
Lemma strip_idempotent (s : string) : strip (strip s) = strip s.
Proof.
  unfold strip.
  by rewrite lstrip_rstrip, lstrip_idempotent, rstrip_idempotent.
Qed.

End StripFacts.

(** ** The result cache: keys, repeated searches, growth *)

Section CacheMore.
Import PyStr SimpleSupervisor CacheSpec CacheMoreSpec.

Implicit Types (s : supervisor) (p : search_params) (clk : clock).

(** The cache key does not tell a query from its normal form: case, outer
    white space, an omitted result count of 50, a missing keyword or
    location instead of an empty one, and every other parameter make no
    difference. *)
Theorem cache_key_normal_form (p : search_params) :
  _create_cache_key (normal_form p) = _create_cache_key p
  /\ normalized_query (normal_form p) = normalized_query p.
Proof.
  unfold _create_cache_key, normalized_query, normal_form; simpl.
  by rewrite !strip_lower, !lower_idempotent, <- !strip_lower, !strip_idempotent.
Qed.

(** A search that was just made is served from the cache: after a call
    that scraped, a call for a query with the same cache key within the
    time-to-live returns the payload of the first call without scraping
    and changes nothing. *)
Theorem cache_round_trip s p p' clk clk' jobs save scrape' save' :
  _create_cache_key p' = _create_cache_key p ->
  _is_cache_valid s (_create_cache_key p) (now_check clk) = false ->
  (now_check clk' - now_stamp clk < max_cache_age s)%Z ->
  let first := trigger_job_search s p clk (Ok jobs) save in
  trigger_job_search (o_sup first) p' clk' scrape' save'
  = Outcome (o_sup first) (o_response first) 0.
Proof.
  intros Hkey Hmiss Hfresh first. unfold first, trigger_job_search.
  rewrite Hmiss. simpl. rewrite Hkey.
  unfold _is_cache_valid. simpl. rewrite lookup_insert_eq. simpl.
  apply Z.ltb_lt in Hfresh. by rewrite Hfresh.
Qed.

Lemma cache_round_trip_witness :
  let p := Params (Some "Python") (Some "Remote") None [] in
  let p' := Params (Some " python ") (Some "REMOTE") (Some 50%Z)
                   [("job_type", "full-time")] in
  let clk := Clock 0 0 5 10 10 10 in
  let clk' := Clock (10 + 3599999999) 0 0 0 0 0 in
  let first := trigger_job_search new_supervisor p clk (Ok []) (Ok 0%nat) in
  trigger_job_search (o_sup first) p' clk' (Ok []) (Ok 0%nat)
  = Outcome (o_sup first) (o_response first) 0.
Proof.
  intros p p' clk clk' first.
  apply (cache_round_trip new_supervisor p p' clk clk' [] (Ok 0%nat)).
  - vm_compute. reflexivity.
  - vm_compute. reflexivity.
  - vm_compute. reflexivity.
Defined.

Lemma trigger_job_search_grows s p clk scrape save :
  let s' := o_sup (trigger_job_search s p clk scrape save) in
  dom (search_results_cache s) ⊆ dom (search_results_cache s')
  /\ max_cache_age s' = max_cache_age s
  /\ (forall k, k <> _create_cache_key p ->
        search_results_cache s' !! k = search_results_cache s !! k).
Proof.
  unfold trigger_job_search.
  destruct (_is_cache_valid s (_create_cache_key p) (now_check clk)).
  { destruct (search_results_cache s !! _create_cache_key p); simpl; done. }
  destruct scrape as [jobs|e]; simpl; [|done].
  split; [|split; [done|]].
  - rewrite dom_insert_L. apply union_subseteq_r.
  - intros k Hk. by apply lookup_insert_ne.
Qed.

(** The cache has no eviction: over any series of calls no key is ever
    lost, so the number of cached searches never goes down, and the
    time-to-live stays what it was. *)
Theorem cache_never_evicts s calls :
  let s' := trigger_all s calls in
  dom (search_results_cache s) ⊆ dom (search_results_cache s')
  /\ (size (search_results_cache s) <= size (search_results_cache s'))%nat
  /\ max_cache_age s' = max_cache_age s.
Proof.
  assert (H : dom (search_results_cache s)
              ⊆ dom (search_results_cache (trigger_all s calls))
              /\ max_cache_age (trigger_all s calls) = max_cache_age s).
  { unfold trigger_all. revert s.
    induction calls as [|[[[p clk] scrape] save] rest IH]; intros s; simpl;
      [done|].
    destruct (trigger_job_search_grows s p clk scrape save) as (Hsub & Hage & _).
    destruct (IH (o_sup (trigger_job_search s p clk scrape save)))
      as [Hsub' Hage'].
    split; [by etransitivity|congruence]. }
  destruct H as [Hsub Hage]. split; [done|]. split; [|done].
  rewrite <- !size_dom. by apply subseteq_size.
Qed.

End CacheMore.

(** ** Cleaning scraped text *)

Section CleanTextFacts.
Import ScraperHelpers CleanTextSpec.

Variable isalnum : char -> bool.
Variable isspace : char -> bool.

Lemma lstrip_sublist (text : list char) :
  lstrip isspace text `sublist_of` text.
Proof.
  induction text as [|c rest IH]; simpl; [done|].
  destruct (isspace c); [by apply sublist_cons|done].
Qed.

Lemma strip_chars (text : list char) c :
  In c (strip isspace text) -> In c text.
Proof.
  unfold strip. intros Hin.
  apply in_rev, list_elem_of_In in Hin.
  apply (fun H => elem_of_sublist _ _ _ H (lstrip_sublist _)) in Hin.
  apply list_elem_of_In, in_rev, list_elem_of_In in Hin.
  apply (fun H => elem_of_sublist _ _ _ H (lstrip_sublist _)) in Hin.
  by apply list_elem_of_In.
Qed.

Lemma strip_length (text : list char) :
  (length (strip isspace text) <= length text)%nat.
Proof.
  unfold strip. rewrite length_rev.
  etransitivity; [apply sublist_length, lstrip_sublist|].
  rewrite length_rev. apply sublist_length, lstrip_sublist.
Qed.

Lemma collapse_chars in_run (text : list char) c :
  In c (collapse isspace in_run text) ->
  c = ord " " \/ (isspace c = false /\ In c text).
Proof.
  revert in_run. induction text as [|d rest IH]; intros in_run; simpl; [done|].
  destruct (isspace d) eqn:Hd.
  - destruct in_run; simpl.
    + intros H. destruct (IH _ H) as [->|[? ?]]; auto.
    + intros [<-|H]; [by left|]. destruct (IH _ H) as [->|[? ?]]; auto.
  - simpl. intros [<-|H]; [right; auto|].
    destruct (IH _ H) as [->|[? ?]]; auto.
Qed.

Lemma collapse_length in_run (text : list char) :
  (length (collapse isspace in_run text) <= length text)%nat.
Proof.
  revert in_run. induction text as [|d rest IH]; intros in_run; simpl; [done|].
  pose proof (IH true). pose proof (IH false).
  destruct (isspace d); [destruct in_run|]; simpl; lia.
Qed.

(** What [clean_text] returns holds only word characters (the letters and
    digits of any script and the underscore), the space and [-.,()&]; the
    space is its only white space, so no tab, line break or no-break space
    is left; every other character of it occurs in the text; it is no
    longer than the text; nothing comes out of [None] or the empty string.
    This holds whatever the Unicode database classifies as alphanumeric and
    as white space. *)
Theorem clean_text_alphabet (text : option (list char)) :
  let cleaned := clean_text isalnum isspace text in
  (forall c, In c cleaned ->
     (c = ord " " \/ In c (default [] text))
     /\ (is_word isalnum c
         || existsb (N.eqb c)
              (map ord [" "; "-"; "."; ","; "("; ")"; "&"]%char)) = true
     /\ (isspace c = true -> c = ord " "))
  /\ (length cleaned <= length (default [] text))%nat
  /\ (text = None \/ text = Some [] -> cleaned = []).
Proof.
  destruct text as [[|c0 text]|]; cbn zeta;
    try (split; [intros c []|split; [simpl; lia|done]]).
  unfold clean_text, remove_special. set (t := c0 :: text). split; [|split].
  - intros c [Hin Hk]%filter_In.
    apply collapse_chars in Hin as [->|[Hs Hin]].
    { split; [by left|]. split; [by rewrite orb_true_r|done]. }
    split; [right; by apply strip_chars in Hin|]. split; [|congruence].
    unfold kept in Hk. rewrite Hs, orb_false_r in Hk.
    apply orb_true_iff in Hk as [->|Hk]; [done|].
    cbn [map existsb] in *. rewrite Hk. by rewrite !orb_true_r.
  - etransitivity; [apply List.filter_length_le|]. simpl default.
    etransitivity; [apply collapse_length|apply strip_length].
  - intros [?|?]; discriminate.
Qed.

End CleanTextFacts.

Section CleanTextExample.
Import ScraperHelpers CleanTextSpec.

Lemma clean_text_alphabet_witness :
  let text := codes "Z" ++ [252%N] ++ codes "rich " ++ [8211%N; 160%N]
              ++ codes "R&D" ++ [9%N] ++ codes "!" in
  let cleaned := clean_text sample_isalnum sample_isspace (Some text) in
  cleaned = codes "Z" ++ [252%N] ++ codes "rich  R&D "
  /\ (is_word sample_isalnum 252%N
      || existsb (N.eqb 252%N)
           (map ord [" "; "-"; "."; ","; "("; ")"; "&"]%char)) = true.
Proof.
  intros text cleaned. split; [vm_compute; reflexivity|].
  apply (proj1 (clean_text_alphabet sample_isalnum sample_isspace (Some text))
               252%N).
  vm_compute. tauto.
Defined.

End CleanTextExample.

(** ** Education requirements *)

Section EducationFacts.
Import PyStr Regex Extract ExtractSpec ExtractMeaningSpec Education.

Lemma education_patterns_compile : catalog_compiles education_patterns = true.
Proof. vm_compute. reflexivity. Qed.

(** [extract_education_requirements] catches nothing, and needs not: all
    its patterns compile, so it returns, and what it returns are the
    requirements of its catalog one of whose patterns matches the
    lower-cased text, each once and in the order of the catalog. *)
Theorem extract_education_meaning (text : string) :
  text <> "" ->
  extract_education_requirements (Some text)
  = Ok (matching_names education_patterns (lower text))
  /\ NoDup (matching_names education_patterns (lower text))
  /\ matching_names education_patterns (lower text)
     `sublist_of` map fst education_patterns.
Proof.
  intros Hne. unfold extract_education_requirements.
  destruct text as [|c text]; [done|]. cbn [falsy text_of].
  rewrite (scan_catalog_meaning _ _ _ education_patterns_compile).
  split; [done|]. split.
  - apply catalog_names_nodup. apply (bool_decide_unpack _). vm_compute. exact I.
  - unfold matching_names. generalize education_patterns. intros l.
    induction l as [|e l IH]; simpl; [done|].
    destruct (existsb _ _); simpl;
      [by apply sublist_skip | by apply sublist_cons].
Qed.

Lemma extract_education_meaning_witness :
  extract_education_requirements (Some "BS in Engineering")
  = Ok (matching_names education_patterns "bs in engineering").
Proof.
  apply (extract_education_meaning "BS in Engineering"). discriminate.
Defined.

End EducationFacts.

(** ** Keyword skills of the simple scraper *)

Section SimpleSkillsFacts.
Import PyStr Extract SimpleSkills.

Lemma prefix_split (a b : string) :
  String.prefix a b = true <-> exists r, b = a +:+ r.
Proof.
  revert b. induction a as [|c a IH]; intros b; simpl.
  - destruct b; split; eauto.
  - destruct b as [|d b]; [split; [done|intros [r Hr]; discriminate]|].
    cbn [String.prefix]. destruct (ascii_dec c d) as [->|Hne].
    + rewrite IH. split; intros [r Hr]; exists r.
      * simpl. by rewrite Hr.
      * simpl in Hr. by injection Hr.
    + split; [done|]. intros [r Hr]. simpl in Hr. by injection Hr.
Qed.

(** [a in b]: [b] is [a] with something before and something after. *)
Lemma contains_split (b a : string) :
  contains b a = true <-> exists l r, b = l +:+ a +:+ r.
Proof.
  induction b as [|d b IH].
  - cbn [contains]. rewrite orb_false_r, prefix_split. split.
    + intros [r Hr]. by exists "", r.
    + intros (l & r & Hr). destruct l; [by exists r|discriminate].
  - cbn [contains]. rewrite orb_true_iff, prefix_split, IH. split.
    + intros [[r Hr]|(l & r & Hr)]; [by exists "", r|].
      exists (String d l), r. simpl. by rewrite Hr.
    + intros (l & r & Hr). destruct l as [|e l]; [left; by exists r|].
      right. simpl in Hr. injection Hr as _ Hr. by exists l, r.
Qed.

Lemma append_assoc (a b c : string) : (a +:+ b) +:+ c = a +:+ (b +:+ c).
Proof.
  induction a as [|x a IH]; [done|].
  change (String x ((a +:+ b) +:+ c) = String x (a +:+ (b +:+ c))).
  by rewrite IH.
Qed.

Lemma contains_trans (c b a : string) :
  contains c b = true -> contains b a = true -> contains c a = true.
Proof.
  rewrite !contains_split. intros (l & r & ->) (l' & r' & ->).
  exists (l +:+ l'), (r' +:+ r). by rewrite !append_assoc.
Qed.

Lemma found_in_meaning keywords text_lower found skill :
  skill ∈ found_in keywords text_lower found
  <-> skill ∈ found
      \/ (skill ∈ keywords /\ contains text_lower (lower skill) = true).
Proof.
  revert found. induction keywords as [|k rest IH]; intros found; simpl.
  - split; [auto|]. intros [?|[H _]]; [done|]. by apply elem_of_nil in H.
  - rewrite IH. destruct (contains text_lower (lower k)) eqn:Hk.
    + rewrite elem_of_app, list_elem_of_singleton, elem_of_cons. split.
      * intros [[? | ->]|[? ?]]; auto.
      * intros [?|[[->|?] ?]]; auto.
    + rewrite elem_of_cons. split.
      * intros [?|[? ?]]; auto.
      * intros [?|[[->|?] ?]]; [auto|congruence|auto].
Qed.

Lemma keywords_lower :
  Forall (fun skill => lower skill = skill) skills_keywords.
Proof. apply (bool_decide_unpack _). vm_compute. exact I. Qed.

(** The simple scraper reports a skill exactly when it is one of its
    keywords and occurs in the lower-cased text as a substring, each once.
    So a keyword that is part of a reported keyword is reported too:
    [sql] with [mysql], [java] with [javascript]. *)
Theorem simple_extract_skills_substring (text : string) :
  NoDup (_extract_skills text)
  /\ (forall skill,
        skill ∈ _extract_skills text
        <-> skill ∈ skills_keywords /\ contains (lower text) skill = true)
  /\ (forall skill part,
        skill ∈ _extract_skills text ->
        part ∈ skills_keywords -> contains skill part = true ->
        part ∈ _extract_skills text).
Proof.
  assert (Hmeaning : forall skill,
            skill ∈ _extract_skills text
            <-> skill ∈ skills_keywords /\ contains (lower text) skill = true).
  { intros skill. unfold _extract_skills, list_of_set.
    rewrite elem_of_elements, elem_of_list_to_set, found_in_meaning.
    split.
    - intros [H|[Hin Hc]]; [by apply elem_of_nil in H|].
      split; [done|].
      pose proof keywords_lower as Hl.
      rewrite Forall_forall in Hl. by rewrite <- (Hl _ Hin).
    - intros [Hin Hc]. right. split; [done|].
      pose proof keywords_lower as Hl.
      rewrite Forall_forall in Hl. by rewrite (Hl _ Hin). }
  split; [unfold _extract_skills, list_of_set; apply NoDup_elements|].
  split; [done|].
  intros skill part [Hin Hc]%Hmeaning Hpart Hsub. apply Hmeaning.
  split; [done|]. by apply contains_trans with skill.
Qed.

Lemma simple_extract_skills_substring_witness :
  "sql" ∈ _extract_skills "MySQL on Linux".
Proof.
  destruct (simple_extract_skills_substring "MySQL on Linux")
    as (_ & Hmeaning & Hpart).
  apply (Hpart "mysql" "sql").
  - apply Hmeaning. split; [|vm_compute; reflexivity].
    apply (bool_decide_unpack _). vm_compute. exact I.
  - apply (bool_decide_unpack _). vm_compute. exact I.
  - vm_compute. reflexivity.
Defined.

End SimpleSkillsFacts.
